(* ===== verification/_CoqProject ===== *)
-Q . S2P
Prelude.v
JsValue.v
Dom.v
Config.v
Validation.v
Form.v
FormValidation.v
InputValidation.v
Wiring.v
FormLifecycle.v
