(* ===== verification/Prelude.v ===== *)
(** * st-form: a verification development of the form-validation layer

    The program (TypeScript, under [src/src/]) binds input elements of a
    DOM form to validator functions, debounces their execution, aggregates
    per-field results into whole-form validity, and extracts a structured
    value snapshot from a form and its nested sub-forms.

    ** The program's parts and how they interact

    - [st-form.ts], [interface/i-$-form-config.ts] and [config.ts]: two
      process-wide configuration objects stored in the global object under
      the key ["$stForm"]; [st-form.ts] initialises the fields of the
      object it finds there lazily, [config.ts] replaces that object
      wholesale.  [Validation] reads the first ([stForm]), [Form] reads
      the second ([getFormConfig()]).
    - [component/validation/validation.ts], class [Validation]: one per
      bound input or textarea.  It keeps a pending debounce timer, the
      reject handle of the pending validation promise, and the last
      published [IValidation] state.  [validate(force)] cancels the pending
      call, restarts the timer, and when the timer fires reads the value,
      applies the skip rule, runs the validators one [await] at a time,
      publishes the state, dispatches a ["validation"] event and resolves.
    - [component/validation/input-validation.tsx], class [InputValidation]:
      assembles the validator list from declarative attributes (required,
      maxLength, minLength, max, min, pattern, then the custom ones) and
      renders a [Validation] around its children.
    - [component/form/form.tsx], class [Form]: discovers the [Validation]
      components registered on its elements ([getElements]), its nested
      forms ([getSubForm]), validates both in two phases, and builds the
      form state ([getState]).

    ** Files of the development (in dependency order)

    - [Prelude.v] (this file): the [stform_scope] notations, JavaScript
      truthiness and the [||] operator as a type class, the [stform] hint
      database, the shared tactics and the generic list lemmas.
    - [JsValue.v]: JavaScript numbers (NaN, a rational, or an infinity),
      the field value type [IValidation.value] and strict equality [===]
      on it; the built-ins the configuration uses: [parseInt] without
      radix (white space, sign, [0x], longest digit prefix, NaN, and the
      integer of the digits rounded to the nearest double by
      [number_value]), [split] on one character, and [String(n)] for
      naturals, with the lemmas that [parseInt] reads a numeral of at
      most [2^53] back and [split] undoes [join].
    - [Dom.v]: the part of the DOM the code touches: elements with their
      [type], [name], [value], [checked], [valueAsNumber], [valueAsDate],
      [disabled], [readOnly] and custom-validity message; expando
      properties installed by the components; [form.elements] and
      [namedItem] with [RadioNodeList]; each control's defaults and the
      native [form.reset()]; documents of the same shape (the same
      nodes, expandos, kinds, names and owners), on which every query
      of the code agrees.
    - [Config.v]: the [I$FormConfig] record with the defaults of
      [st-form.ts], the [FormConfig] record of [config.ts] with
      [defaultFormConfig()]; [process.env] as an association list and
      the readers of both files (config.ts's copies in [Module ConfigTs]);
      the global object as a heap of configuration objects ([Globals]:
      the address under ["$stForm"], the address the constant [stForm]
      was bound to, the next fresh address); the evaluation of
      [st-form.ts] ([st_form_module]: create the object if absent, bind
      [stForm], fill in its falsy fields) and of [config.ts]
      ([config_module]: store a new object), [getFormConfig()], the two
      orders in which the modules can be evaluated, and the abstract
      configuration the environment determines ([stForm_of_env],
      [formConfig_of_env]).
    - [Validation.v]: [Module Validation]: the component record, the
      run-time (timers, promises, suspended [await] continuations,
      dispatched events), one definition per method of the class, the
      step relation of the event loop, its reachability invariant and the
      functional, cancellation, equivalence and liveness theorems.
    - [Form.v]: [Module Form]: a page (the DOM, the components by
      identity and their logical parents), [addFormToForm],
      [getElements], [getSubForm] and [getState] with its element loop,
      deferred radio groups and recursive merge of sub-form states; the
      theorems characterise [getElements] and [getSubForm], prove that
      [getState] terminates on a tree, and describe its nested and radio
      entries, with an example page of three nested forms.
    - [FormValidation.v]: [Module FormValidation]: [Form.validate] on a
      page of several components.  The class [FieldValidation] states
      what a form relies on in a field (a call, its outcome, the field's
      own steps, a run and the value the call returns) with its laws in
      [FieldValidationLaws]; [validation_field] is the [Validation]
      component, and [validation_field_laws] discharges the laws from
      the theorems of [Validation.v].  The executor of
      [new Promise(async (resolve) => ...)] is a task suspended at one of
      its two [await Promise.all] points; [fstep] interleaves form calls,
      executor resumptions and the fields' own steps.
    - [InputValidation.v]: [Module InputValidation]: the attributes of
      the component, the validator list of [render()] (built-ins in the
      fixed order, then the custom ones) against the class [StValidate]
      of the [st-validate] builders, the [Validation] it renders, and
      [onAfterRender()] binding the first [<input>] ([formIgnore],
      [readOnly], [disabled]) or throwing.
    - [FormLifecycle.v]: [Module FormLifecycle]: the rest of [Form]'s
      lifecycle: [onAfterRender] ([addFormToForm], then [overrideSubmit]
      installing a submit listener), what submitting a [<form>] does,
      and [reset()]; the lifecycle steps [lstep] of a page's forms.
    - [Wiring.v]: [Module Wiring]: [Validation.onAfterRender] and
      [Form.getElements] composed through the two configuration objects.

    ** What the theorems show

    - Validation: every reachable world satisfies the invariant
      [Validation.wf]; a pass computes the reference result of running all
      validators; an unchanged value is skipped but a date or NaN value
      never is; a new call cancels the pending one; a pass terminates
      under the scheduler [drain]; a throwing first validator leaves the
      call pending under [drain]; a stale pass can overwrite a newer state; the listeners
      removed on disconnect are not those added on connect.
    - Form: [getElements] is characterised and ignores [readOnly];
      [getSubForm] returns nested forms at any depth; [getState]
      terminates with fuel one more than the number of nodes when the
      parent links form a tree ([Dom.tree_ok]), holds each sub-form's state
      under its name and each radio group once; since [getSubForm]
      returns forms at any depth, a grandchild form is merged both into
      its parent's state and at the top level; and a radio button alone
      under its name reports its value although unchecked.
    - FormValidation: a form without sub-forms resolves with the conjunction of its fields'
      results (against the interface, so for any field satisfying the
      laws); a rejected field call leaves the form's promise pending for
      ever; and with three nested forms the browser's schedule makes the
      outer form report invalid although every field is valid.
    - InputValidation: [required={false}] still makes the field required;
      a [readonly] or
      [formIgnore] field stays among its form's validated fields, and a
      [formIgnore] field is left out of the form state.
    - Config: after [st-form.ts] every field of [stForm] is defined; in
      either order,
      with nothing preset, the modules refine the abstract configuration
      of the environment, whose defaults are the documented ones; the
      debounce variable reads back [String(n)] for [n <= 2^53] except
      [0] (which gives [250]), always gives a truthy delay, and with at
      most 15 digits stays within [1 .. 10^k - 1] for [k] digits or is
      [250];
      the listener variable reads back names joined by ['|']; and in the
      load order of form.tsx a page object preset under ["$stForm"]
      splits the configuration into two objects.
    - FormLifecycle: every registered form keeps a submit listener along
      any renders and resets, so it is never submitted (an invariant by
      induction on [lstep]); [reset()] restores the defaults of the
      form's own controls and keeps their custom validity; and the state
      of every form that does not nest the reset form, each nested
      sub-form included, is unchanged ([getState] reads only the controls
      of the forms it visits: a frame lemma over documents of the same
      shape).
    - Wiring: with nothing preset a bound [Validation] is among its
      form's fields, as the spec describes; with a preset page object it
      is invisible to its form, whose [getElements] does not change.

    ** Abstractions, bounds and fuel

    - Time is abstracted: the debounce delay is computed exactly as the
      code computes it, but the firing of a timer is a step that the
      scheduler may take at any moment.  Because [clearTimeout] is called
      before each [setTimeout], a component never has two pending timers,
      so the relative order of timers of one component never matters.
    - Each [await validator(value)] is a suspension point: the step
      relation may interleave any other step (a new [validate] call, a
      user edit) between two validators.  In the browser another task
      runs there only while the validator's promise is pending: an
      [await] on a promise already settled resumes in the microtask
      queue before any timer or event.  The stale-pass trace of
      [Validation.stale_pass_overwrites] therefore describes the code
      with an asynchronous validator (the type [(value) => Promise<boolean>]
      of [validators] admits one) that is still pending when the user
      edits and the next debounce timer fires; with synchronous
      validators only, the relation admits schedules the browser does
      not take.
    - The validators themselves come from the external library
      [st-validate]; a validator is a record of its [VALIDATOR_NAME]
      property (absent for plain custom functions) and of a pure function
      from the value to a result that is either a truthiness or a thrown
      exception.
    - Liveness is stated with an explicit scheduler [drain] whose fuel is
      one more than the number of validators: enough for the timer and
      one resumption per validator.
    - [getState] recurses through nested forms with fuel; the measure
      [Form.measure] (number of nodes minus the depth of [formRef])
      decreases on each nested form, so fuel one more than the number of
      nodes suffices, and more fuel changes nothing.  The ancestors of a
      node are computed with fuel the number of nodes, enough for a tree.
      The logical parent chain [Form.chain] of a component is followed
      with fuel the number of registered components: enough when the
      parent links are acyclic and lead through registered components;
      a chain through components missing from [comps] is cut short after
      that many links.
    - In [FormValidation.v] the page's DOM and each field's DOM are
      separate copies: the form reads the page, a field reads its own.
      The only DOM write of the code, [setCustomValidity], changes
      neither [form.elements] nor any value ([Dom.form_elements_setCustomValidity]).
      User input on the page is therefore not modelled there.
    - JavaScript objects are association lists in insertion order; the
      keys the code uses are names, not integer-like strings, so the
      order of [Object.keys] is the insertion order.
    - The global object holds configuration objects by address in a
      [gmap]; aliasing (two names for one object) is equality of
      addresses, so [stForm] and [getFormConfig()] are the same object
      exactly when their addresses agree.  The page's own code is
      represented only by what it may have stored under ["$stForm"]
      before the library loads ([preset_globals]).
    - The environment is a list of variables.  [parseInt] computes the
      exact integer of its digits and rounds it to the nearest double,
      ties to even, as ECMAScript's conversion to a Number does
      ([number_value]: exact up to [2^53], an infinity from [2^1024]);
      [String(n)] is exact on naturals.

    ** What is not modelled

    Rendering and the component framework (springtype) are given: the
    [render()] methods only return their elements to it, and the
    decorators ([@component], [@attr], [@ref], [@event]) and interfaces
    of attributes have no behaviour; a submit that is not prevented
    leaves the page, outside the model; the validators of
    [st-validate] are abstract (the class [StValidate] and its law for
    [required]); the
    native constraint-validation UI is observed only through the custom
    validity message; [st.error]/[st.debug] logging is recorded as an
    error value where it replaces an exception; JavaScript objects keyed
    by integer-like strings (whose key order differs) are not used by the
    code and are not modelled.  The lines of the sources no definition
    translates are of that kind: the imports, the attribute interfaces
    [IAttrValidation], [IAttrForm] and [FromValidationDetail] (their
    fields are those of the component records), the [placeholder]
    attribute (passed to the framework only), the [render()] methods and
    the constructor of [InputValidation] (calls into the framework), and
    the commented-out [doRadioValidation] of validation.ts (lines
    146-180), which is not code. *)

From stdpp Require Export base list strings gmap.
From Stdlib Require Export ZArith.

Declare Scope stform_scope.
Delimit Scope stform_scope with stform.
Open Scope stform_scope.

(** ** JavaScript truthiness and the [||] operator

    [a || b] evaluates to [a] when [a] is truthy and to [b] otherwise.
    The code uses it for defaults ([this.debounceTimeInMs ||
    stForm.validationDebounceTimeInMs], [input.value || '']). *)
Class Truthy (A : Type) := truthy : A -> bool.
#[export] Hint Mode Truthy ! : typeclass_instances.

Definition js_or {A} `{Truthy A} (a b : A) : A := if truthy a then a else b.
Notation "a '||j' b" := (js_or a b) (at level 50, left associativity) : stform_scope.

#[export] Instance truthy_bool : Truthy bool := fun b => b.
#[export] Instance truthy_string : Truthy string :=
  fun s => negb (String.eqb s "").
(** Arrays are truthy, the empty one included. *)
#[export] Instance truthy_list {A} : Truthy (list A) := fun _ => true.
(** [undefined] (here [None]) is falsy; a defined value is as truthy as
    its content. *)
#[export] Instance truthy_option {A} `{Truthy A} : Truthy (option A) :=
  fun o => match o with Some a => truthy a | None => false end.

(** ** Hint database and tactics shared by the development *)
Create HintDb stform discriminated.
#[export] Hint Constants Transparent : stform.
Create Rewrite HintDb stform.

(** Case split on the innermost [match] or [if] of the goal, keeping the
    equation. *)
Ltac case_match_goal :=
  match goal with
  | |- context [match ?x with _ => _ end] =>
      let E := fresh "E" in destruct x eqn:E
  end.

(** Reading the property [k] of a plain object given as an association
    list: [undefined] when absent. *)
Fixpoint assoc (k : string) (l : list (string * string)) : option string :=
  match l with
  | [] => None
  | (k', x) :: l' => if String.eqb k k' then Some x else assoc k l'
  end.

(** ** Sequences of steps of a transition relation *)
Section Star.
Context {S : Type} (R : S -> S -> Prop).

Inductive star : S -> S -> Prop :=
| star_refl s : star s s
| star_step s1 s2 s3 : R s1 s2 -> star s2 s3 -> star s1 s3.

Lemma star_trans s1 s2 s3 : star s1 s2 -> star s2 s3 -> star s1 s3.
Proof. induction 1; eauto using star. Qed.

Lemma star_one s1 s2 : R s1 s2 -> star s1 s2.
Proof. eauto using star. Qed.

(** An invariant of every step holds along every sequence. *)
Lemma star_invariant (P : S -> Prop) :
  (forall s s', P s -> R s s' -> P s') -> forall s s', star s s' -> P s -> P s'.
Proof. intros Hstep s s' H. induction H; eauto. Qed.
End Star.
#[export] Hint Constructors star : stform.

(** ** Generic lemmas *)

Lemma js_or_truthy {A} `{Truthy A} (a b : A) : truthy a = true -> (a ||j b) = a.
Proof. unfold js_or. by intros ->. Qed.

Lemma js_or_falsy {A} `{Truthy A} (a b : A) : truthy a = false -> (a ||j b) = b.
Proof. unfold js_or. by intros ->. Qed.

(** [input.value || ''] is the value itself: the only falsy string is
    the empty one. *)
Lemma js_or_string_empty (s : string) : (s ||j "") = s.
Proof.
  unfold js_or, truthy, truthy_string.
  destruct (String.eqb_spec s ""); simpl; congruence.
Qed.

Lemma filter_nil_forallb {A} (f : A -> bool) (l : list A) :
  List.filter (fun x => negb (f x)) l = [] <-> forallb f l = true.
Proof.
  induction l as [|x l IH]; simpl; [done|].
  destruct (f x); simpl; [done|]. split; [discriminate|]. discriminate.
Qed.

Lemma filter_app_one {A} (f : A -> bool) (l : list A) (x : A) :
  List.filter f (l ++ [x]) = List.filter f l ++ (if f x then [x] else []).
Proof. induction l as [|y l IH]; simpl; [done|]. destruct (f y); simpl; by rewrite IH. Qed.

#[export] Hint Rewrite @js_or_string_empty @filter_app_one : stform.

Lemma elem_of_map_delete {A B} (f : A -> B) (l : list A) k y :
  y ∈ map f (delete k l) -> y ∈ map f l.
Proof.
  intros (z & Ez & Hz)%list_elem_of_In%in_map_iff. apply list_elem_of_In, in_map_iff.
  exists z. split; [done|]. apply list_elem_of_In, (list_elem_of_delete_inv _ k).
  by apply list_elem_of_In.
Qed.

(** Removing the [k]-th element of a list whose image has no
    duplicates removes its image and keeps the others distinct. *)
Lemma NoDup_map_delete {A B} (f : A -> B) (l : list A) k x :
  NoDup (map f l) -> l !! k = Some x ->
  f x ∉ map f (delete k l) /\ NoDup (map f (delete k l)).
Proof.
  revert k. induction l as [|y l IH]; intros k Hnd Hk; [done|].
  simpl in Hnd. apply NoDup_cons in Hnd as [Hy Hnd].
  destruct k as [|k]; simpl in Hk |- *; [by injection Hk as ->|].
  destruct (IH k Hnd Hk) as [Hx Hnd'].
  split.
  - rewrite elem_of_cons. intros [Exy|]; [|done]. apply Hy. rewrite <- Exy.
    apply list_elem_of_In, in_map_iff. exists x. split; [done|].
    apply list_elem_of_In. by eapply list_elem_of_lookup_2.
  - apply NoDup_cons. split; [|done]. intros Hin. by apply Hy, (elem_of_map_delete f l k).
Qed.

(** A truthy optional value is defined. *)
Lemma truthy_is_Some {A} `{Truthy A} (o : option A) : truthy o = true -> is_Some o.
Proof. destruct o; [by eexists|discriminate]. Qed.

Lemma js_or_is_Some {A} `{Truthy A} (a b : option A) : is_Some b -> is_Some (a ||j b).
Proof. intros Hb. unfold js_or. destruct (truthy a) eqn:E; [by apply truthy_is_Some|done]. Qed.

(** [b || false] on booleans. *)
Lemma js_or_false (b : bool) : (b ||j false) = b.
Proof. by destruct b. Qed.
#[export] Hint Rewrite js_or_false : stform.

Lemma truthy_Some {A} `{Truthy A} (a : A) : truthy (Some a) = truthy a.
Proof. reflexivity. Qed.
#[export] Hint Rewrite @truthy_Some : stform.
