(* ===== verification/JsValue.v ===== *)
(** JavaScript values of the field model: numbers with NaN and the
    infinities, [parseInt] with its rounding to a double, the value
    type [boolean | string | number | Date | undefined | null] of
    [IValidation.value] (validation.ts, lines 13-18), and the strict
    equality [!==] the skip rule of [Validation.validate] uses on them. *)
From S2P Require Import Prelude.
From Stdlib Require Import QArith_base.
Close Scope Q_scope.

(** A JavaScript number: NaN, a finite rational, or an infinity of
    the given sign ([neg = true] for [-Infinity]).  [valueAsNumber] of
    an empty or malformed number input is NaN. *)
Inductive JSNum :=
| NaN
| Num (q : Q)
| Inf (neg : bool).

(** An integer-valued number. *)
Definition num_of_Z (z : Z) : JSNum := Num (inject_Z z).

(** [x === y] on numbers: NaN is equal to nothing, itself included. *)
Definition num_strict_eq (x y : JSNum) : bool :=
  match x, y with
  | Num a, Num b => Qeq_bool a b
  | Inf a, Inf b => Bool.eqb a b
  | _, _ => false
  end.

(** [0] and [NaN] are the falsy numbers. *)
#[export] Instance truthy_num : Truthy JSNum := fun x =>
  match x with
  | NaN => false
  | Num q => negb (Qeq_bool q 0)
  | Inf _ => true
  end.

(** [IValidation.value]: a [Date] is an object, compared by identity
    [obj]; [time] is its timestamp. *)
Inductive FieldValue :=
| FBool (b : bool)
| FString (s : string)
| FNumber (n : JSNum)
| FDate (obj : nat) (time : Z)
| FUndefined
| FNull.

#[export] Instance Q_eq_dec : EqDecision Q.
Proof. intros [a b] [c d]. destruct (decide (a = c)), (decide (b = d)); subst;
  (left; reflexivity) || (right; congruence). Defined.

#[export] Instance JSNum_eq_dec : EqDecision JSNum.
Proof. solve_decision. Defined.

#[export] Instance FieldValue_eq_dec : EqDecision FieldValue.
Proof. solve_decision. Defined.

(** ** [parseInt(string)] and [string.split(separator)] *)

(** The white space [parseInt] skips, on ASCII: tab, line feed,
    vertical tab, form feed, carriage return and space. *)
Definition is_js_space (c : Ascii.ascii) : bool :=
  existsb (Nat.eqb (Ascii.nat_of_ascii c)) [9; 10; 11; 12; 13; 32].

Fixpoint trim_start (s : string) : string :=
  match s with
  | String c r => if is_js_space c then trim_start r else s
  | EmptyString => EmptyString
  end.

(** The value of a digit in base [radix]: [0-9], then [a-z] or [A-Z]
    from 10. *)
Definition digit_val (radix : nat) (c : Ascii.ascii) : option nat :=
  let n := Ascii.nat_of_ascii c in
  let v := if (48 <=? n) && (n <=? 57) then Some (n - 48)
           else if (97 <=? n) && (n <=? 122) then Some (n - 87)
           else if (65 <=? n) && (n <=? 90) then Some (n - 55)
           else None in
  match v with
  | Some d => if d <? radix then Some d else None
  | None => None
  end.

(** The longest prefix of digits. *)
Fixpoint digits_prefix (radix : nat) (s : string) : list nat :=
  match s with
  | String c r => match digit_val radix c with
                  | Some d => d :: digits_prefix radix r
                  | None => []
                  end
  | EmptyString => []
  end.

Definition horner (radix : nat) (ds : list nat) : Z :=
  fold_left (fun acc d => acc * Z.of_nat radix + Z.of_nat d)%Z ds 0%Z.

(** The Number value of an integer (ECMAScript, 6.1.6.1): the nearest
    double, ties to the even significand.  Up to [2^53] every integer is
    a double; above, [a] is cut to its 53 leading bits [m], the
    [e] dropped bits [r] decide the rounding against half a unit, and a
    result of [2^1024] or more is an infinity. *)
Definition number_value (z : Z) : JSNum :=
  let a := Z.abs z in
  if (a <=? 2 ^ 53)%Z then num_of_Z z
  else
    let e := (Z.log2 a - 52)%Z in
    let m := Z.shiftr a e in
    let r := (a - Z.shiftl m e)%Z in
    let half := Z.shiftl 1 (e - 1) in
    let m' := if (r <? half)%Z then m
              else if (half <? r)%Z then (m + 1)%Z
              else if Z.even m then m else (m + 1)%Z in
    let v := Z.shiftl m' e in
    if (2 ^ 1024 <=? v)%Z then Inf (z <? 0)%Z else num_of_Z (Z.sgn z * v).

(** [parseInt(s)] with no radix (ECMAScript, 19.2.5): skip white space,
    read a sign, read the prefix [0x] or [0X] as base 16 (base 10
    otherwise), then the longest run of digits; no digit gives NaN, and
    the integer they denote is rounded to a double by [number_value]. *)
Definition js_parseInt (s : string) : JSNum :=
  let s1 := trim_start s in
  let '(sign, s2) :=
    match s1 with
    | String c r => if Nat.eqb (Ascii.nat_of_ascii c) 45 then ((-1)%Z, r)
                    else if Nat.eqb (Ascii.nat_of_ascii c) 43 then (1%Z, r) else (1%Z, s1)
    | EmptyString => (1%Z, s1)
    end in
  let '(radix, s3) :=
    match s2 with
    | String c (String x r) =>
        if Nat.eqb (Ascii.nat_of_ascii c) 48 &&
           (Nat.eqb (Ascii.nat_of_ascii x) 120 || Nat.eqb (Ascii.nat_of_ascii x) 88)
        then (16, r) else (10, s2)
    | _ => (10, s2)
    end in
  match digits_prefix radix s3 with
  | [] => NaN
  | ds => number_value (sign * horner radix ds)
  end.

(** [s.split(sep)] for a one-character separator: the pieces between
    the occurrences of [sep], empty pieces included. *)
Fixpoint js_split_go (sep : Ascii.ascii) (s : string) (cur : string) : list string :=
  match s with
  | EmptyString => [cur]
  | String c r => if Ascii.eqb c sep then cur :: js_split_go sep r EmptyString
                  else js_split_go sep r (String.append cur (String c EmptyString))
  end.

Definition js_split (sep : Ascii.ascii) (s : string) : list string := js_split_go sep s EmptyString.

(** The decimal text of a list of digits. *)
Definition digits_string (ds : list nat) : string :=
  fold_right (fun d s => String (Ascii.ascii_of_nat (48 + d)) s) EmptyString ds.

(** [String(n)] for a natural number [n]: its decimal digits, most
    significant first; [n] itself bounds the number of divisions. *)
Fixpoint to_digits_fuel (fuel n : nat) : list nat :=
  match fuel with
  | O => [n]
  | S f => if n <? 10 then [n] else to_digits_fuel f (n / 10) ++ [n mod 10]
  end.

Definition to_digits (n : nat) : list nat := to_digits_fuel n n.

Definition js_nat_toString (n : nat) : string := digits_string (to_digits n).

(** Whether the character [c] occurs in [s]. *)
Fixpoint str_has (c : Ascii.ascii) (s : string) : bool :=
  match s with
  | EmptyString => false
  | String a r => Ascii.eqb a c || str_has c r
  end.


(** [a === b]. *)
Definition strict_eq (a b : FieldValue) : bool :=
  match a, b with
  | FBool x, FBool y => Bool.eqb x y
  | FString x, FString y => String.eqb x y
  | FNumber x, FNumber y => num_strict_eq x y
  | FDate o _, FDate o' _ => Nat.eqb o o'
  | FUndefined, FUndefined => true
  | FNull, FNull => true
  | _, _ => false
  end.

Lemma strict_eq_sym a b : strict_eq a b = strict_eq b a.
Proof.
  destruct a, b; simpl; try reflexivity.
  - by destruct b, b0.
  - apply String.eqb_sym.
  - destruct n, n0; simpl; try reflexivity; [|by destruct neg, neg0].
    destruct (Qeq_bool q q0) eqn:E1, (Qeq_bool q0 q) eqn:E2; try reflexivity;
      apply Qeq_bool_iff in E1 || apply Qeq_bool_iff in E2;
      [apply Qeq_sym, Qeq_bool_iff in E1 | apply Qeq_sym, Qeq_bool_iff in E2]; congruence.
  - apply Nat.eqb_sym.
Qed.

(** Strict equality is reflexive except on NaN. *)
Lemma strict_eq_refl a : a <> FNumber NaN -> strict_eq a a = true.
Proof.
  intros Hn. destruct a as [b|s|[|q|ng]|o t| |]; simpl; try reflexivity.
  - by destruct b.
  - apply String.eqb_refl.
  - congruence.
  - apply Qeq_bool_refl.
  - by destruct ng.
  - apply Nat.eqb_refl.
Qed.

Lemma strict_eq_NaN_l b : strict_eq (FNumber NaN) b = false.
Proof. by destruct b. Qed.

Lemma strict_eq_date_fresh o t b :
  (forall o' t', b = FDate o' t' -> o' <> o) -> strict_eq (FDate o t) b = false.
Proof.
  intros H. destruct b; try reflexivity. simpl.
  apply Nat.eqb_neq. intros ->. by eapply H.
Qed.

#[export] Hint Rewrite strict_eq_NaN_l : stform.

(** ** [parseInt] reads back a decimal numeral *)

Lemma nat_of_digit d : d < 10 -> Ascii.nat_of_ascii (Ascii.ascii_of_nat (48 + d)) = 48 + d.
Proof. intros. apply Ascii.nat_ascii_embedding. lia. Qed.

Lemma digit_val_digit d : d < 10 -> digit_val 10 (Ascii.ascii_of_nat (48 + d)) = Some d.
Proof. intros Hd. do 10 (destruct d as [|d]; [reflexivity|]). lia. Qed.

Lemma is_js_space_digit d : d < 10 -> is_js_space (Ascii.ascii_of_nat (48 + d)) = false.
Proof. intros Hd. do 10 (destruct d as [|d]; [reflexivity|]). lia. Qed.

Lemma digits_string_cons d ds :
  digits_string (d :: ds) = String (Ascii.ascii_of_nat (48 + d)) (digits_string ds).
Proof. reflexivity. Qed.

Lemma digits_prefix_digits ds :
  Forall (fun d => d < 10) ds -> digits_prefix 10 (digits_string ds) = ds.
Proof.
  induction 1 as [|d ds Hd _ IH]; [reflexivity|].
  rewrite digits_string_cons. cbn [digits_prefix]. rewrite digit_val_digit by done.
  by rewrite IH.
Qed.

(** Integers up to [2^53] are doubles. *)
Lemma number_value_small z : (Z.abs z <= 2 ^ 53)%Z -> number_value z = num_of_Z z.
Proof. intros Hz. unfold number_value. by rewrite (proj2 (Z.leb_le _ _) Hz). Qed.

(** [parseInt] of the decimal text of a non-empty list of digits is
    the double nearest the number they denote. *)
Lemma parseInt_digits ds :
  ds <> [] -> Forall (fun d => d < 10) ds -> js_parseInt (digits_string ds) = number_value (horner 10 ds).
Proof.
  intros Hne Hds. destruct ds as [|d ds']; [done|].
  pose proof (Forall_inv Hds) as Hd. pose proof (digits_prefix_digits _ Hds) as Hp.
  unfold js_parseInt. rewrite digits_string_cons in *. cbn [trim_start].
  rewrite is_js_space_digit by done. cbv iota.
  rewrite nat_of_digit by done.
  rewrite (proj2 (Nat.eqb_neq (48 + d) 45)), (proj2 (Nat.eqb_neq (48 + d) 43)) by lia.
  cbv iota beta.
  destruct ds' as [|d' ds''].
  - change (digits_string []) with EmptyString in *. cbv iota beta. rewrite Hp. cbv iota beta.
    by rewrite Z.mul_1_l.
  - rewrite digits_string_cons in *. cbv iota beta.
    assert (Hd' : d' < 10) by exact (Forall_inv (Forall_inv_tail Hds)). rewrite (nat_of_digit d') by done.
    rewrite (proj2 (Nat.eqb_neq (48 + d') 120)), (proj2 (Nat.eqb_neq (48 + d') 88)) by lia.
    rewrite andb_false_r. cbv iota beta. rewrite Hp. cbv iota beta. by rewrite Z.mul_1_l.
Qed.

Lemma horner_snoc radix ds d :
  horner radix (ds ++ [d]) = (horner radix ds * Z.of_nat radix + Z.of_nat d)%Z.
Proof. unfold horner. by rewrite fold_left_app. Qed.

(** The digits of [String(n)] denote [n]. *)
Lemma to_digits_fuel_spec fuel n :
  n <= fuel ->
  to_digits_fuel fuel n <> [] /\ Forall (fun d => d < 10) (to_digits_fuel fuel n) /\
  horner 10 (to_digits_fuel fuel n) = Z.of_nat n.
Proof.
  revert n. induction fuel as [|f IH]; intros n Hn.
  - assert (n = 0) as -> by lia. split_and!; [done|constructor; [lia|constructor]|done].
  - cbn [to_digits_fuel]. destruct (Nat.ltb_spec n 10) as [Hlt|Hge].
    + split_and!; [done|constructor; [lia|constructor]|done].
    + assert (Hq : n / 10 < n) by (apply Nat.div_lt; lia).
      destruct (IH (n / 10)) as (_ & Hf & Hh); [lia|].
      pose proof (Nat.mod_upper_bound n 10) as Hm. pose proof (Nat.div_mod_eq n 10) as Hd.
      split_and!.
      * by destruct (to_digits_fuel f (n / 10)).
      * apply Forall_app. split; [done|]. constructor; [lia|constructor].
      * rewrite horner_snoc, Hh. lia.
Qed.

Lemma to_digits_spec n :
  to_digits n <> [] /\ Forall (fun d => d < 10) (to_digits n) /\ horner 10 (to_digits n) = Z.of_nat n.
Proof. by apply to_digits_fuel_spec. Qed.

(** A numeral of [k] decimal digits denotes a number below [10^k]. *)
Lemma horner_bounds ds :
  Forall (fun d => d < 10) ds -> (0 <= horner 10 ds < 10 ^ Z.of_nat (length ds))%Z.
Proof.
  induction ds as [|d ds IH] using rev_ind; [done|].
  intros Hds. apply Forall_app in Hds as [Hds Hd]. apply Forall_inv in Hd.
  rewrite horner_snoc, length_app, Nat2Z.inj_add, Z.pow_add_r by lia.
  specialize (IH Hds). cbn. lia.
Qed.

Lemma truthy_num_of_Z z : truthy (num_of_Z z) = negb (z =? 0)%Z.
Proof.
  unfold truthy, truthy_num, num_of_Z. f_equal. destruct (Z.eqb_spec z 0) as [->|Hz]; [done|].
  destruct (Qeq_bool _ _) eqn:E; [|done]. apply Qeq_bool_eq in E. unfold Qeq in E. cbn in E. lia.
Qed.

(** The cut significand of an integer above [2^53] is positive. *)
Lemma number_value_mantissa_pos a :
  (2 ^ 53 < a)%Z -> (0 <= Z.log2 a - 52 /\ 0 < Z.shiftr a (Z.log2 a - 52))%Z.
Proof.
  intros Ha. assert (H53 : (53 <= Z.log2 a)%Z).
  { rewrite <- (Z.log2_pow2 53) by lia. apply Z.log2_le_mono. lia. }
  split; [lia|]. rewrite Z.shiftr_div_pow2 by lia. apply Z.div_str_pos. split; [lia|].
  transitivity (2 ^ Z.log2 a)%Z; [apply Z.pow_le_mono_r; lia|apply Z.log2_spec; lia].
Qed.

(** A positive integer is a truthy Number: its nearest double is
    neither [0] nor [NaN]. *)
Lemma number_value_truthy z : (0 < z)%Z -> truthy (number_value z) = true.
Proof.
  intros Hz. unfold number_value. destruct (Z.leb_spec (Z.abs z) (2 ^ 53)) as [_|Hb].
  { rewrite truthy_num_of_Z. by destruct (Z.eqb_spec z 0); [lia|]. }
  destruct (number_value_mantissa_pos (Z.abs z) Hb) as [He Hm]. cbv zeta.
  match goal with |- context [if (2 ^ 1024 <=? Z.shiftl ?m' ?e)%Z then _ else _] =>
    assert (Hv : (0 < Z.shiftl m' e)%Z) end.
  { rewrite Z.shiftl_mul_pow2 by lia. apply Z.mul_pos_pos; [|apply Z.pow_pos_nonneg; lia].
    repeat case_match; lia. }
  destruct (2 ^ 1024 <=? _)%Z; [done|]. rewrite truthy_num_of_Z, Z.sgn_pos by lia.
  apply negb_true_iff, Z.eqb_neq. lia.
Qed.

(** [parseInt("9007199254740993")] is [2^53]: [2^53 + 1] is halfway
    between two doubles and rounds to the even significand. *)
Lemma parseInt_rounds_to_even :
  js_parseInt "9007199254740993" = num_of_Z 9007199254740992.
Proof. vm_compute. reflexivity. Qed.

(** ** [split] undoes [join] *)

Lemma str_append_assoc (a b c : string) :
  String.append (String.append a b) c = String.append a (String.append b c).
Proof. induction a as [|x a IH]; [reflexivity|exact (f_equal (String x) IH)]. Qed.

Lemma str_append_nil (a : string) : String.append a EmptyString = a.
Proof. induction a as [|x a IH]; [reflexivity|exact (f_equal (String x) IH)]. Qed.

Lemma js_split_go_append sep x s cur :
  str_has sep x = false ->
  js_split_go sep (String.append x s) cur = js_split_go sep s (String.append cur x).
Proof.
  revert cur. induction x as [|a x IH]; intros cur Hx.
  - by rewrite str_append_nil.
  - cbn in Hx. apply orb_false_iff in Hx as [Ha Hx].
    change (String.append (String a x) s) with (String a (String.append x s)).
    cbn [js_split_go]. rewrite Ha, IH by done.
    by rewrite str_append_assoc.
Qed.

(** [xs.join(sep).split(sep)] is [xs] when no piece contains [sep]. *)
Lemma js_split_join sep xs :
  xs <> [] -> Forall (fun x => str_has sep x = false) xs ->
  js_split sep (String.concat (String sep EmptyString) xs) = xs.
Proof.
  unfold js_split. induction xs as [|x xs IH]; intros Hne Hxs; [done|].
  apply Forall_cons in Hxs as [Hx Hxs]. destruct xs as [|y xs].
  - cbn [String.concat]. rewrite <- (str_append_nil x) at 1. by rewrite js_split_go_append.
  - change (String.concat (String sep EmptyString) (x :: y :: xs)) with
      (String.append x (String sep (String.concat (String sep EmptyString) (y :: xs)))).
    rewrite js_split_go_append by done. cbn [js_split_go]. rewrite Ascii.eqb_refl.
    by rewrite IH.
Qed.
