(* ===== verification/Dom.v ===== *)
(** The part of the DOM the components read and write: elements with the
    properties the code accesses, expando properties the components
    install on elements ([element[VALIDATION] = this],
    [formRef[FROM] = this], [input[FORM_IGNORE] = true],
    [element[FORM_VALUE_FUNCTION]]), the tree order, the form owner of
    each form-associated element, [form.elements], [namedItem] and the
    [value] of a [RadioNodeList]. *)
From S2P Require Import Prelude JsValue.

(** Element kinds the code distinguishes ([instanceof HTMLInputElement],
    [HTMLTextAreaElement], [HTMLButtonElement], ['form']). *)
Inductive Tag :=
| TInput
| TTextArea
| TButton
| TSelect
| TForm
| TOther (localName : string).

#[export] Instance Tag_eq_dec : EqDecision Tag.
Proof. solve_decision. Defined.

(** What the [value] and [checked] content attributes of a control
    give it: its [defaultValue] and [defaultChecked], and the number and
    date that value denotes.  This is what [form.reset()] restores. *)
Record Control := mkControl {
  c_value : string;
  c_checked : bool;
  c_valueAsNumber : JSNum;
  c_valueAsDate : option Z;
}.

(** The properties of an element the code reads or writes.  [el_type] is
    [input.type] ("text", "number", "date", "checkbox", "radio", ...);
    [el_validity] is the custom validity message last set with
    [setCustomValidity]; [el_form] is the form owner; [el_parent] the
    parent node; [el_default] the control's defaults. *)
Record Element := mkElement {
  el_tag : Tag;
  el_type : string;
  el_name : string;
  el_value : string;
  el_checked : bool;
  el_disabled : bool;
  el_readOnly : bool;
  el_valueAsNumber : JSNum;
  el_valueAsDate : option Z;
  el_validity : string;
  el_form : option nat;
  el_parent : option nat;
  el_default : Control;
}.

(** Values of expando properties: a reference to a [Validation] or
    [Form] component (by component id), a boolean, or a function
    returning a value ([FORM_VALUE_FUNCTION]). *)
Inductive Expando :=
| XValidation (comp : nat)
| XForm (comp : nat)
| XBool (b : bool)
| XValueFn (result : FieldValue).

(** A component or a function is an object, hence truthy. *)
#[export] Instance truthy_expando : Truthy Expando := fun x =>
  match x with
  | XBool b => b
  | _ => true
  end.

Record Dom := mkDom {
  dom_els : gmap nat Element;
  dom_order : list nat;
  dom_props : gmap (nat * string) Expando;
}.

Section DomOps.
Implicit Types (d : Dom) (i f : nat).

Definition get_el d i : option Element := dom_els d !! i.

Definition update_el d i (g : Element -> Element) : Dom :=
  mkDom (alter g i (dom_els d)) (dom_order d) (dom_props d).

(** [el.setCustomValidity(msg)]. *)
Definition setCustomValidity d i (msg : string) : Dom :=
  update_el d i (fun e => mkElement (el_tag e) (el_type e) (el_name e)
    (el_value e) (el_checked e) (el_disabled e) (el_readOnly e)
    (el_valueAsNumber e) (el_valueAsDate e) msg (el_form e) (el_parent e) (el_default e)).

(** [el.setAttribute('readOnly', '')] and [el.setAttribute('disabled',
    '')]: the attributes reflect into the [readOnly] and [disabled]
    properties. *)
Definition setReadOnly d i : Dom :=
  update_el d i (fun e => mkElement (el_tag e) (el_type e) (el_name e)
    (el_value e) (el_checked e) (el_disabled e) true
    (el_valueAsNumber e) (el_valueAsDate e) (el_validity e) (el_form e) (el_parent e) (el_default e)).

Definition setDisabled d i : Dom :=
  update_el d i (fun e => mkElement (el_tag e) (el_type e) (el_name e)
    (el_value e) (el_checked e) true (el_readOnly e)
    (el_valueAsNumber e) (el_valueAsDate e) (el_validity e) (el_form e) (el_parent e) (el_default e)).

(** [(el as any)[key] = x]. *)
Definition set_prop d i (key : string) (x : Expando) : Dom :=
  mkDom (dom_els d) (dom_order d) (<[(i, key) := x]> (dom_props d)).

Definition get_prop d i (key : string) : option Expando :=
  dom_props d !! (i, key).

(** Listed form-associated elements: those that have a [.form]
    property and appear in [form.elements]. *)
Definition form_associated (t : Tag) : bool :=
  match t with
  | TInput | TTextArea | TButton | TSelect => true
  | _ => false
  end.

(** [(el as HTMLInputElement).form]: undefined on an element that is
    not form-associated. *)
Definition form_of d i : option nat :=
  match get_el d i with
  | Some e => if form_associated (el_tag e) then el_form e else None
  | None => None
  end.

(** [form.elements]: the listed elements whose form owner is [f], in
    tree order. *)
Definition form_elements d f : list nat :=
  List.filter (fun i => match form_of d i with
                        | Some g => Nat.eqb g f
                        | None => false
                        end) (dom_order d).

(** The result of [form.elements.namedItem(name)]. *)
Inductive NamedItem :=
| NINull
| NIElement (i : nat)
| NIRadioList (ids : list nat).

Definition has_name d (name : string) i : bool :=
  match get_el d i with
  | Some e => String.eqb (el_name e) name
  | None => false
  end.

Definition namedItem d f (name : string) : NamedItem :=
  match List.filter (has_name d name) (form_elements d f) with
  | [] => NINull
  | [i] => NIElement i
  | ids => NIRadioList ids
  end.

Definition is_checked_radio d i : bool :=
  match get_el d i with
  | Some e => bool_decide (el_tag e = TInput) && String.eqb (el_type e) "radio"
              && el_checked e
  | None => false
  end.

(** [RadioNodeList.value]: the value of the first checked radio button
    of the list, or the empty string. *)
Definition radio_list_value d (ids : list nat) : string :=
  match List.find (is_checked_radio d) ids with
  | Some i => match get_el d i with Some e => el_value e | None => "" end
  | None => ""
  end.

(** The ancestors of [i], nearest first, following [parentNode]; the
    fuel is the number of nodes of the document, which bounds the depth
    of an acyclic tree. *)
Fixpoint ancestors_fuel d (fuel : nat) i : list nat :=
  match fuel with
  | 0 => []
  | S fuel' =>
      match get_el d i with
      | Some e => match el_parent e with
                  | Some p => p :: ancestors_fuel d fuel' p
                  | None => []
                  end
      | None => []
      end
  end.

Definition ancestors d i : list nat := ancestors_fuel d (length (dom_order d)) i.

Definition is_descendant d (root : nat) i : bool :=
  bool_decide (root ∈ ancestors d i).

Definition has_tag d (t : Tag) i : bool :=
  match get_el d i with
  | Some e => bool_decide (el_tag e = t)
  | None => false
  end.

(** [root.querySelector(tag)] and [root.querySelectorAll(tag)]: the
    descendants of [root] with that tag, in tree order. *)
Definition querySelector d root (t : Tag) : option nat :=
  List.find (fun i => is_descendant d root i && has_tag d t i) (dom_order d).

Definition querySelectorAll d root (t : Tag) : list nat :=
  List.filter (fun i => is_descendant d root i && has_tag d t i) (dom_order d).

(** The depth of a node, and the check that the parent links form a
    tree: every ancestor of a node of the document is shallower. *)
Definition depth d i : nat := length (ancestors d i).

Definition tree_ok d : bool :=
  forallb (fun j => forallb (fun i => Nat.ltb (depth d i) (depth d j)) (ancestors d j))
    (dom_order d).
(** The reset algorithm of one listed element (HTML, 4.10.22): an
    input, a textarea or a select gets back its default value and
    checkedness; a button has nothing to reset.  The custom validity
    message is not part of it. *)
Definition resettable (t : Tag) : bool :=
  match t with
  | TInput | TTextArea | TSelect => true
  | _ => false
  end.

Definition reset_el (e : Element) : Element :=
  if resettable (el_tag e) then
    mkElement (el_tag e) (el_type e) (el_name e) (c_value (el_default e)) (c_checked (el_default e))
      (el_disabled e) (el_readOnly e) (c_valueAsNumber (el_default e)) (c_valueAsDate (el_default e))
      (el_validity e) (el_form e) (el_parent e) (el_default e)
  else e.

(** [form.reset()]: the [reset] event (no listener of the code cancels
    it), then the reset algorithm of each element of [form.elements].
    No [input] or [change] event is fired. *)
Definition reset_all d (l : list nat) : Dom := fold_left (fun d' i => update_el d' i reset_el) l d.

Definition form_reset d f : Dom := reset_all d (form_elements d f).
(** What identifies an element for the queries of the code: its kind,
    type, name, form owner and parent.  Two documents have the same
    shape when they have the same nodes in the same order, the same
    expando properties and elements of the same shape; they may differ
    in what the controls hold. *)
Definition shape (e : Element) : Tag * string * string * option nat * option nat :=
  (el_tag e, el_type e, el_name e, el_form e, el_parent e).

Record same_shape (d d' : Dom) : Prop := {
  ss_order : dom_order d' = dom_order d;
  ss_props : dom_props d' = dom_props d;
  ss_shape : forall i, shape <$> get_el d' i = shape <$> get_el d i;
}.
End DomOps.

Lemma get_el_setCustomValidity d i j msg :
  get_el (setCustomValidity d i msg) j =
  (fun e => if decide (i = j) then mkElement (el_tag e) (el_type e) (el_name e)
      (el_value e) (el_checked e) (el_disabled e) (el_readOnly e)
      (el_valueAsNumber e) (el_valueAsDate e) msg (el_form e) (el_parent e) (el_default e)
     else e) <$> get_el d j.
Proof.
  unfold get_el, setCustomValidity, update_el; simpl.
  destruct (decide (i = j)) as [->|Hne].
  - rewrite lookup_alter_eq. destruct (dom_els d !! j); simpl; [|done]. repeat case_decide; done.
  - rewrite lookup_alter_ne by done. destruct (dom_els d !! j); simpl; [|done]. repeat case_decide; done.
Qed.

Lemma form_of_setCustomValidity d i msg j :
  form_of (setCustomValidity d i msg) j = form_of d j.
Proof.
  unfold form_of. rewrite get_el_setCustomValidity.
  destruct (get_el d j); simpl; [|done]. repeat case_decide; done.
Qed.

Lemma form_elements_setCustomValidity d i msg f :
  form_elements (setCustomValidity d i msg) f = form_elements d f.
Proof.
  unfold form_elements. apply List.filter_ext. intros j.
  by rewrite form_of_setCustomValidity.
Qed.

#[export] Hint Rewrite get_el_setCustomValidity form_of_setCustomValidity
  form_elements_setCustomValidity : stform.

Lemma get_el_update_el d i g j :
  get_el (update_el d i g) j = if decide (i = j) then g <$> get_el d j else get_el d j.
Proof.
  unfold get_el, update_el; simpl. case_decide as Hij.
  - subst. apply lookup_alter_eq.
  - by apply lookup_alter_ne.
Qed.

(** An update that keeps the kind and the form owner of the element
    changes neither [.form] nor any [form.elements]. *)
Lemma form_of_update_el d i g j :
  (forall e, el_tag (g e) = el_tag e /\ el_form (g e) = el_form e) ->
  form_of (update_el d i g) j = form_of d j.
Proof.
  intros Hg. unfold form_of. rewrite get_el_update_el.
  case_decide; [|done]. destruct (get_el d j) as [e|]; [|done]. simpl.
  by destruct (Hg e) as [-> ->].
Qed.

Lemma form_elements_update_el d i g f :
  (forall e, el_tag (g e) = el_tag e /\ el_form (g e) = el_form e) ->
  form_elements (update_el d i g) f = form_elements d f.
Proof.
  intros Hg. unfold form_elements. apply List.filter_ext. intros j.
  by rewrite form_of_update_el.
Qed.

Lemma ancestors_fuel_length d fuel i : length (ancestors_fuel d fuel i) <= fuel.
Proof.
  revert i. induction fuel as [|fuel IH]; intros i; simpl; [lia|].
  destruct (get_el d i) as [e|]; [|simpl; lia].
  destruct (el_parent e); simpl; [specialize (IH n); lia|lia].
Qed.

Lemma depth_le d i : depth d i <= length (dom_order d).
Proof. apply ancestors_fuel_length. Qed.

(** In a tree, a descendant listed in the document is deeper. *)
Lemma tree_ok_descendant d r j :
  tree_ok d = true -> j ∈ dom_order d -> is_descendant d r j = true -> depth d r < depth d j.
Proof.
  intros Ht Hj Hd. unfold tree_ok in Ht. rewrite forallb_forall in Ht.
  apply list_elem_of_In in Hj. specialize (Ht j Hj). rewrite forallb_forall in Ht.
  unfold is_descendant in Hd. apply bool_decide_eq_true, list_elem_of_In in Hd.
  by apply Nat.ltb_lt, Ht.
Qed.

Lemma querySelectorAll_spec d r t i :
  i ∈ querySelectorAll d r t <-> i ∈ dom_order d /\ is_descendant d r i = true /\ has_tag d t i = true.
Proof.
  unfold querySelectorAll. rewrite !list_elem_of_In, filter_In, andb_true_iff. tauto.
Qed.

(** Setting an attribute or an expando property changes neither the
    other properties nor [form.elements]. *)
Lemma get_prop_update_el d i g j k : get_prop (update_el d i g) j k = get_prop d j k.
Proof. reflexivity. Qed.

Lemma get_prop_setReadOnly d i j k : get_prop (setReadOnly d i) j k = get_prop d j k.
Proof. reflexivity. Qed.

Lemma get_prop_setDisabled d i j k : get_prop (setDisabled d i) j k = get_prop d j k.
Proof. reflexivity. Qed.

Lemma get_prop_set_prop d i k x j k' :
  get_prop (set_prop d i k x) j k' = if decide ((i, k) = (j, k')) then Some x else get_prop d j k'.
Proof.
  unfold get_prop, set_prop. simpl. case_decide as E.
  - rewrite E. apply lookup_insert_eq.
  - by apply lookup_insert_ne.
Qed.

Lemma get_el_set_prop d i k x j : get_el (set_prop d i k x) j = get_el d j.
Proof. reflexivity. Qed.

Lemma form_elements_set_prop d i k x f : form_elements (set_prop d i k x) f = form_elements d f.
Proof. reflexivity. Qed.

Lemma form_elements_setReadOnly d i f : form_elements (setReadOnly d i) f = form_elements d f.
Proof. by apply form_elements_update_el. Qed.

Lemma form_elements_setDisabled d i f : form_elements (setDisabled d i) f = form_elements d f.
Proof. by apply form_elements_update_el. Qed.

Lemma disabled_setReadOnly d i j : el_disabled <$> get_el (setReadOnly d i) j = el_disabled <$> get_el d j.
Proof.
  unfold setReadOnly. rewrite get_el_update_el. case_decide; [|done].
  by destruct (get_el d j).
Qed.

#[export] Hint Rewrite get_prop_setReadOnly get_prop_setDisabled get_el_set_prop
  form_elements_set_prop form_elements_setReadOnly form_elements_setDisabled
  disabled_setReadOnly : stform.

(** ** [form.reset()] *)

Lemma reset_el_idem e : reset_el (reset_el e) = reset_el e.
Proof. unfold reset_el. destruct (resettable (el_tag e)) eqn:E; cbn; rewrite ?E; done. Qed.

(** The reset algorithm keeps what identifies an element: its kind,
    type, name, form owner, parent, flags, custom validity and defaults. *)
Lemma reset_el_keeps e :
  el_tag (reset_el e) = el_tag e /\ el_type (reset_el e) = el_type e /\ el_name (reset_el e) = el_name e /\
  el_form (reset_el e) = el_form e /\ el_parent (reset_el e) = el_parent e /\
  el_disabled (reset_el e) = el_disabled e /\ el_readOnly (reset_el e) = el_readOnly e /\
  el_validity (reset_el e) = el_validity e /\ el_default (reset_el e) = el_default e.
Proof. unfold reset_el. by destruct (resettable (el_tag e)). Qed.

Section Reset.
Implicit Types (d : Dom) (l : list nat).

Lemma get_el_reset_all d l j :
  get_el (reset_all d l) j = if decide (j ∈ l) then reset_el <$> get_el d j else get_el d j.
Proof.
  revert d. induction l as [|i l IH]; intros d; cbn [reset_all fold_left].
  - by rewrite decide_False by set_solver.
  - fold (reset_all (update_el d i reset_el) l). rewrite IH, get_el_update_el.
    destruct (decide (i = j)) as [->|Hij].
    + repeat case_decide; try (exfalso; set_solver);
        destruct (get_el d j); cbn; rewrite ?reset_el_idem; done.
    + destruct (decide (j ∈ l)); [rewrite decide_True by set_solver|rewrite decide_False by set_solver]; done.
Qed.

Lemma reset_all_order_props d l :
  dom_order (reset_all d l) = dom_order d /\ dom_props (reset_all d l) = dom_props d.
Proof. revert d. induction l as [|i l IH]; intros d; [done|]. apply (IH (update_el d i reset_el)). Qed.

Lemma form_elements_reset_all d l g : form_elements (reset_all d l) g = form_elements d g.
Proof.
  revert d. induction l as [|i l IH]; intros d; [done|]. cbn [reset_all fold_left].
  fold (reset_all (update_el d i reset_el) l). rewrite IH. apply form_elements_update_el.
  intros e. pose proof (reset_el_keeps e) as (Ht & _ & _ & Hf & _). by split.
Qed.
End Reset.

Lemma form_reset_unfold d f : form_reset d f = reset_all d (form_elements d f).
Proof. reflexivity. Qed.

Lemma get_prop_form_reset d f j k : get_prop (form_reset d f) j k = get_prop d j k.
Proof. unfold get_prop. by rewrite form_reset_unfold, (proj2 (reset_all_order_props _ _)). Qed.

(** ** Queries on documents of the same shape *)

Section Shape.
Context (d d' : Dom) (Hs : same_shape d d').

Lemma shape_cases i :
  (get_el d' i = None /\ get_el d i = None) \/
  exists e' e, get_el d' i = Some e' /\ get_el d i = Some e /\
    el_tag e' = el_tag e /\ el_type e' = el_type e /\ el_name e' = el_name e /\
    el_form e' = el_form e /\ el_parent e' = el_parent e.
Proof.
  pose proof (ss_shape _ _ Hs i) as H.
  destruct (get_el d' i) as [e'|], (get_el d i) as [e|]; cbn in H; try congruence; [|by left].
  right. exists e', e. injection H as Ht Hty Hn Hf Hp. by split_and!.
Qed.

Ltac shape_case i :=
  destruct (shape_cases i) as [[-> ->]|(e' & e & -> & -> & Ht & Hty & Hn & Hf & Hp)];
    cbn; [done|]; rewrite ?Ht, ?Hty, ?Hn, ?Hf, ?Hp.

Lemma form_of_shape i : form_of d' i = form_of d i.
Proof. unfold form_of. shape_case i. done. Qed.

Lemma form_elements_shape f : form_elements d' f = form_elements d f.
Proof.
  unfold form_elements. rewrite (ss_order _ _ Hs). apply List.filter_ext. intros j.
  by rewrite form_of_shape.
Qed.

Lemma has_name_shape k i : has_name d' k i = has_name d k i.
Proof. unfold has_name. shape_case i. done. Qed.

Lemma namedItem_shape f k : namedItem d' f k = namedItem d f k.
Proof.
  unfold namedItem. rewrite form_elements_shape.
  by rewrite (List.filter_ext _ _ (has_name_shape k)).
Qed.

Lemma ancestors_fuel_shape n i : ancestors_fuel d' n i = ancestors_fuel d n i.
Proof.
  revert i. induction n as [|n IH]; intros i; [done|]. cbn [ancestors_fuel].
  shape_case i. destruct (el_parent e); [by rewrite IH|done].
Qed.

Lemma querySelectorAll_shape r t : querySelectorAll d' r t = querySelectorAll d r t.
Proof.
  unfold querySelectorAll, is_descendant, ancestors, has_tag. rewrite (ss_order _ _ Hs).
  apply List.filter_ext. intros j. rewrite ancestors_fuel_shape. f_equal.
  shape_case j. done.
Qed.

Lemma get_prop_shape i k : get_prop d' i k = get_prop d i k.
Proof. unfold get_prop. by rewrite (ss_props _ _ Hs). Qed.
End Shape.

Lemma form_reset_shape d f : same_shape d (form_reset d f).
Proof.
  rewrite form_reset_unfold. destruct (reset_all_order_props d (form_elements d f)) as [Ho Hp].
  constructor; [done|done|]. intros i. rewrite get_el_reset_all.
  case_decide; [|done]. destruct (get_el d i) as [e|]; [|done]. cbn. f_equal.
  unfold shape. by destruct (reset_el_keeps e) as (-> & -> & -> & -> & -> & _).
Qed.

(** An element of [form.elements] has that form as its owner. *)
Lemma form_elements_owner d i r : i ∈ form_elements d r -> form_of d i = Some r.
Proof.
  unfold form_elements. intros Hi%list_elem_of_In. apply List.filter_In in Hi as [_ H].
  destruct (form_of d i); [by apply Nat.eqb_eq in H as ->|discriminate].
Qed.
