(* ===== verification/Config.v ===== *)
(** The process-wide configuration: the [I$FormConfig] object that
    [st-form.ts] exports as [stForm] (interface/i-$-form-config.ts) and
    the [FormConfig] object [config.ts] returns from [getFormConfig()];
    the environment readers, the global object holding both under
    ["$stForm"], the evaluation of the two modules in either order, and
    the theorems on them. *)
From S2P Require Import Prelude JsValue.

(** [I$FormConfig] (interface/i-$-form-config.ts, lines 1-13), without
    the [globalThis] back-reference, which no component reads. *)
Record I_FormConfig := mkFormConfig {
  validationDebounceTimeInMs : JSNum;
  validationEventListener : list string;
  validationPropertyName : string;
  validatorName : string;
  logDebugMessages : bool;
}.

(** The values [st-form.ts] installs when no environment variable is
    set (st-form.ts, lines 44-60). *)
Definition default_stForm : I_FormConfig := {|
  validationDebounceTimeInMs := num_of_Z 250;
  validationEventListener := ["change"; "keyup"];
  validationPropertyName := "VALIDATION";
  validatorName := "VALIDATOR_NAME";
  logDebugMessages := false;
|}.

(** [FormConfig] of config.ts (lines 10-15): the object [config.ts]
    stores under the same global key and [getFormConfig()] returns; it
    has no [validatorName]. *)
Record FormConfig := mkFormConfigTs {
  fc_validationDebounceTimeInMs : JSNum;
  fc_validationEventListener : list string;
  fc_validationPropertyName : string;
  fc_logDebugMessages : bool;
}.

(** [defaultFormConfig()] with no environment variable set
    (config.ts, lines 34-41). *)
Definition defaultFormConfig : FormConfig := {|
  fc_validationDebounceTimeInMs := num_of_Z 250;
  fc_validationEventListener := ["change"; "keyup"];
  fc_validationPropertyName := "VALIDATION";
  fc_logDebugMessages := false;
|}.

(** ** The environment *)

(** [process.env] as its list of variables. *)
Definition Env := list (string * string).

Definition env_get (env : Env) (k : string) : option string := assoc k env.

Definition DEFAULT_ST_FORM_LOG_DEBUG_MESSAGE_KEY : string := "ST_FORM_LOG_DEBUG_MESSAGE".
Definition DEFAULT_ST_FORM_VALIDATION_PROPERTY_NAME_KEY : string := "ST_FORM_VALIDATION_PROPERTY_NAME".
Definition DEFAULT_ST_FORM_VALIDATION_DEBOUNCE_TIME_IN_MS_KEY : string := "ST_FORM_VALIDATION_DEBOUNCE_TIME_IN_MS".
Definition DEFAULT_ST_FORM_VALIDATION_EVENT_LISTENER_KEY : string := "ST_FORM_VALIDATION_EVENT_LISTENER".

(** [getValidationEventListenerFromEnv()] (st-form.ts, lines 9-14;
    config.ts, lines 17-22): [undefined] unless the variable is a
    non-empty string, which is split at ['|']. *)
Definition getValidationEventListenerFromEnv (env : Env) : option (list string) :=
  match env_get env DEFAULT_ST_FORM_VALIDATION_EVENT_LISTENER_KEY with
  | Some e => if truthy e then Some (js_split (Ascii.ascii_of_nat 124) e) else None
  | None => None
  end.

(** [getLogDebugFromEnv()] (st-form.ts, lines 16-18). *)
Definition getLogDebugFromEnv (env : Env) : bool :=
  match env_get env DEFAULT_ST_FORM_LOG_DEBUG_MESSAGE_KEY with
  | Some s => String.eqb s "true"
  | None => false
  end.

(** [getValidationDebounceTimeInMsFromEnv()] (st-form.ts, lines 20-25). *)
Definition getValidationDebounceTimeInMsFromEnv (env : Env) : option JSNum :=
  match env_get env DEFAULT_ST_FORM_VALIDATION_DEBOUNCE_TIME_IN_MS_KEY with
  | Some e => if truthy e then Some (js_parseInt e) else None
  | None => None
  end.

(** [process.env[DEFAULT_ST_FORM_VALIDATION_PROPERTY_NAME_KEY] || 'VALIDATION']. *)
Definition propertyNameFromEnv (env : Env) : string :=
  match env_get env DEFAULT_ST_FORM_VALIDATION_PROPERTY_NAME_KEY with
  | Some s => s ||j "VALIDATION"
  | None => "VALIDATION"
  end.

(** [getValidationDebounceTimeInMsFromEnv() || 250]. *)
Definition debounceFromEnv (env : Env) : JSNum :=
  default (num_of_Z 250) (getValidationDebounceTimeInMsFromEnv env ||j Some (num_of_Z 250)).

(** config.ts keeps its own copies of the three readers (lines 17-33),
    the code of st-form.ts's under the same names but the last, spelt
    [getValidationDebunceTimeInMsFromEnv]. *)
Module ConfigTs.
(** config.ts, lines 3-8: the key of the global object and its own
    copies of the four environment keys. *)
Definition WINDOW_GLOBAL_FORM_CONFIG_KEY : string := "$stForm".
Definition DEFAULT_ST_FORM_LOG_DEBUG_MESSAGE_KEY : string := "ST_FORM_LOG_DEBUG_MESSAGE".
Definition DEFAULT_ST_FORM_VALIDATION_PROPERTY_NAME_KEY : string := "ST_FORM_VALIDATION_PROPERTY_NAME".
Definition DEFAULT_ST_FORM_VALIDATION_DEBOUNCE_TIME_IN_MS_KEY : string := "ST_FORM_VALIDATION_DEBOUNCE_TIME_IN_MS".
Definition DEFAULT_ST_FORM_VALIDATION_EVENT_LISTENER_KEY : string := "ST_FORM_VALIDATION_EVENT_LISTENER".

Definition getValidationEventListenerFromEnv (env : Env) : option (list string) :=
  match env_get env DEFAULT_ST_FORM_VALIDATION_EVENT_LISTENER_KEY with
  | Some e => if truthy e then Some (js_split (Ascii.ascii_of_nat 124) e) else None
  | None => None
  end.

Definition getLogDebugFromEnv (env : Env) : bool :=
  match env_get env DEFAULT_ST_FORM_LOG_DEBUG_MESSAGE_KEY with
  | Some s => String.eqb s "true"
  | None => false
  end.

Definition getValidationDebunceTimeInMsFromEnv (env : Env) : option JSNum :=
  match env_get env DEFAULT_ST_FORM_VALIDATION_DEBOUNCE_TIME_IN_MS_KEY with
  | Some e => if truthy e then Some (js_parseInt e) else None
  | None => None
  end.
End ConfigTs.

(** ** The global configuration objects *)

(** [FORM_KEY] (st-form.ts, line 27): the key under which both modules
    store their object; it is config.ts's [WINDOW_GLOBAL_FORM_CONFIG_KEY],
    so [Globals] has one address for it. *)
Definition FORM_KEY : string := "$stForm".

(** A configuration object as the code builds it: each field may still
    be [undefined]; [o_globalThis] says whether the back-reference to
    the global object has been set. *)
Record CfgObj := mkCfgObj {
  o_globalThis : bool;
  o_logDebugMessages : option bool;
  o_validatorName : option string;
  o_validationPropertyName : option string;
  o_validationDebounceTimeInMs : option JSNum;
  o_validationEventListener : option (list string);
}.

Definition empty_obj : CfgObj := mkCfgObj false None None None None None.

(** The objects reachable from the global object: [g_key] is the
    object stored under ["$stForm"], [g_stForm] the object the constant
    [stForm] of st-form.ts was bound to once that module has run. *)
Record Globals := mkGlobals {
  g_heap : gmap nat CfgObj;
  g_key : option nat;
  g_fresh : nat;
  g_stForm : option nat;
}.

Definition empty_globals : Globals := mkGlobals ∅ None 0 None.

(** The field assignments of st-form.ts, lines 44-61: each field that
    is falsy gets its value from the environment or its default. *)
Definition st_form_fill (env : Env) (o : CfgObj) : CfgObj :=
  mkCfgObj true
    (if truthy (o_logDebugMessages o) then o_logDebugMessages o
     else Some (getLogDebugFromEnv env ||j false))
    (if truthy (o_validatorName o) then o_validatorName o else Some "VALIDATOR_NAME")
    (if truthy (o_validationPropertyName o) then o_validationPropertyName o
     else Some (propertyNameFromEnv env))
    (if truthy (o_validationDebounceTimeInMs o) then o_validationDebounceTimeInMs o
     else Some (debounceFromEnv env))
    (if truthy (o_validationEventListener o) then o_validationEventListener o
     else getValidationEventListenerFromEnv env ||j Some ["change"; "keyup"]).

(** Running st-form.ts (lines 27-61): the object under ["$stForm"] is
    created if there is none, [stForm] is bound to it, and its falsy
    fields are filled in. *)
Definition st_form_module (env : Env) (gl : Globals) : Globals :=
  let gl1 := match g_key gl with
             | Some _ => gl
             | None => mkGlobals (<[g_fresh gl := empty_obj]> (g_heap gl)) (Some (g_fresh gl))
                         (S (g_fresh gl)) (g_stForm gl)
             end in
  match g_key gl1 with
  | Some o => mkGlobals (<[o := st_form_fill env (default empty_obj (g_heap gl1 !! o))]> (g_heap gl1))
                (g_key gl1) (g_fresh gl1) (Some o)
  | None => gl1
  end.

(** [defaultFormConfig()] (config.ts, lines 34-41): a new object, without
    [validatorName] and [globalThis]. *)
Definition defaultFormConfig_obj (env : Env) : CfgObj :=
  mkCfgObj false (Some (ConfigTs.getLogDebugFromEnv env ||j false)) None
    (Some (propertyNameFromEnv env))
    (Some (default (num_of_Z 250) (ConfigTs.getValidationDebunceTimeInMsFromEnv env ||j Some (num_of_Z 250))))
    (ConfigTs.getValidationEventListenerFromEnv env ||j Some ["change"; "keyup"]).

(** Running config.ts (line 43): ["$stForm"] is replaced by a new object. *)
Definition config_module (env : Env) (gl : Globals) : Globals :=
  mkGlobals (<[g_fresh gl := defaultFormConfig_obj env]> (g_heap gl)) (Some (g_fresh gl))
    (S (g_fresh gl)) (g_stForm gl).

(** [getFormConfig()] (config.ts, lines 45-47) and the object [stForm]. *)
Definition getFormConfig (gl : Globals) : option CfgObj := g_key gl ≫= fun o => g_heap gl !! o.
Definition stForm (gl : Globals) : option CfgObj := g_stForm gl ≫= fun o => g_heap gl !! o.

(** How the components read the objects: [Validation] as an
    [I$FormConfig], [Form] as a [FormConfig]. *)
Definition to_I_FormConfig (o : CfgObj) : I_FormConfig :=
  mkFormConfig (default NaN (o_validationDebounceTimeInMs o)) (default [] (o_validationEventListener o))
    (default "" (o_validationPropertyName o)) (default "" (o_validatorName o))
    (default false (o_logDebugMessages o)).

Definition to_FormConfig (o : CfgObj) : FormConfig :=
  mkFormConfigTs (default NaN (o_validationDebounceTimeInMs o)) (default [] (o_validationEventListener o))
    (default "" (o_validationPropertyName o)) (default false (o_logDebugMessages o)).

(** The objects are reachable from the global object and the next
    fresh address is beyond all of them. *)
Record globals_wf (gl : Globals) : Prop := {
  wf_key : forall l, g_key gl = Some l -> l < g_fresh gl;
  wf_stForm : forall l, g_stForm gl = Some l -> l < g_fresh gl;
  wf_fresh : forall l, g_fresh gl <= l -> g_heap gl !! l = None;
}.

(** Every field of [I$FormConfig] is defined (the type the constant
    [stForm] is declared with). *)
Definition cfg_complete (o : CfgObj) : bool :=
  o_globalThis o && bool_decide (is_Some (o_logDebugMessages o)) &&
  bool_decide (is_Some (o_validatorName o)) && bool_decide (is_Some (o_validationPropertyName o)) &&
  bool_decide (is_Some (o_validationDebounceTimeInMs o)) &&
  bool_decide (is_Some (o_validationEventListener o)).

(** A page that sets [globalThis.$stForm] to its own object [o] before
    the library is loaded. *)
Definition preset_globals (o : CfgObj) : Globals := mkGlobals {[0 := o]} (Some 0) 1 None.

(** The two orders in which the modules can be evaluated.  Loading
    form.tsx evaluates its import of [..] (the [Validation] component,
    which imports st-form.ts) before its import of config.ts (form.tsx,
    lines 7-8). *)
Definition import_st_form_then_config (env : Env) (gl : Globals) : Globals :=
  config_module env (st_form_module env gl).

Definition import_config_then_st_form (env : Env) (gl : Globals) : Globals :=
  st_form_module env (config_module env gl).

(** ** What the configuration promises

    The configuration the environment determines, field by field, as the
    spec describes it: each variable overrides its default. *)
Definition stForm_of_env (env : Env) : I_FormConfig :=
  mkFormConfig (debounceFromEnv env) (default ["change"; "keyup"] (getValidationEventListenerFromEnv env))
    (propertyNameFromEnv env) "VALIDATOR_NAME" (getLogDebugFromEnv env).

Definition formConfig_of_env (env : Env) : FormConfig :=
  mkFormConfigTs (debounceFromEnv env) (default ["change"; "keyup"] (getValidationEventListenerFromEnv env))
    (propertyNameFromEnv env) (getLogDebugFromEnv env).

(** The object st-form.ts builds from nothing. *)
Definition stForm_obj (env : Env) : CfgObj :=
  st_form_fill env empty_obj.

(** The objects reachable through the constant [stForm] and through
    [getFormConfig()] both give the configuration of the environment. *)
Definition config_implements (env : Env) (gl : Globals) : Prop :=
  to_I_FormConfig <$> stForm gl = Some (stForm_of_env env) /\
  to_FormConfig <$> getFormConfig gl = Some (formConfig_of_env env).

(** ** Lemmas *)

(** The two modules use one key of the global object, and the same
    environment keys. *)
Lemma same_keys :
  ConfigTs.WINDOW_GLOBAL_FORM_CONFIG_KEY = FORM_KEY /\
  ConfigTs.DEFAULT_ST_FORM_LOG_DEBUG_MESSAGE_KEY = DEFAULT_ST_FORM_LOG_DEBUG_MESSAGE_KEY /\
  ConfigTs.DEFAULT_ST_FORM_VALIDATION_PROPERTY_NAME_KEY = DEFAULT_ST_FORM_VALIDATION_PROPERTY_NAME_KEY /\
  ConfigTs.DEFAULT_ST_FORM_VALIDATION_DEBOUNCE_TIME_IN_MS_KEY = DEFAULT_ST_FORM_VALIDATION_DEBOUNCE_TIME_IN_MS_KEY /\
  ConfigTs.DEFAULT_ST_FORM_VALIDATION_EVENT_LISTENER_KEY = DEFAULT_ST_FORM_VALIDATION_EVENT_LISTENER_KEY.
Proof. done. Qed.

(** config.ts's readers are st-form.ts's. *)
Lemma configTs_readers env :
  ConfigTs.getValidationEventListenerFromEnv env = getValidationEventListenerFromEnv env /\
  ConfigTs.getLogDebugFromEnv env = getLogDebugFromEnv env /\
  default (num_of_Z 250) (ConfigTs.getValidationDebunceTimeInMsFromEnv env ||j Some (num_of_Z 250)) =
    debounceFromEnv env.
Proof. done. Qed.

Lemma debounceFromEnv_truthy env : truthy (debounceFromEnv env) = true.
Proof.
  unfold debounceFromEnv, js_or. destruct (getValidationDebounceTimeInMsFromEnv env) as [x|]; [|done].
  cbn. destruct (truthy x) eqn:E; [done|reflexivity].
Qed.

Lemma propertyNameFromEnv_truthy env : truthy (propertyNameFromEnv env) = true.
Proof.
  unfold propertyNameFromEnv, js_or. destruct (env_get _ _) as [s|]; [|done].
  destruct (truthy s) eqn:E; [done|reflexivity].
Qed.

(** What st-form.ts leaves in any object: every field defined. *)
Lemma st_form_fill_complete env o : cfg_complete (st_form_fill env o) = true.
Proof.
  unfold cfg_complete, st_form_fill; cbn [o_globalThis o_logDebugMessages o_validatorName
    o_validationPropertyName o_validationDebounceTimeInMs o_validationEventListener].
  repeat (apply andb_true_intro; split); try done; apply bool_decide_eq_true;
    apply (js_or_is_Some _ _); try apply js_or_is_Some; by eexists.
Qed.

(** What st-form.ts makes of the object config.ts built: the fields of
    the object it builds from nothing. *)
Lemma st_form_fill_defaultFormConfig_obj env :
  st_form_fill env (defaultFormConfig_obj env) = stForm_obj env.
Proof.
  unfold defaultFormConfig_obj. destruct (configTs_readers env) as (-> & -> & ->).
  unfold stForm_obj, st_form_fill. cbn [o_logDebugMessages o_validatorName
    o_validationPropertyName o_validationDebounceTimeInMs o_validationEventListener].
  rewrite !truthy_Some, debounceFromEnv_truthy, propertyNameFromEnv_truthy. f_equal.
  all: by destruct (truthy _).
Qed.

Lemma stForm_obj_view env : to_I_FormConfig (stForm_obj env) = stForm_of_env env.
Proof.
  unfold to_I_FormConfig, stForm_of_env, stForm_obj, st_form_fill. cbn. autorewrite with stform.
  f_equal. unfold js_or. by destruct (getValidationEventListenerFromEnv env).
Qed.

Lemma stForm_obj_FormConfig_view env : to_FormConfig (stForm_obj env) = formConfig_of_env env.
Proof.
  unfold to_FormConfig, formConfig_of_env, stForm_obj, st_form_fill. cbn. autorewrite with stform.
  f_equal. unfold js_or. by destruct (getValidationEventListenerFromEnv env).
Qed.

Lemma defaultFormConfig_obj_view env : to_FormConfig (defaultFormConfig_obj env) = formConfig_of_env env.
Proof.
  unfold defaultFormConfig_obj. destruct (configTs_readers env) as (-> & -> & ->).
  unfold to_FormConfig, formConfig_of_env. cbn. autorewrite with stform.
  f_equal. unfold js_or. by destruct (getValidationEventListenerFromEnv env).
Qed.

Lemma stForm_at gl l : g_stForm gl = Some l -> stForm gl = g_heap gl !! l.
Proof. unfold stForm. by intros ->. Qed.

Lemma getFormConfig_at gl l : g_key gl = Some l -> getFormConfig gl = g_heap gl !! l.
Proof. unfold getFormConfig. by intros ->. Qed.

(** What running st-form.ts does to the global objects: the object under
    ["$stForm"] (a new one at the fresh address when there is none) is
    filled in, and [stForm] is bound to it. *)
Lemma st_form_module_spec env gl :
  exists l o,
    g_key (st_form_module env gl) = Some l /\ g_stForm (st_form_module env gl) = Some l /\
    g_heap (st_form_module env gl) = <[l := st_form_fill env o]> (g_heap gl) /\
    ((g_key gl = Some l /\ o = default empty_obj (g_heap gl !! l) /\
      g_fresh (st_form_module env gl) = g_fresh gl) \/
     (g_key gl = None /\ l = g_fresh gl /\ o = empty_obj /\
      g_fresh (st_form_module env gl) = S (g_fresh gl))).
Proof.
  destruct (g_key gl) as [l|] eqn:Hk; unfold st_form_module; rewrite Hk; cbn; rewrite ?Hk; cbn.
  - exists l, (default empty_obj (g_heap gl !! l)). split_and!; [done..|]. by left.
  - exists (g_fresh gl), empty_obj. rewrite lookup_insert_eq, insert_insert_eq.
    split_and!; [done..|]. by right.
Qed.

(** st-form.ts, then config.ts, with nothing under ["$stForm"]: [stForm]
    keeps the object st-form.ts built, ["$stForm"] gets a second one. *)
Lemma import_st_form_then_config_fresh env gl :
  globals_wf gl -> g_key gl = None ->
  let gl' := import_st_form_then_config env gl in
  g_stForm gl' <> g_key gl' /\ stForm gl' = Some (stForm_obj env) /\
  getFormConfig gl' = Some (defaultFormConfig_obj env).
Proof.
  intros _ Hk0 gl'. unfold gl', import_st_form_then_config.
  destruct (st_form_module_spec env gl) as (l & o & Hk & Hs & Hh & [(Hl & _)|(_ & -> & -> & Hfr)]);
    [congruence|].
  rewrite (stForm_at _ (g_fresh gl)), (getFormConfig_at _ (S (g_fresh gl))); cbn; rewrite ?Hs, ?Hfr; [|done..].
  rewrite lookup_insert_ne, Hh, lookup_insert_eq, lookup_insert_eq by lia.
  split_and!; [intros [=]; lia|done|done].
Qed.

(** config.ts, then st-form.ts: one object, whatever was there before. *)
Lemma import_config_then_st_form_shared env gl :
  let gl' := import_config_then_st_form env gl in
  g_stForm gl' = g_key gl' /\ stForm gl' = Some (stForm_obj env) /\ getFormConfig gl' = Some (stForm_obj env).
Proof.
  intros gl'. unfold gl', import_config_then_st_form.
  destruct (st_form_module_spec env (config_module env gl))
    as (l & o & Hk & Hs & Hh & [(Hl & -> & _)|(Hl & _)]); cbn in Hl; [|discriminate].
  injection Hl as <-. rewrite (stForm_at _ (g_fresh gl)), (getFormConfig_at _ (g_fresh gl)) by done.
  rewrite Hk, Hs, Hh, lookup_insert_eq. cbn. rewrite lookup_insert_eq. cbn.
  by rewrite st_form_fill_defaultFormConfig_obj.
Qed.

(** st-form.ts, then config.ts, when the page had set ["$stForm"] to
    its object [o]: [stForm] is [o] filled in, ["$stForm"] a new object. *)
Lemma import_st_form_then_config_preset env gl l o :
  globals_wf gl -> g_key gl = Some l -> g_heap gl !! l = Some o ->
  let gl' := import_st_form_then_config env gl in
  g_stForm gl' <> g_key gl' /\ stForm gl' = Some (st_form_fill env o) /\
  getFormConfig gl' = Some (defaultFormConfig_obj env).
Proof.
  intros Hwf Hk0 Ho gl'. pose proof (wf_key _ Hwf l Hk0) as Hlt. unfold gl', import_st_form_then_config.
  destruct (st_form_module_spec env gl) as (l' & o' & Hk & Hs & Hh & [(Hl & -> & Hfr)|(Hl & _)]);
    [|congruence].
  rewrite Hk0 in Hl. injection Hl as <-.
  rewrite (stForm_at _ l), (getFormConfig_at _ (g_fresh gl)); cbn; rewrite ?Hs, ?Hfr; [|done..].
  rewrite lookup_insert_ne, Hh, !lookup_insert_eq, Ho by lia.
  split_and!; [intros [=]; lia|done|done].
Qed.

(** [getValidationDebounceTimeInMsFromEnv() || 250] on a numeral: the
    double nearest the numeral, or [250] when it denotes [0]. *)
Lemma debounce_digits env ds :
  env_get env DEFAULT_ST_FORM_VALIDATION_DEBOUNCE_TIME_IN_MS_KEY = Some (digits_string ds) ->
  ds <> [] -> Forall (fun d => d < 10) ds ->
  debounceFromEnv env = if (horner 10 ds =? 0)%Z then num_of_Z 250 else number_value (horner 10 ds).
Proof.
  intros He Hne Hds. unfold debounceFromEnv, getValidationDebounceTimeInMsFromEnv. rewrite He.
  pose proof (horner_bounds ds Hds) as Hb.
  destruct ds as [|d ds']; [done|]. rewrite digits_string_cons.
  change (truthy (String _ _)) with true. cbv iota. rewrite <- digits_string_cons, parseInt_digits by done.
  unfold js_or. rewrite truthy_Some. destruct (Z.eqb_spec (horner 10 (d :: ds')) 0) as [E|E].
  - by rewrite E, number_value_small, truthy_num_of_Z.
  - by rewrite number_value_truthy by lia.
Qed.

(** ** Theorems *)

(** C24 (type).  Whatever the global object holds before, once
    st-form.ts has run the constant [stForm] is the object under
    ["$stForm"] and every field of [I$FormConfig] is defined in it. *)
Theorem st_form_module_complete env gl :
  g_stForm (st_form_module env gl) = g_key (st_form_module env gl) /\
  exists o, stForm (st_form_module env gl) = Some o /\ cfg_complete o = true.
Proof.
  destruct (st_form_module_spec env gl) as (l & o & Hk & Hs & Hh & _).
  rewrite Hk, Hs, (stForm_at _ l), Hh, lookup_insert_eq by done.
  split; [done|]. eexists; split; [done|]. apply st_form_fill_complete.
Qed.

(** C25 (refinement).  In either order, and with no object set by the
    page beforehand, the two modules implement the configuration the
    spec describes: [stForm] (read by [Validation]) and [getFormConfig()]
    (read by [Form]) both hold the environment's values or the defaults. *)
Theorem imports_implement_config env gl :
  globals_wf gl -> g_key gl = None ->
  config_implements env (import_st_form_then_config env gl) /\
  config_implements env (import_config_then_st_form env gl).
Proof.
  intros Hwf Hk. destruct (import_st_form_then_config_fresh env gl Hwf Hk) as (_ & Hs1 & Hg1).
  destruct (import_config_then_st_form_shared env gl) as (_ & Hs2 & Hg2).
  unfold config_implements. rewrite Hs1, Hg1, Hs2, Hg2. cbn.
  by rewrite stForm_obj_view, defaultFormConfig_obj_view, stForm_obj_FormConfig_view.
Qed.

(** C26 (functional).  Without any of the four environment variables
    the configuration is the documented default: debounce [250],
    listeners [change] and [keyup], property [VALIDATION], validator key
    [VALIDATOR_NAME], no debug messages. *)
Theorem env_defaults env :
  env_get env DEFAULT_ST_FORM_LOG_DEBUG_MESSAGE_KEY = None ->
  env_get env DEFAULT_ST_FORM_VALIDATION_PROPERTY_NAME_KEY = None ->
  env_get env DEFAULT_ST_FORM_VALIDATION_DEBOUNCE_TIME_IN_MS_KEY = None ->
  env_get env DEFAULT_ST_FORM_VALIDATION_EVENT_LISTENER_KEY = None ->
  stForm_of_env env = default_stForm /\ formConfig_of_env env = defaultFormConfig.
Proof.
  intros H1 H2 H3 H4.
  unfold stForm_of_env, formConfig_of_env, debounceFromEnv, getValidationDebounceTimeInMsFromEnv,
    getValidationEventListenerFromEnv, propertyNameFromEnv, getLogDebugFromEnv.
  by rewrite H1, H2, H3, H4.
Qed.

(** C27 (roundtrip; a gap in the spec).  Setting
    [ST_FORM_VALIDATION_DEBOUNCE_TIME_IN_MS] to [String(n)], for [n] up
    to [2^53] (above, [parseInt] rounds to a double), gives the delay [n]
    back through [parseInt], except for [n = 0]: [0] is falsy, so
    [|| 250] replaces it and a zero delay cannot be configured. *)
Theorem debounce_env_roundtrip env n :
  (Z.of_nat n <= 2 ^ 53)%Z ->
  env_get env DEFAULT_ST_FORM_VALIDATION_DEBOUNCE_TIME_IN_MS_KEY = Some (js_nat_toString n) ->
  validationDebounceTimeInMs (stForm_of_env env) = num_of_Z (if n =? 0 then 250 else Z.of_nat n).
Proof.
  intros Hn He. destruct (to_digits_spec n) as (Hne & Hds & Hh). cbn [stForm_of_env validationDebounceTimeInMs].
  rewrite (debounce_digits env (to_digits n)), Hh by done.
  destruct n; [done|]. rewrite number_value_small by lia. done.
Qed.

(** C28 (bounds).  A debounce variable of decimal digits always yields
    a truthy delay (never [0] nor [NaN]); with at most 15 digits (below
    [2^53], so [parseInt] is exact) the delay is [250] or an integer of
    at least one and below [10^k] milliseconds, [k] the number of
    digits. *)
Theorem debounce_env_bounds env ds :
  env_get env DEFAULT_ST_FORM_VALIDATION_DEBOUNCE_TIME_IN_MS_KEY = Some (digits_string ds) ->
  ds <> [] -> Forall (fun d => d < 10) ds ->
  truthy (validationDebounceTimeInMs (stForm_of_env env)) = true /\
  (length ds <= 15 ->
   exists z, validationDebounceTimeInMs (stForm_of_env env) = num_of_Z z /\
             (z = 250 \/ 1 <= z < 10 ^ Z.of_nat (length ds))%Z).
Proof.
  intros He Hne Hds. cbn [stForm_of_env validationDebounceTimeInMs].
  rewrite (debounce_digits env ds) by done. pose proof (horner_bounds ds Hds) as Hb.
  destruct (Z.eqb_spec (horner 10 ds) 0) as [E|E].
  - split; [done|]. intros _. eexists; split; [done|by left].
  - split; [apply number_value_truthy; lia|]. intros Hl.
    assert (Hp : (10 ^ Z.of_nat (length ds) <= 10 ^ 15)%Z) by (apply Z.pow_le_mono_r; lia).
    rewrite number_value_small by (rewrite Z.abs_eq by lia; lia).
    eexists; split; [done|right; lia].
Qed.

(** C29 (roundtrip).  Setting [ST_FORM_VALIDATION_EVENT_LISTENER] to
    the names [xs] joined by ['|'] gives the listener list [xs] back,
    when no name contains ['|'] and the joined text is not empty. *)
Theorem listeners_env_roundtrip env xs :
  let bar := Ascii.ascii_of_nat 124 in
  env_get env DEFAULT_ST_FORM_VALIDATION_EVENT_LISTENER_KEY = Some (String.concat (String bar EmptyString) xs) ->
  xs <> [] -> Forall (fun x => str_has bar x = false) xs -> String.concat (String bar EmptyString) xs <> EmptyString ->
  validationEventListener (stForm_of_env env) = xs.
Proof.
  intros bar He Hne Hxs Hj. cbn [stForm_of_env validationEventListener].
  unfold getValidationEventListenerFromEnv. rewrite He.
  replace (truthy _) with true by (unfold truthy, truthy_string; by destruct (String.concat _ _)).
  cbn [default]. by apply js_split_join.
Qed.

(** C30 (safety; the code differs from its comment and the spec).
    form.tsx evaluates st-form.ts before config.ts.  If the page set
    ["$stForm"] to its own object with a [validationPropertyName],
    st-form.ts keeps that object ("not re-initialized and overwritten",
    st-form.ts lines 32-33), but config.ts then stores a new one:
    [stForm] and [getFormConfig()] are two objects, [Validation]
    registers itself under the page's property name and [Form] looks
    under the environment's. *)
Theorem st_form_then_config_split env gl l o :
  globals_wf gl -> g_key gl = Some l -> g_heap gl !! l = Some o ->
  truthy (o_validationPropertyName o) = true ->
  let gl' := import_st_form_then_config env gl in
  g_stForm gl' <> g_key gl' /\
  (validationPropertyName ∘ to_I_FormConfig) <$> stForm gl' = o_validationPropertyName o /\
  (fc_validationPropertyName ∘ to_FormConfig) <$> getFormConfig gl' = Some (propertyNameFromEnv env).
Proof.
  intros Hwf Hk0 Ho Hp gl'.
  destruct (import_st_form_then_config_preset env gl l o Hwf Hk0 Ho) as (Hne & Hs & Hg).
  unfold gl'. rewrite Hs, Hg. split_and!; [done| |done]. cbn.
  rewrite Hp. by destruct (o_validationPropertyName o).
Qed.


(** ** Witnesses *)

Lemma empty_globals_wf : globals_wf empty_globals.
Proof. constructor; cbn; [discriminate|discriminate|done]. Qed.

Lemma preset_globals_wf o : globals_wf (preset_globals o).
Proof.
  constructor; cbn; [intros l [= <-]; lia|discriminate|].
  intros l Hl. apply lookup_singleton_ne. lia.
Qed.

Lemma imports_implement_config_witness :
  g_key empty_globals = None /\
  config_implements [("ST_FORM_VALIDATION_EVENT_LISTENER", "input|blur")]
    (import_st_form_then_config [("ST_FORM_VALIDATION_EVENT_LISTENER", "input|blur")] empty_globals).
Proof.
  split; [reflexivity|].
  apply (imports_implement_config [("ST_FORM_VALIDATION_EVENT_LISTENER", "input|blur")] empty_globals);
    [apply empty_globals_wf|reflexivity].
Defined.

Lemma env_defaults_witness :
  stForm_of_env [("PATH", "/usr/bin")] = default_stForm /\ formConfig_of_env [("PATH", "/usr/bin")] = defaultFormConfig.
Proof. apply (env_defaults [("PATH", "/usr/bin")]); reflexivity. Defined.

Lemma debounce_env_roundtrip_witness :
  validationDebounceTimeInMs (stForm_of_env [("ST_FORM_VALIDATION_DEBOUNCE_TIME_IN_MS", "300")]) = num_of_Z 300 /\
  validationDebounceTimeInMs (stForm_of_env [("ST_FORM_VALIDATION_DEBOUNCE_TIME_IN_MS", "0")]) = num_of_Z 250.
Proof.
  split.
  - apply (debounce_env_roundtrip [("ST_FORM_VALIDATION_DEBOUNCE_TIME_IN_MS", "300")] 300);
      [vm_compute; discriminate|vm_compute; reflexivity].
  - apply (debounce_env_roundtrip [("ST_FORM_VALIDATION_DEBOUNCE_TIME_IN_MS", "0")] 0);
      [vm_compute; discriminate|vm_compute; reflexivity].
Defined.

Lemma debounce_env_bounds_witness :
  truthy (validationDebounceTimeInMs
            (stForm_of_env [("ST_FORM_VALIDATION_DEBOUNCE_TIME_IN_MS", "99999999999999999999")])) = true /\
  exists z, validationDebounceTimeInMs (stForm_of_env [("ST_FORM_VALIDATION_DEBOUNCE_TIME_IN_MS", "0042")]) = num_of_Z z /\
            (z = 250 \/ 1 <= z < 10 ^ Z.of_nat 4)%Z.
Proof.
  split.
  - apply (debounce_env_bounds [("ST_FORM_VALIDATION_DEBOUNCE_TIME_IN_MS", "99999999999999999999")] (repeat 9 20));
      [vm_compute; reflexivity|discriminate|repeat constructor; lia].
  - apply (debounce_env_bounds [("ST_FORM_VALIDATION_DEBOUNCE_TIME_IN_MS", "0042")] [0; 0; 4; 2]);
      [vm_compute; reflexivity|discriminate|repeat constructor; lia|simpl; lia].
Defined.

Lemma listeners_env_roundtrip_witness :
  validationEventListener (stForm_of_env [("ST_FORM_VALIDATION_EVENT_LISTENER", "input|blur")]) = ["input"; "blur"].
Proof.
  apply (listeners_env_roundtrip [("ST_FORM_VALIDATION_EVENT_LISTENER", "input|blur")] ["input"; "blur"]);
    [vm_compute; reflexivity|discriminate|repeat constructor|vm_compute; discriminate].
Defined.

Lemma st_form_then_config_split_witness :
  let gl' := import_st_form_then_config [] (preset_globals (mkCfgObj false None None (Some "myValidation") None None)) in
  (validationPropertyName ∘ to_I_FormConfig) <$> stForm gl' = Some "myValidation" /\
  (fc_validationPropertyName ∘ to_FormConfig) <$> getFormConfig gl' = Some "VALIDATION".
Proof.
  destruct (st_form_then_config_split [] (preset_globals (mkCfgObj false None None (Some "myValidation") None None))
              0 (mkCfgObj false None None (Some "myValidation") None None)) as (_ & H1 & H2);
    [apply preset_globals_wf|reflexivity|reflexivity|reflexivity|].
  split; [exact H1|exact H2].
Defined.
