(* ===== verification/Validation.v ===== *)
(** The [Validation] component (component/validation/validation.ts):
    its fields, the run-time it acts on (DOM, timers, promises, the
    suspended [await]s of its timer callback, dispatched events, event
    listeners), one definition per method, the step relation of the
    event loop, and the theorems about them. *)
From S2P Require Import Prelude JsValue Dom Config.

Module Validation.

(** ** Data *)

(** What [await validator(value)] produces: the truthiness of the
    validator's result, or an exception. *)
Inductive VResult :=
| VReturn (ok : bool)
| VThrow.

(** A validator function with its own properties; [st-validate] sets
    the property named by [stForm.validatorName] on the functions it
    builds, a plain custom function has none. *)
Record Validator := mkValidator {
  vprops : list (string * string);
  vrun : FieldValue -> VResult;
}.

(** [IValidation] (lines 13-18).  [errors] holds what
    [(validator as any)[stForm.validatorName]] evaluates to, [undefined]
    ([None]) for a validator without that property. *)
Record IValidation := mkIValidation {
  valid : bool;
  validated : bool;
  errors : list (option string);
  value : FieldValue;
}.

(** [ValidationEventDetail] (lines 20-21) extends [IValidation] with
    nothing: the detail of a ["validation"] event. *)
Definition ValidationEventDetail : Type := IValidation.

(** The fields of a [Validation] instance (lines 23-44).  [el] is the
    host element [this.el], [self] the identity of the instance,
    [validationReject] the promise whose reject handle is stored,
    [timeout] the id returned by the last [setTimeout]. *)
Record Validation := mkValidation {
  self : nat;
  el : nat;
  eventListeners : option (list string);
  debounceTimeInMs : option JSNum;
  validators : list Validator;
  target : option nat;
  validationReject : option nat;
  timeout : option nat;
  state : option IValidation;
}.

(** ** Run-time *)

Inductive PState :=
| Pending
| Fulfilled (b : bool)
| Rejected.

(** A pending [setTimeout(callback, delay)]: the callback is the one
    created by [validate(force)] for promise [tm_promise]. *)
Record Timer := mkTimer {
  tm_id : nat;
  tm_delay : option JSNum;
  tm_promise : nat;
  tm_force : bool;
}.

(** A timer callback suspended at [await validator(value)] for the head
    of [tk_todo]; [tk_valid] and [tk_errors] are its locals [valid] and
    [errors]. *)
Record Task := mkTask {
  tk_promise : nat;
  tk_value : FieldValue;
  tk_todo : list Validator;
  tk_valid : bool;
  tk_errors : list (option string);
}.

(** The world one component acts on.  The call of [validate] numbered
    [n] creates the promise [n]; [threw] lists the calls whose body threw
    before creating it; [listeners] are the listeners registered on the
    host element, as pairs of an event name and a closure identity;
    [log] collects [st.error] messages; [fresh] supplies identities
    (calls, timers, closures, [Date] objects). *)
Record World := mkWorld {
  comp : Validation;
  dom : Dom;
  timers : list Timer;
  promises : gmap nat PState;
  tasks : list Task;
  events : list ValidationEventDetail;
  threw : list nat;
  listeners : list (string * nat);
  log : list string;
  fresh : nat;
}.

Definition with_comp w c := mkWorld c (dom w) (timers w) (promises w) (tasks w)
  (events w) (threw w) (listeners w) (log w) (fresh w).
Definition with_dom w d := mkWorld (comp w) d (timers w) (promises w) (tasks w)
  (events w) (threw w) (listeners w) (log w) (fresh w).
Definition with_timers w ts := mkWorld (comp w) (dom w) ts (promises w) (tasks w)
  (events w) (threw w) (listeners w) (log w) (fresh w).
Definition with_promises w ps := mkWorld (comp w) (dom w) (timers w) ps (tasks w)
  (events w) (threw w) (listeners w) (log w) (fresh w).
Definition with_tasks w tks := mkWorld (comp w) (dom w) (timers w) (promises w) tks
  (events w) (threw w) (listeners w) (log w) (fresh w).
Definition with_listeners w ls := mkWorld (comp w) (dom w) (timers w) (promises w)
  (tasks w) (events w) (threw w) ls (log w) (fresh w).
Definition with_log w lg := mkWorld (comp w) (dom w) (timers w) (promises w)
  (tasks w) (events w) (threw w) (listeners w) lg (fresh w).
Definition with_fresh w n := mkWorld (comp w) (dom w) (timers w) (promises w)
  (tasks w) (events w) (threw w) (listeners w) (log w) n.

Definition set_target c t := mkValidation (self c) (el c) (eventListeners c)
  (debounceTimeInMs c) (validators c) t (validationReject c) (timeout c) (state c).
Definition set_state c s := mkValidation (self c) (el c) (eventListeners c)
  (debounceTimeInMs c) (validators c) (target c) (validationReject c) (timeout c) s.

(** Settling a promise: only a pending promise changes. *)
Definition settle (p : nat) (r : PState) (ps : gmap nat PState) : gmap nat PState :=
  match ps !! p with
  | Some Pending => <[p := r]> ps
  | _ => ps
  end.
Definition resolve p b ps := settle p (Fulfilled b) ps.
Definition reject p ps := settle p Rejected ps.

(** [clearTimeout(id)]: a no-op on [undefined] or a fired timer. *)
Definition clearTimeout (id : option nat) (ts : list Timer) : list Timer :=
  match id with
  | Some i => List.filter (fun t => negb (Nat.eqb (tm_id t) i)) ts
  | None => ts
  end.

(** What the caller of [validate] gets: the awaited promise fulfilled
    with [b] returns [b]; rejected, the [catch] returns [false]. *)
Inductive CallResult :=
| Returns (b : bool)
| Throws.

Definition call_result w (n : nat) : option CallResult :=
  if decide (n ∈ threw w) then Some Throws else
  match promises w !! n with
  | Some (Fulfilled b) => Some (Returns b)
  | Some Rejected => Some (Returns false)
  | _ => None
  end.

Section Methods.
Variable cfg : I_FormConfig.

(** ** Reading the value (lines 193-227) *)

(** [getInputValue(input)]; [obj] is the identity a fresh [Date] object
    returned by [valueAsDate] gets. *)
Definition getInputValue (c : Validation) (d : Dom) (obj : nat) (input : Element)
  : FieldValue :=
  if String.eqb (el_type input) "number" then FNumber (el_valueAsNumber input)
  else if String.eqb (el_type input) "date" then
    match el_valueAsDate input with
    | Some tm => FDate obj tm
    | None => FNull
    end
  else if String.eqb (el_type input) "checkbox" then FBool (el_checked input)
  else if String.eqb (el_type input) "radio" then
    match form_of d (el c) with
    | Some f =>
        match namedItem d f (el_name input) with
        | NIRadioList ids => FString (radio_list_value d ids)
        | _ => FString (el_value input ||j "")
        end
    | None => FString (el_value input ||j "")
    end
  else FString (el_value input ||j "").

Definition getTextAreaValue (t : Element) : FieldValue := FString (el_value t ||j "").

Definition getValue (c : Validation) (d : Dom) (obj : nat) : FieldValue :=
  match target c with
  | Some tg =>
      match get_el d tg with
      | Some e =>
          match el_tag e with
          | TInput => getInputValue c d obj e
          | TTextArea => getTextAreaValue e
          | _ => FUndefined
          end
      | None => FUndefined
      end
  | None => FUndefined
  end.

(** ** [validate(force)] (lines 96-144) *)

(** [this.debounceTimeInMs || stForm.validationDebounceTimeInMs]. *)
Definition debounce_delay (c : Validation) : option JSNum :=
  debounceTimeInMs c ||j Some (validationDebounceTimeInMs cfg).

(** The [try] block: the executor of [new Promise] stores the reject
    handle, clears the pending timer and starts a new one; the call then
    awaits its promise [n]. *)
Definition validate_body (force : bool) (w : World) : World :=
  let c := comp w in
  let n := fresh w in
  let c' := mkValidation (self c) (el c) (eventListeners c) (debounceTimeInMs c)
              (validators c) (target c) (Some n) (Some n) (state c) in
  mkWorld c' (dom w)
    (clearTimeout (timeout c) (timers w) ++ [mkTimer n (debounce_delay c) n force])
    (<[n := Pending]> (promises w)) (tasks w) (events w) (threw w)
    (listeners w) (log w) (S n).

(** The whole method.  A stored reject handle is called first, which
    rejects the previous call's promise (a no-op if it has settled); the
    template string of its reason reads [this.target.name], which throws
    when no target is bound, and the call's own promise then rejects
    before any timer is touched. *)
Definition validate (force : bool) (w : World) : World :=
  match validationReject (comp w) with
  | Some p =>
      match target (comp w) with
      | Some _ => validate_body force (with_promises w (reject p (promises w)))
      | None => mkWorld (comp w) (dom w) (timers w) (promises w) (tasks w)
                  (events w) (fresh w :: threw w) (listeners w) (log w) (S (fresh w))
      end
  | None => validate_body force w
  end.

(** ** The timer callback (lines 106-136) *)

(** [dispatchValidation(detail)] (lines 50-58): a bubbling, cancelable,
    composed ["validation"] event whose detail is a copy of [detail]; the
    world records the details of the events dispatched, in order. *)
Definition dispatchValidation (detail : ValidationEventDetail) (evs : list ValidationEventDetail) :
    list ValidationEventDetail :=
  evs ++ [detail].

(** Publishing the result of a pass: [this.state = Object.freeze(...)],
    [dispatchValidation(this.state)], then
    [this.target.setCustomValidity(valid ? '' : ' ')] and [resolve(valid)];
    without a target the call to [setCustomValidity] throws and the
    promise is left pending. *)
Definition finish (p : nat) (v : FieldValue) (ok : bool) (errs : list (option string))
    (w : World) : World :=
  let s := mkIValidation ok true errs v in
  let c := set_state (comp w) (Some s) in
  match target (comp w) with
  | Some tg =>
      mkWorld c (setCustomValidity (dom w) tg (if ok then "" else " ")) (timers w)
        (resolve p ok (promises w)) (tasks w) (dispatchValidation s (events w)) (threw w)
        (listeners w) (log w) (fresh w)
  | None =>
      mkWorld c (dom w) (timers w) (promises w) (tasks w) (dispatchValidation s (events w))
        (threw w) (listeners w) (log w) (fresh w)
  end.

(** Entering [for (const validator of this.validators)]: with no
    validator the loop body never runs and the pass finishes at once;
    otherwise the callback calls the first validator and suspends. *)
Definition start_loop (p : nat) (v : FieldValue) (vs : list Validator) (w : World)
  : World :=
  match vs with
  | [] => finish p v true [] w
  | _ => with_tasks w (tasks w ++ [mkTask p v vs true []])
  end.

Definition is_radio (d : Dom) (tg : nat) : bool :=
  match get_el d tg with
  | Some e => String.eqb (el_type e) "radio"
  | None => false
  end.

(** The skip rule: [force || !this.state || this.state.value !== value]. *)
Definition must_run (force : bool) (s : option IValidation) (v : FieldValue) : bool :=
  match s with
  | Some s => force || negb (strict_eq (value s) v)
  | None => true
  end.

(** The pass proper, once the skip rule has said it must run. *)
Definition run_pass (p : nat) (v : FieldValue) (w : World) : World :=
  match target (comp w) with
  | Some tg =>
      let w1 := with_dom w (setCustomValidity (dom w) tg " ") in
      if is_radio (dom w) tg then
        with_promises (with_dom w1 (setCustomValidity (dom w1) tg ""))
          (resolve p true (promises w1))
      else start_loop p v (validators (comp w)) w1
  | None => w
  end.

(** The timer [tm] fires: it leaves the timer queue, the callback reads
    the value (a [Date] it creates gets the identity [fresh w]) and
    either resolves with the previous [valid] or runs a pass. *)
Definition fire (tm : Timer) (w : World) : World :=
  let c := comp w in
  let v := getValue c (dom w) (fresh w) in
  let w0 := mkWorld c (dom w)
              (List.filter (fun t => negb (Nat.eqb (tm_id t) (tm_id tm))) (timers w))
              (promises w) (tasks w) (events w) (threw w) (listeners w) (log w)
              (S (fresh w)) in
  if must_run (tm_force tm) (state c) v then run_pass (tm_promise tm) v w0
  else match state c with
       | Some s => with_promises w0 (resolve (tm_promise tm) (valid s) (promises w0))
       | None => w0
       end.

(** The suspended callback [k] resumes: the awaited validator's result
    arrives, [valid] and [errors] are updated, and the loop either
    suspends on the next validator or finishes.  A thrown exception
    aborts the callback: nothing settles its promise. *)
Definition resume (k : nat) (w : World) : World :=
  match tasks w !! k with
  | Some tk =>
      let others := delete k (tasks w) in
      match tk_todo tk with
      | vd :: todo =>
          match vrun vd (tk_value tk) with
          | VThrow => with_tasks w others
          | VReturn ok =>
              let valid' := tk_valid tk && ok in
              let errs' := if ok then tk_errors tk
                           else tk_errors tk ++ [assoc (validatorName cfg) (vprops vd)] in
              match todo with
              | [] => finish (tk_promise tk) (tk_value tk) valid' errs' (with_tasks w others)
              | _ => with_tasks w (<[k := mkTask (tk_promise tk) (tk_value tk) todo valid' errs']>
                                     (tasks w))
              end
          end
      | [] => with_tasks w others
      end
  | None => w
  end.

(** ** Event wiring (lines 65-77, 182-191) *)

(** [this.eventListeners || stForm.validationEventListener]: an array is
    truthy even when empty, so only an absent attribute falls back. *)
Definition listener_names (c : Validation) : list string :=
  default [] (eventListeners c ||j Some (validationEventListener cfg)).

(** [addEventListener] ignores a pair already registered;
    [removeEventListener] removes the pair with the same closure. *)
Definition addEventListener (ty : string) (cb : nat) (ls : list (string * nat)) :=
  if decide ((ty, cb) ∈ ls) then ls else ls ++ [(ty, cb)].
Definition removeEventListener (ty : string) (cb : nat) (ls : list (string * nat)) :=
  List.filter (fun l => negb (bool_decide (l = (ty, cb)))) ls.

(** Each call [this.onTargetEvent(eventListener)] builds a new closure,
    which gets the identity [fresh w]. *)
Fixpoint connect_names (names : list string) (w : World) : World :=
  match names with
  | [] => w
  | ty :: rest =>
      connect_names rest
        (with_fresh (with_listeners w (addEventListener ty (fresh w) (listeners w)))
           (S (fresh w)))
  end.

Fixpoint disconnect_names (names : list string) (w : World) : World :=
  match names with
  | [] => w
  | ty :: rest =>
      disconnect_names rest
        (with_fresh (with_listeners w (removeEventListener ty (fresh w) (listeners w)))
           (S (fresh w)))
  end.

Definition onConnect (w : World) : World := connect_names (listener_names (comp w)) w.
Definition onDisconnect (w : World) : World := disconnect_names (listener_names (comp w)) w.

(** The closure's body: only an event whose target is the bound element
    starts a (non-forced) validation. *)
Definition onTargetEvent (evt_target : nat) (w : World) : World :=
  if decide (target (comp w) = Some evt_target) then validate false w else w.

(** An event of type [ty] bubbling from [evt_target] to the host runs
    every listener registered for [ty] when the dispatch starts, in
    registration order. *)
Definition dispatch_event (ty : string) (evt_target : nat) (w : World) : World :=
  fold_left (fun w' l => if String.eqb l.1 ty then onTargetEvent evt_target w' else w')
    (listeners w) w.

(** ** Binding (lines 79-94) *)

(** The first input under the host, else the first textarea; when
    neither exists the previous target is kept, and only an error is
    logged if there is none. *)
Definition onAfterRender (w : World) : World :=
  let c := comp w in
  let d := dom w in
  let c' := match querySelector d (el c) TInput with
            | Some i => set_target c (Some i)
            | None => match querySelector d (el c) TTextArea with
                      | Some t => set_target c (Some t)
                      | None => c
                      end
            end in
  match target c' with
  | Some tg => with_dom (with_comp w c')
                 (set_prop d tg (validationPropertyName cfg) (XValidation (self c)))
  | None => with_log (with_comp w c') (log w ++ ["Validator, missing textarea or input child"])
  end.

(** ** User input *)

(** The user changes what an element holds: its [value], [checked],
    [valueAsNumber] and [valueAsDate]. *)
Definition user_input (i : nat) (v : string) (chk : bool) (num : JSNum) (dt : option Z)
    (w : World) : World :=
  with_dom w (update_el (dom w) i (fun e => mkElement (el_tag e) (el_type e)
    (el_name e) v chk (el_disabled e) (el_readOnly e) num dt (el_validity e)
    (el_form e) (el_parent e) (el_default e))).

(** ** The event loop *)

Inductive step : World -> World -> Prop :=
| step_validate force w : step w (validate force w)
| step_fire tm w : In tm (timers w) -> step w (fire tm w)
| step_resume k tk w : tasks w !! k = Some tk -> step w (resume k w)
| step_event ty tg w : step w (dispatch_event ty tg w)
| step_input i v chk num dt w : step w (user_input i v chk num dt w)
| step_connect w : step w (onConnect w)
| step_disconnect w : step w (onDisconnect w)
| step_render w : step w (onAfterRender w).

End Methods.

(** A freshly constructed component in a document: nothing pending,
    nothing published. *)
Definition initial (w : World) : Prop :=
  target (comp w) = None /\ validationReject (comp w) = None /\ timeout (comp w) = None /\
  state (comp w) = None /\ timers w = [] /\ promises w = ∅ /\ tasks w = [] /\
  events w = [] /\ threw w = [].

Definition reachable (cfg : I_FormConfig) (w : World) : Prop :=
  exists w0, initial w0 /\ star (step cfg) w0 w.

(** ** The invariant *)

(** A published state: validated, and valid exactly when no error. *)
Definition state_ok (s : IValidation) : Prop :=
  validated s = true /\ (valid s = true <-> errors s = []).

(** A [Date] held in the model was created before the identity counter
    reached [n]. *)
Definition fresh_value (n : nat) (v : FieldValue) : Prop :=
  match v with
  | FDate o _ => o < n
  | _ => True
  end.

(** A suspended callback: it awaits a validator, its locals agree, and
    its identities are allocated. *)
Definition task_ok (n : nat) (tk : Task) : Prop :=
  tk_todo tk <> [] /\ (tk_valid tk = true <-> tk_errors tk = []) /\
  fresh_value n (tk_value tk) /\ tk_promise tk < n.

(** At most one timer is pending; it belongs to the latest call, whose
    reject handle and timer id are the ones stored, whose promise is
    pending, and whose callback has not started. *)
Definition timer_ok (w : World) : Prop :=
  timers w = [] \/
  exists t, timers w = [t] /\ tm_id t = tm_promise t /\
    validationReject (comp w) = Some (tm_promise t) /\
    timeout (comp w) = Some (tm_id t) /\
    promises w !! tm_promise t = Some Pending /\
    Forall (fun tk => tk_promise tk <> tm_promise t) (tasks w).

Record wf_rest (w : World) : Prop := {
  wf_state : forall s, state (comp w) = Some s -> state_ok s /\ fresh_value (fresh w) (value s);
  wf_events : Forall state_ok (events w);
  wf_tasks : Forall (task_ok (fresh w)) (tasks w);
  wf_promises : forall p, is_Some (promises w !! p) -> p < fresh w;
  wf_threw : Forall (fun n => n < fresh w /\ promises w !! n = None) (threw w)
}.

Definition wf (w : World) : Prop := timer_ok w /\ wf_rest w.

(** ** A scheduler and the reference pass *)

(** The scheduler used for liveness: fire the pending timer, otherwise
    resume the newest suspended callback. *)
Definition sched (cfg : I_FormConfig) (w : World) : World :=
  match timers w with
  | tm :: _ => fire tm w
  | [] => match tasks w with
          | [] => w
          | _ => resume cfg (pred (length (tasks w))) w
          end
  end.

Fixpoint drain (cfg : I_FormConfig) (fuel : nat) (w : World) : World :=
  match fuel with
  | 0 => w
  | S f => drain cfg f (sched cfg w)
  end.

Definition passes (vd : Validator) (v : FieldValue) : bool :=
  match vrun vd v with
  | VReturn ok => ok
  | VThrow => false
  end.

Definition no_throw (vs : list Validator) : Prop :=
  Forall (fun vd => forall v, vrun vd v <> VThrow) vs.

(** What a pass means: the names of the failing validators in list
    order, and validity when every validator passes. *)
Definition ref_errors (cfg : I_FormConfig) (vs : list Validator) (v : FieldValue)
  : list (option string) :=
  map (fun vd => assoc (validatorName cfg) (vprops vd))
    (List.filter (fun vd => negb (passes vd v)) vs).

Definition ref_valid (vs : list Validator) (v : FieldValue) : bool :=
  forallb (fun vd => passes vd v) vs.

(** What a call on [w] returns, by the branch of the timer callback that
    applies: the published [valid] when the skip rule holds, [true] on a
    radio target, the reference result of the validators otherwise. *)
Definition verdict (force : bool) (w : World) : bool :=
  let v := getValue (comp w) (dom w) (S (fresh w)) in
  if must_run force (state (comp w)) v then
    match target (comp w) with
    | Some tg => if is_radio (dom w) tg then true else ref_valid (validators (comp w)) v
    | None => false
    end
  else match state (comp w) with Some s => valid s | None => false end.

(** [w'] keeps every outcome already settled in [w]. *)
Definition keeps (w w' : World) : Prop :=
  threw w' = threw w /\
  forall n x, promises w !! n = Some x -> x <> Pending -> promises w' !! n = Some x.

(** ** Concrete documents for the witnesses *)

(** A host element [1] (the component's own element) holding one
    control [2]. *)
Definition ex_host : Element :=
  mkElement (TOther "st-validation") "" "" "" false false false NaN None "" None None
    (mkControl "" false NaN None).
Definition ex_control (ty v : string) (num : JSNum) (dt : option Z) : Element :=
  mkElement TInput ty "field" v false false false num dt "" None (Some 1) (mkControl v false num dt).
Definition ex_dom (ctl : Element) : Dom :=
  mkDom (<[2 := ctl]> (<[1 := ex_host]> ∅)) [1; 2] ∅.

(** A [required] validator as [st-validate] builds it, and a custom
    validator that throws. *)
Definition ex_required : Validator :=
  mkValidator [("VALIDATOR_NAME", "required")]
    (fun v => VReturn (match v with FString s => negb (String.eqb s "") | _ => true end)).
Definition ex_throwing : Validator := mkValidator [] (fun _ => VThrow).

Definition ex_world (ctl : Element) (vs : list Validator) : World :=
  mkWorld (mkValidation 7 1 None None vs None None None None) (ex_dom ctl)
    [] ∅ [] [] [] [] [] 0.

(** The component after its first render, bound to control [2]. *)
Definition ex_bound (ctl : Element) (vs : list Validator) : World :=
  onAfterRender default_stForm (ex_world ctl vs).

Definition ex_timer (n : nat) : Timer :=
  mkTimer n (Some (validationDebounceTimeInMs default_stForm)) n false.

(** A trace where a pass is overtaken: call [0] reads [""] and awaits
    [required]; the user types "abc"; call [2] supersedes call [0],
    reads "abc" and finishes first; then call [0]'s callback resumes and
    finishes. *)
Definition stale_a : World :=
  fire (ex_timer 0) (validate default_stForm false (ex_bound (ex_control "text" "" NaN None) [ex_required])).
Definition stale_b : World :=
  fire (ex_timer 2) (validate default_stForm false (user_input 2 "abc" false NaN None stale_a)).
Definition stale_end : World :=
  resume default_stForm 0 (resume default_stForm 1 stale_b).

(** ** Promises *)

Lemma settle_other p q r ps : p <> q -> settle p r ps !! q = ps !! q.
Proof.
  intros Hne. unfold settle. destruct (ps !! p) as [[]|]; try done.
  by rewrite lookup_insert_ne.
Qed.

Lemma settle_pending p r ps : ps !! p = Some Pending -> settle p r ps !! p = Some r.
Proof. intros H. unfold settle. rewrite H. apply lookup_insert_eq. Qed.

Lemma settle_settled p r ps : ps !! p <> Some Pending -> settle p r ps = ps.
Proof. intros H. unfold settle. destruct (ps !! p) as [[]|]; congruence. Qed.

Lemma settle_is_Some p q r ps : is_Some (settle p r ps !! q) <-> is_Some (ps !! q).
Proof.
  destruct (decide (p = q)) as [<-|Hne]; [|by rewrite settle_other].
  unfold settle. destruct (ps !! p) as [[]|] eqn:E; rewrite ?E; try done.
  rewrite lookup_insert_eq. split; eauto.
Qed.

(** Once settled, a promise keeps its outcome. *)
Lemma settle_keeps p q r ps x : ps !! q = Some x -> x <> Pending -> settle p r ps !! q = Some x.
Proof.
  intros Hq Hx. destruct (decide (p = q)) as [<-|Hne]; [|by rewrite settle_other].
  rewrite settle_settled; congruence.
Qed.

#[export] Hint Resolve settle_other settle_pending settle_keeps : stform.

(** ** Freshness *)

Lemma fresh_value_mono n m v : n <= m -> fresh_value n v -> fresh_value m v.
Proof. destruct v; simpl; lia. Qed.

Lemma task_ok_mono n m tk : n <= m -> task_ok n tk -> task_ok m tk.
Proof.
  intros ? (?&?&?&?). split; [done|]. split; [done|].
  split; [eauto using fresh_value_mono | lia].
Qed.

Lemma getValue_fresh c d obj : fresh_value (S obj) (getValue c d obj).
Proof.
  unfold getValue, getInputValue, getTextAreaValue.
  repeat (case_match_goal; simpl; try lia; try done).
Qed.

#[export] Hint Resolve fresh_value_mono task_ok_mono getValue_fresh : stform.

(** ** Frame: what the invariant does not look at *)

(** [wf_rest] only looks at the published state, events, tasks,
    promises, failed calls and the identity counter. *)
Lemma wf_rest_frame w w' :
  wf_rest w -> state (comp w') = state (comp w) -> events w' = events w ->
  tasks w' = tasks w -> promises w' = promises w -> threw w' = threw w ->
  fresh w <= fresh w' -> wf_rest w'.
Proof.
  intros [Hs He Ht Hp Hth] ES EE ET EP ETh Hle. split.
  - rewrite ES. intros s Hs'. destruct (Hs s Hs'). eauto with stform.
  - by rewrite EE.
  - rewrite ET. eapply Forall_impl; eauto with stform.
  - rewrite EP. intros q Hq. specialize (Hp q Hq). lia.
  - rewrite ETh, EP. eapply Forall_impl; [done|]. simpl. intros n [? ?]. split; [lia|done].
Qed.

Lemma timer_ok_frame w w' :
  timer_ok w -> validationReject (comp w') = validationReject (comp w) ->
  timeout (comp w') = timeout (comp w) -> timers w' = timers w ->
  tasks w' = tasks w -> promises w' = promises w -> timer_ok w'.
Proof.
  intros [H|(t&?&?&?&?&?&?)] ER ET ETm ETk EP; [left; congruence|right].
  exists t. rewrite ER, ET, ETm, ETk, EP. done.
Qed.

Lemma wf_frame w w' :
  wf w -> validationReject (comp w') = validationReject (comp w) ->
  timeout (comp w') = timeout (comp w) -> state (comp w') = state (comp w) ->
  timers w' = timers w -> promises w' = promises w -> tasks w' = tasks w ->
  events w' = events w -> threw w' = threw w -> fresh w <= fresh w' -> wf w'.
Proof.
  intros [HT HR] ER ET ES ETm EP ETk EE ETh Hle.
  split; [eapply timer_ok_frame | eapply wf_rest_frame]; eauto.
Qed.

(** Settling a promise keeps [wf_rest]. *)
Lemma wf_rest_settle w p r :
  wf_rest w -> wf_rest (with_promises w (settle p r (promises w))).
Proof.
  intros [Hs He Ht Hp Hth]. split; simpl; try done.
  - intros q Hq. apply Hp. by apply settle_is_Some in Hq.
  - eapply Forall_impl; [exact Hth|]. intros n [? Hn]. split; [done|].
    destruct (decide (p = n)) as [<-|]; [rewrite settle_settled; [exact Hn | by rewrite Hn]|].
    by rewrite settle_other.
Qed.

Lemma wf_rest_with_dom w d : wf_rest w -> wf_rest (with_dom w d).
Proof. intros H. eapply wf_rest_frame; eauto. Qed.

Lemma wf_rest_with_tasks w tks :
  wf_rest w -> Forall (task_ok (fresh w)) tks -> wf_rest (with_tasks w tks).
Proof. intros [] Ht. by split. Qed.

Lemma timer_ok_with_tasks w tks :
  timer_ok w ->
  (forall t, timers w = [t] -> Forall (fun tk => tk_promise tk <> tm_promise t) tks) ->
  timer_ok (with_tasks w tks).
Proof.
  intros [H|(t&Ht&?&?&?&?&?)] Htk; [by left|right].
  exists t. simpl. repeat split; auto.
Qed.

#[export] Hint Resolve wf_rest_with_dom wf_rest_settle wf_rest_with_tasks : stform.

(** ** Preservation, operation by operation *)

Lemma timer_ok_shape w :
  timer_ok w -> timers w = [] \/ exists t, timers w = [t] /\ timeout (comp w) = Some (tm_id t).
Proof. intros [H|(t&?&_&_&?&_)]; [by left | right; eauto]. Qed.

Lemma validate_body_wf cfg force w :
  (timers w = [] \/ exists t, timers w = [t] /\ timeout (comp w) = Some (tm_id t)) ->
  wf_rest w -> wf (validate_body cfg force w).
Proof.
  intros Hsh [Hs He Ht Hp Hth]. split.
  - right. eexists. split.
    + simpl. destruct Hsh as [->|(t&->&->)]; simpl;
        [by destruct (timeout (comp w)) | by rewrite Nat.eqb_refl].
    + simpl. repeat split; try done.
      * apply lookup_insert_eq.
      * eapply Forall_impl; [exact Ht|]. intros tk (_&_&_&?). simpl. lia.
  - split; simpl.
    + intros s Hs'. destruct (Hs s Hs'). eauto with stform.
    + done.
    + eapply Forall_impl; [exact Ht|]. intros tk. apply task_ok_mono. lia.
    + intros q Hq. apply lookup_insert_is_Some in Hq.
      destruct Hq as [<-|[_ Hq]]; [lia|]. specialize (Hp q Hq). lia.
    + eapply Forall_impl; [exact Hth|]. simpl. intros q [? ?].
      split; [lia|]. rewrite lookup_insert_ne; [done|lia].
Qed.

Lemma validate_wf cfg force w : wf w -> wf (validate cfg force w).
Proof.
  intros [HT HR]. unfold validate.
  destruct (validationReject (comp w)) as [p|] eqn:ER;
    [destruct (target (comp w)) eqn:Etg|].
  - apply validate_body_wf; [exact (timer_ok_shape _ HT) | by apply wf_rest_settle].
  - destruct HR as [Hs He Ht Hp Hth]. split; [eapply timer_ok_frame; eauto|].
    split; simpl.
    + intros s Hs'. destruct (Hs s Hs'). eauto with stform.
    + done.
    + eapply Forall_impl; [exact Ht|]. intros tk. apply task_ok_mono. lia.
    + intros q Hq. specialize (Hp q Hq). lia.
    + constructor.
      * split; [lia|]. destruct (promises w !! fresh w) eqn:E; [|done].
        specialize (Hp (fresh w) ltac:(by rewrite E)). lia.
      * eapply Forall_impl; [exact Hth|]. simpl. intros q [? ?]. split; [lia|done].
  - apply validate_body_wf; [apply timer_ok_shape, HT | done].
Qed.

Lemma finish_timers p v ok errs w : timers (finish p v ok errs w) = timers w.
Proof. unfold finish. by destruct (target (comp w)). Qed.

Lemma finish_wf_rest p v ok errs w :
  wf_rest w -> state_ok (mkIValidation ok true errs v) -> fresh_value (fresh w) v ->
  wf_rest (finish p v ok errs w).
Proof.
  intros HR Hok Hfv. unfold finish.
  assert (wf_rest (mkWorld (set_state (comp w) (Some (mkIValidation ok true errs v)))
    (dom w) (timers w) (promises w) (tasks w) (events w ++ [mkIValidation ok true errs v])
    (threw w) (listeners w) (log w) (fresh w))) as H.
  { destruct HR as [Hs He Ht Hp Hth]. split; simpl; try done.
    - intros s [= <-]. done.
    - apply Forall_app_2; auto. }
  destruct (target (comp w)); [|done].
  exact (wf_rest_settle (with_dom _ _) _ _ (wf_rest_with_dom _ _ H)).
Qed.

Lemma finish_timer_ok p v ok errs w :
  timer_ok w -> (forall t, timers w = [t] -> p <> tm_promise t) ->
  timer_ok (finish p v ok errs w).
Proof.
  intros [H|(t&Ht&?&?&?&Hpend&?)] Hp; unfold finish;
    destruct (target (comp w)); [by left|by left|right..]; exists t; simpl;
    repeat split; auto.
  unfold resolve. rewrite settle_other; auto.
Qed.

(** A pass that finishes publishes a well-formed state. *)
Lemma state_ok_true v : state_ok (mkIValidation true true [] v).
Proof. by split. Qed.

(** One iteration of the loop keeps [valid] and [errors] in step. *)
Lemma locals_step {A} b ok (errs : list A) (x : A) :
  (b = true <-> errs = []) ->
  (b && ok = true <-> (if ok then errs else errs ++ [x]) = []).
Proof.
  intros H. destruct ok; simpl; [by rewrite andb_true_r|].
  rewrite andb_false_r. split; [discriminate|by destruct errs].
Qed.

Lemma state_ok_step b ok errs x v :
  (b = true <-> errs = []) ->
  state_ok (mkIValidation (b && ok) true (if ok then errs else errs ++ [x]) v).
Proof. intros Hiff. split; [done|]. by apply locals_step. Qed.

#[export] Hint Resolve state_ok_true state_ok_step : stform.

Lemma wf_no_timer w : timers w = [] -> wf_rest w -> wf w.
Proof. intros H HR. split; [by left|done]. Qed.

Lemma start_loop_timers p v vs w : timers (start_loop p v vs w) = timers w.
Proof. destruct vs; [apply finish_timers|done]. Qed.

Lemma start_loop_wf_rest p v vs w :
  wf_rest w -> fresh_value (fresh w) v -> p < fresh w -> wf_rest (start_loop p v vs w).
Proof.
  intros HR Hfv Hp. destruct vs as [|vd vs]; simpl.
  - apply finish_wf_rest; auto with stform.
  - apply wf_rest_with_tasks; [done|]. apply Forall_app_2; [apply HR|].
    constructor; [|done]. repeat split; simpl; try done; congruence.
Qed.

Lemma run_pass_wf p v w :
  wf_rest w -> timers w = [] -> fresh_value (fresh w) v -> p < fresh w ->
  wf (run_pass p v w).
Proof.
  intros HR Ht Hfv Hp. unfold run_pass.
  destruct (target (comp w)) as [tg|]; [|by apply wf_no_timer].
  destruct (is_radio (dom w) tg).
  - apply wf_no_timer; [done|].
    exact (wf_rest_settle (with_dom _ _) _ _ (wf_rest_with_dom _ _ (wf_rest_with_dom _ _ HR))).
  - apply wf_no_timer; [by rewrite start_loop_timers|].
    apply start_loop_wf_rest; auto with stform.
Qed.

(** In a well-formed world a pending timer is the only one. *)
Lemma timer_ok_in w tm :
  timer_ok w -> In tm (timers w) ->
  timers w = [tm] /\ validationReject (comp w) = Some (tm_promise tm) /\
  promises w !! tm_promise tm = Some Pending /\
  Forall (fun tk => tk_promise tk <> tm_promise tm) (tasks w).
Proof.
  intros [H|(t&Ht&_&?&_&?&?)] Hin; rewrite ?H, ?Ht in Hin; [done|].
  destruct Hin as [<-|[]]. auto.
Qed.

Lemma fire_wf w tm : wf w -> In tm (timers w) -> wf (fire tm w).
Proof.
  intros [HT HR] Hin. destruct (timer_ok_in _ _ HT Hin) as (Ht & _ & Hpend & _).
  assert (Hp : tm_promise tm < fresh w) by (apply (wf_promises _ HR); eauto).
  unfold fire. rewrite Ht. simpl. rewrite Nat.eqb_refl. simpl.
  set (w0 := mkWorld _ _ [] _ _ _ _ _ _ _).
  assert (HR0 : wf_rest w0) by (eapply wf_rest_frame; eauto; simpl; lia).
  destruct (must_run _ _ _).
  - apply run_pass_wf; [done | done | apply getValue_fresh | simpl; lia].
  - destruct (state (comp w)); apply wf_no_timer; try done.
    exact (wf_rest_settle w0 _ _ HR0).
Qed.

Lemma resume_wf cfg k w : wf w -> wf (resume cfg k w).
Proof.
  intros [HT HR]. unfold resume.
  destruct (tasks w !! k) as [tk|] eqn:Ek; [|by split].
  pose proof (Forall_lookup_1 _ _ _ _ (wf_tasks _ HR) Ek) as (Hne & Hiff & Hfv & Hlt).
  assert (Hpt : forall t, timers w = [t] -> Forall (fun tk' => tk_promise tk' <> tm_promise t) (tasks w)).
  { intros t Ht. destruct HT as [H|(t'&Ht'&_&_&_&_&?)]; [congruence|].
    rewrite Ht in Ht'. by simplify_eq. }
  assert (Hdel : forall t, timers w = [t] ->
    Forall (fun tk' => tk_promise tk' <> tm_promise t) (delete k (tasks w)))
    by (intros; by apply Forall_delete, Hpt).
  assert (HRdel : wf_rest (with_tasks w (delete k (tasks w))))
    by (apply wf_rest_with_tasks, Forall_delete, HR; done).
  destruct (tk_todo tk) as [|vd todo] eqn:Etodo; [by split; [apply timer_ok_with_tasks|]|].
  destruct (vrun vd (tk_value tk)) as [ok|]; [|by split; [apply timer_ok_with_tasks|]].
  destruct todo as [|vd' todo'].
  - split.
    + apply finish_timer_ok; [by apply timer_ok_with_tasks|].
      intros t Ht. exact (Forall_lookup_1 _ _ _ _ (Hpt t Ht) Ek).
    + apply finish_wf_rest; auto with stform.
  - split.
    + apply timer_ok_with_tasks; [done|]. intros t Ht.
      apply Forall_insert; [by apply Hpt|]. exact (Forall_lookup_1 _ _ _ _ (Hpt t Ht) Ek).
    + apply wf_rest_with_tasks; [done|]. apply Forall_insert; [apply HR|].
      split; [done|]. split; [by apply locals_step|]. done.
Qed.

Lemma dispatch_event_wf cfg ty tg w : wf w -> wf (dispatch_event cfg ty tg w).
Proof.
  unfold dispatch_event. generalize (listeners w) as ls. intros ls. revert w.
  induction ls as [|l ls IH]; intros w Hw; simpl; [done|]. apply IH.
  destruct (String.eqb l.1 ty); [|done]. unfold onTargetEvent.
  case_decide; [by apply validate_wf|done].
Qed.

Lemma connect_names_wf names w : wf w -> wf (connect_names names w).
Proof.
  revert w. induction names; intros w Hw; simpl; [done|].
  apply IHnames. eapply wf_frame; eauto. simpl. lia.
Qed.

Lemma disconnect_names_wf names w : wf w -> wf (disconnect_names names w).
Proof.
  revert w. induction names; intros w Hw; simpl; [done|].
  apply IHnames. eapply wf_frame; eauto. simpl. lia.
Qed.

Lemma onAfterRender_wf cfg w : wf w -> wf (onAfterRender cfg w).
Proof.
  intros Hw. unfold onAfterRender.
  repeat case_match_goal; eapply wf_frame; eauto; simpl;
    try reflexivity; try lia; rewrite <- ?E; reflexivity.
Qed.

Lemma step_wf cfg w w' : wf w -> step cfg w w' -> wf w'.
Proof.
  intros Hw Hs. destruct Hs.
  - by apply validate_wf.
  - by apply fire_wf.
  - by apply resume_wf.
  - by apply dispatch_event_wf.
  - eapply wf_frame; eauto.
  - by apply connect_names_wf.
  - by apply disconnect_names_wf.
  - by apply onAfterRender_wf.
Qed.

Lemma initial_wf w : initial w -> wf w.
Proof.
  intros (_&_&_&Hs&Ht&Hp&Htk&He&Hth). apply wf_no_timer; [done|].
  split; rewrite ?Hs, ?Hp, ?Htk, ?He, ?Hth; try done.
  intros q Hq. rewrite lookup_empty in Hq. by destruct Hq.
Qed.

(** C1 (invariant).  In every world reachable from a freshly constructed
    component, whatever the interleaving of [validate] calls, timer
    firings, resumed [await]s, DOM events, user edits, (dis)connection
    and re-rendering: at most one debounce timer is pending and it
    belongs to the latest call, whose promise is pending; every
    published state and every dispatched event is validated and valid
    exactly when its error list is empty. *)
Theorem reachable_wf cfg w : reachable cfg w -> wf w.
Proof.
  intros (w0 & Hinit & Hstar).
  eapply (star_invariant (step cfg) wf); eauto using step_wf, initial_wf.
Qed.

(** ** What one call of [validate] and one firing do *)

Lemma fresh_not_promise w : wf_rest w -> promises w !! fresh w = None.
Proof.
  intros HR. destruct (promises w !! fresh w) eqn:E; [|done].
  specialize (wf_promises _ HR (fresh w) ltac:(by rewrite E)). lia.
Qed.

Lemma not_threw_ge w n : wf_rest w -> fresh w <= n -> n ∉ threw w.
Proof.
  intros HR Hle Hin.
  destruct (proj1 (Forall_forall _ _) (wf_threw _ HR) n Hin). lia.
Qed.

Lemma call_result_fulfilled w n b :
  promises w !! n = Some (Fulfilled b) -> n ∉ threw w -> call_result w n = Some (Returns b).
Proof. intros Hp Hn. unfold call_result. by rewrite decide_False, Hp. Qed.

Lemma call_result_rejected w n :
  promises w !! n = Some Rejected -> n ∉ threw w -> call_result w n = Some (Returns false).
Proof. intros Hp Hn. unfold call_result. by rewrite decide_False, Hp. Qed.

Lemma getValue_fields c c' d o :
  target c' = target c -> el c' = el c -> getValue c' d o = getValue c d o.
Proof. intros Ht He. unfold getValue, getInputValue. by rewrite Ht, He. Qed.

(** A call with a bound target stores its reject handle and timer, and
    leaves one timer pending, for its own fresh promise. *)
Lemma validate_bound cfg force w tg :
  wf w -> target (comp w) = Some tg ->
  let w1 := validate cfg force w in
  timers w1 = [mkTimer (fresh w) (debounce_delay cfg (comp w)) (fresh w) force] /\
  promises w1 !! fresh w = Some Pending /\
  target (comp w1) = target (comp w) /\ el (comp w1) = el (comp w) /\
  validators (comp w1) = validators (comp w) /\ state (comp w1) = state (comp w) /\
  validationReject (comp w1) = Some (fresh w) /\
  dom w1 = dom w /\ tasks w1 = tasks w /\ events w1 = events w /\
  threw w1 = threw w /\ fresh w1 = S (fresh w).
Proof.
  intros [HT HR] Etg. unfold validate.
  destruct (timer_ok_shape _ HT) as [Ht|(t&Ht&Eto)];
    destruct (validationReject (comp w)); rewrite ?Etg; unfold validate_body; simpl;
    rewrite ?Ht, ?Eto; simpl; rewrite ?Nat.eqb_refl;
    (split; [by destruct (timeout (comp w)) | split; [apply lookup_insert_eq | done]]).
Qed.

Lemma fire_single tm w :
  timers w = [tm] ->
  fire tm w =
  let v := getValue (comp w) (dom w) (fresh w) in
  let w0 := mkWorld (comp w) (dom w) [] (promises w) (tasks w) (events w) (threw w)
              (listeners w) (log w) (S (fresh w)) in
  if must_run (tm_force tm) (state (comp w)) v then run_pass (tm_promise tm) v w0
  else match state (comp w) with
       | Some s => with_promises w0 (resolve (tm_promise tm) (valid s) (promises w0))
       | None => w0
       end.
Proof. intros Ht. unfold fire. rewrite Ht. simpl. by rewrite Nat.eqb_refl. Qed.

Lemma with_tasks_id w : with_tasks w (tasks w) = w.
Proof. by destruct w. Qed.

Lemma finish_facts p v ok errs w tg :
  target (comp w) = Some tg -> promises w !! p = Some Pending ->
  let w' := finish p v ok errs w in
  state (comp w') = Some (mkIValidation ok true errs v) /\
  events w' = events w ++ [mkIValidation ok true errs v] /\
  promises w' !! p = Some (Fulfilled ok) /\ threw w' = threw w /\ tasks w' = tasks w /\
  dom w' = setCustomValidity (dom w) tg (if ok then "" else " ").
Proof.
  intros Etg Hp. unfold finish. rewrite Etg. simpl.
  repeat split; try done. by apply settle_pending.
Qed.

Lemma passes_return vd v ok : vrun vd v = VReturn ok -> passes vd v = ok.
Proof. unfold passes. by intros ->. Qed.

Lemma ref_valid_cons vd vs v : ref_valid (vd :: vs) v = passes vd v && ref_valid vs v.
Proof. done. Qed.

Lemma ref_errors_cons cfg vd vs v :
  ref_errors cfg (vd :: vs) v =
  (if passes vd v then [] else [assoc (validatorName cfg) (vprops vd)]) ++ ref_errors cfg vs v.
Proof. unfold ref_errors. simpl. by destruct (passes vd v). Qed.

#[export] Hint Rewrite ref_valid_cons ref_errors_cons : stform.

Lemma sched_last cfg w ts tk :
  timers w = [] -> tasks w = ts ++ [tk] -> sched cfg w = resume cfg (length ts) w.
Proof.
  intros Ht Htk. unfold sched. rewrite Ht, Htk.
  destruct (ts ++ [tk]) as [|t l] eqn:E; [by destruct ts|].
  f_equal. rewrite <- E, length_app. simpl. lia.
Qed.

Lemma resume_last cfg w ts tk vd rest ok :
  tasks w = ts ++ [tk] -> tk_todo tk = vd :: rest -> vrun vd (tk_value tk) = VReturn ok ->
  resume cfg (length ts) w =
  let valid' := tk_valid tk && ok in
  let errs' := if ok then tk_errors tk
               else tk_errors tk ++ [assoc (validatorName cfg) (vprops vd)] in
  match rest with
  | [] => finish (tk_promise tk) (tk_value tk) valid' errs' (with_tasks w ts)
  | _ => with_tasks w (ts ++ [mkTask (tk_promise tk) (tk_value tk) rest valid' errs'])
  end.
Proof.
  intros Htk Etodo Erun. unfold resume. rewrite Htk.
  rewrite list_lookup_middle by done. rewrite Etodo, Erun.
  rewrite delete_middle, app_nil_r. destruct rest; [done|].
  rewrite insert_app_r_alt, Nat.sub_diag by lia. done.
Qed.

(** Resuming the newest suspended callback, one validator at a time,
    computes the reference result of the validators it still awaits. *)
Lemma drain_loop cfg todo ts tk w :
  timers w = [] -> tasks w = ts ++ [tk] -> tk_todo tk = todo -> todo <> [] ->
  no_throw todo ->
  drain cfg (length todo) w =
  finish (tk_promise tk) (tk_value tk) (tk_valid tk && ref_valid todo (tk_value tk))
    (tk_errors tk ++ ref_errors cfg todo (tk_value tk)) (with_tasks w ts).
Proof.
  revert tk w. induction todo as [|vd rest IH]; intros tk w Ht Htk Etodo Hne Hnt; [done|].
  inversion Hnt as [|? ? Hvd Hrest]; subst.
  destruct (vrun vd (tk_value tk)) as [ok|] eqn:Erun; [|by destruct (Hvd _ Erun)].
  change (drain cfg (length (vd :: rest)) w) with (drain cfg (length rest) (sched cfg w)).
  rewrite (sched_last cfg w ts tk Ht Htk), (resume_last cfg w ts tk vd rest ok Htk Etodo Erun).
  rewrite ref_valid_cons, ref_errors_cons, (passes_return _ _ _ Erun).
  destruct rest as [|vd' rest']; cbv beta zeta iota.
  - destruct ok; unfold ref_valid, ref_errors; simpl;
      by rewrite ?andb_true_r, ?andb_false_r, ?app_nil_r.
  - rewrite (IH (mkTask (tk_promise tk) (tk_value tk) (vd' :: rest') (tk_valid tk && ok)
      (if ok then tk_errors tk else tk_errors tk ++ [assoc (validatorName cfg) (vprops vd)]))
      (with_tasks w (ts ++ [mkTask (tk_promise tk) (tk_value tk) (vd' :: rest') (tk_valid tk && ok)
      (if ok then tk_errors tk else tk_errors tk ++ [assoc (validatorName cfg) (vprops vd)])]))
      Ht eq_refl eq_refl ltac:(done) Hrest).
    destruct ok; simpl; by rewrite ?andb_true_r, ?andb_false_r, <- ?app_assoc.
Qed.

(** Entering the loop and draining it: the reference pass. *)
Lemma drain_start_loop cfg p v vs w :
  timers w = [] -> no_throw vs ->
  drain cfg (length vs) (start_loop p v vs w) = finish p v (ref_valid vs v) (ref_errors cfg vs v) w.
Proof.
  intros Ht Hnt. destruct vs as [|vd vs']; [done|].
  unfold start_loop.
  rewrite (drain_loop cfg (vd :: vs') (tasks w) (mkTask p v (vd :: vs') true [])) by done.
  destruct w; reflexivity.
Qed.

Lemma sched_timer cfg w tm ts : timers w = tm :: ts -> sched cfg w = fire tm w.
Proof. intros Ht. unfold sched. by rewrite Ht. Qed.

(** A call whose pass runs on a non-radio target: once its timer fires
    the callback has marked the target invalid and entered the loop over
    the validators. *)
Lemma validate_fire cfg force w tg e :
  wf w -> target (comp w) = Some tg -> get_el (dom w) tg = Some e ->
  String.eqb (el_type e) "radio" = false ->
  must_run force (state (comp w)) (getValue (comp w) (dom w) (S (fresh w))) = true ->
  exists W, timers W = [] /\ promises W !! fresh w = Some Pending /\ tasks W = tasks w /\
    threw W = threw w /\ target (comp W) = Some tg /\
    dom W = setCustomValidity (dom w) tg " " /\ events W = events w /\
    sched cfg (validate cfg force w) =
    start_loop (fresh w) (getValue (comp w) (dom w) (S (fresh w))) (validators (comp w)) W.
Proof.
  intros Hw Etg Eel Hnr Hmr.
  destruct (validate_bound cfg force w tg Hw Etg)
    as (Ht & Hp & Etg1 & Eel1 & Evs1 & Es1 & _ & Ed & Etk & Ee & Eth & Ef).
  set (w1 := validate cfg force w) in *.
  rewrite (sched_timer cfg w1 _ [] Ht), (fire_single _ w1 Ht).
  cbv zeta. simpl (tm_force _). simpl (tm_promise _).
  rewrite Es1, Ed, Ef, (getValue_fields (comp w) (comp w1)), Hmr by done.
  unfold run_pass. simpl (target _). rewrite Etg1, Etg. simpl (dom _).
  unfold is_radio. rewrite Eel, Hnr. cbn [comp]. rewrite Evs1.
  eexists. do 7 (split; [shelve|]). reflexivity. Unshelve.
  all: simpl; rewrite ?Etg1, ?Etg, ?Ee, ?Eth, ?Ed, ?Etk; done.
Qed.

(** The same call, drained: the pass finishes with the reference result. *)
Lemma validate_then_drain cfg force w tg e :
  wf w -> target (comp w) = Some tg -> get_el (dom w) tg = Some e ->
  String.eqb (el_type e) "radio" = false -> no_throw (validators (comp w)) ->
  must_run force (state (comp w)) (getValue (comp w) (dom w) (S (fresh w))) = true ->
  let v := getValue (comp w) (dom w) (S (fresh w)) in
  let vs := validators (comp w) in
  exists W, promises W !! fresh w = Some Pending /\ target (comp W) = Some tg /\
    dom W = setCustomValidity (dom w) tg " " /\ events W = events w /\
    threw W = threw w /\
    drain cfg (S (length vs)) (validate cfg force w) =
    finish (fresh w) v (ref_valid vs v) (ref_errors cfg vs v) W.
Proof.
  intros Hw Etg Eel Hnr Hnt Hmr v vs.
  destruct (validate_fire cfg force w tg e Hw Etg Eel Hnr Hmr)
    as (W & Ht & Hp & _ & Eth & EtgW & Ed & Ee & Esched).
  exists W. do 5 (split; [done|]).
  simpl drain. rewrite Esched. by apply drain_start_loop.
Qed.

(** C2 (functional, equivalence).  When the pass of a call runs (it is
    forced, or there is no published state, or the value read differs
    under [!==]) on a bound non-radio target whose validators do not
    throw, then after the debounce timer and one resumption per
    validator: the published state is validated, holds the value read,
    is valid exactly when every validator passes, and lists the
    [VALIDATOR_NAME] of each failing validator in validator-list order;
    one ["validation"] event carries that state; the call returns
    [valid]; and the target's custom validity is [""] when valid and
    [" "] otherwise. *)
Theorem validate_runs_reference cfg force w tg e :
  wf w -> target (comp w) = Some tg -> get_el (dom w) tg = Some e ->
  String.eqb (el_type e) "radio" = false -> no_throw (validators (comp w)) ->
  must_run force (state (comp w)) (getValue (comp w) (dom w) (S (fresh w))) = true ->
  let v := getValue (comp w) (dom w) (S (fresh w)) in
  let vs := validators (comp w) in
  let s := mkIValidation (ref_valid vs v) true (ref_errors cfg vs v) v in
  let w2 := drain cfg (S (length vs)) (validate cfg force w) in
  state (comp w2) = Some s /\ events w2 = events w ++ [s] /\
  call_result w2 (fresh w) = Some (Returns (ref_valid vs v)) /\
  el_validity <$> get_el (dom w2) tg = Some (if ref_valid vs v then "" else " ").
Proof.
  intros Hw Etg Eel Hnr Hnt Hmr v vs s w2.
  destruct (validate_then_drain cfg force w tg e Hw Etg Eel Hnr Hnt Hmr)
    as (W & Hp & EtgW & Ed & Ee & Eth & Edr).
  subst w2. fold v vs in Edr. rewrite Edr.
  destruct (finish_facts (fresh w) v (ref_valid vs v) (ref_errors cfg vs v) W tg EtgW Hp)
    as (Es' & Ee' & Hp' & Eth' & _ & Ed').
  split; [done|]. split; [by rewrite Ee', Ee|]. split.
  - apply call_result_fulfilled; [done|]. rewrite Eth', Eth.
    apply not_threw_ge; [apply Hw|lia].
  - rewrite Ed', Ed, !get_el_setCustomValidity, Eel. simpl. by rewrite !decide_True.
Qed.

Lemma promise_not_threw w p : wf_rest w -> is_Some (promises w !! p) -> p ∉ threw w.
Proof.
  intros HR [x Hx] Hin.
  destruct (proj1 (Forall_forall _ _) (wf_threw _ HR) p Hin) as [_ Hn]. congruence.
Qed.

(** C3 (functional).  The skip rule: an unforced call on a bound target
    whose freshly read value is strictly equal to the published one
    resolves, once its timer fires, with the published [valid], without
    running a validator: the state, the events, the suspended callbacks
    and the DOM are unchanged. *)
Theorem validate_skip cfg w tg s :
  wf w -> target (comp w) = Some tg -> state (comp w) = Some s ->
  strict_eq (value s) (getValue (comp w) (dom w) (S (fresh w))) = true ->
  let w2 := drain cfg 1 (validate cfg false w) in
  call_result w2 (fresh w) = Some (Returns (valid s)) /\ state (comp w2) = Some s /\
  events w2 = events w /\ tasks w2 = tasks w /\ dom w2 = dom w.
Proof.
  intros Hw Etg Es Heq w2.
  destruct (validate_bound cfg false w tg Hw Etg)
    as (Ht & Hp & Etg1 & Eel1 & _ & Es1 & _ & Ed & Etk & Ee & Eth & Ef).
  subst w2. set (w1 := validate cfg false w) in *. simpl drain.
  rewrite (sched_timer cfg w1 _ [] Ht), (fire_single _ w1 Ht).
  cbv zeta. simpl (tm_force _). simpl (tm_promise _).
  rewrite Es1, Es, Ed, Ef, (getValue_fields (comp w) (comp w1)) by done.
  unfold must_run. rewrite Heq. simpl. rewrite Es1, Es, Ee, Etk.
  split; [|done]. apply call_result_fulfilled; [by apply settle_pending|].
  simpl. rewrite Eth. apply not_threw_ge; [apply Hw|lia].
Qed.

(** C4 (safety, error).  Cancellation: a call made while the previous
    call's promise is pending rejects that promise, so the previous call
    returns [false] (the rejection is caught, never thrown), and the
    only pending timer afterwards is the new call's. *)
Theorem validate_cancels cfg force w tg p :
  wf w -> target (comp w) = Some tg -> validationReject (comp w) = Some p ->
  promises w !! p = Some Pending ->
  let w1 := validate cfg force w in
  call_result w1 p = Some (Returns false) /\
  timers w1 = [mkTimer (fresh w) (debounce_delay cfg (comp w)) (fresh w) force].
Proof.
  intros Hw Etg Er Hp w1.
  destruct (validate_bound cfg force w tg Hw Etg) as (Ht & _ & _ & _ & _ & _ & _ & _ & _ & _ & Eth & _).
  subst w1. split; [|done]. apply call_result_rejected.
  - unfold validate. rewrite Er, Etg. simpl.
    assert (p < fresh w) by (apply (wf_promises _ (proj2 Hw)); by rewrite Hp).
    rewrite lookup_insert_ne by lia. by apply settle_pending.
  - rewrite Eth. apply promise_not_threw; [apply Hw|by rewrite Hp].
Qed.

(** C5 (functional).  The skip rule never applies to a date input that
    holds a date, nor to a number input whose [valueAsNumber] is NaN:
    [valueAsDate] builds a new [Date] object at every read and [!==]
    compares objects by identity, and NaN is unequal to itself, so every
    unforced call on such a field reruns every validator. *)
Theorem skip_rule_never_for_date_or_nan w tg e :
  wf w -> target (comp w) = Some tg -> get_el (dom w) tg = Some e -> el_tag e = TInput ->
  ((el_type e = "date" /\ exists tm, el_valueAsDate e = Some tm) \/
   (el_type e = "number" /\ el_valueAsNumber e = NaN)) ->
  must_run false (state (comp w)) (getValue (comp w) (dom w) (S (fresh w))) = true.
Proof.
  intros [_ HR] Etg Eel Etag Hcase. unfold must_run.
  destruct (state (comp w)) as [s|] eqn:Es; [|done].
  destruct (wf_state _ HR s Es) as [_ Hfv].
  unfold getValue. rewrite Etg, Eel, Etag.
  destruct Hcase as [[Ety [tm Ed]]|[Ety En]].
  - replace (getInputValue (comp w) (dom w) (S (fresh w)) e) with (FDate (S (fresh w)) tm)
      by (unfold getInputValue; by rewrite Ety, Ed).
    rewrite strict_eq_sym, strict_eq_date_fresh; [done|].
    intros o t Hv. rewrite Hv in Hfv. simpl in Hfv. lia.
  - replace (getInputValue (comp w) (dom w) (S (fresh w)) e) with (FNumber NaN)
      by (unfold getInputValue; by rewrite Ety, En).
    by rewrite strict_eq_sym, strict_eq_NaN_l.
Qed.

(** ** Settled outcomes stay settled *)

Lemma keeps_refl w : keeps w w.
Proof. by split. Qed.

Lemma keeps_trans w1 w2 w3 : keeps w1 w2 -> keeps w2 w3 -> keeps w1 w3.
Proof. intros [E1 H1] [E2 H2]. split; [congruence|eauto]. Qed.

Lemma keeps_same w w' : threw w' = threw w -> promises w' = promises w -> keeps w w'.
Proof. intros E1 E2. split; [done|]. rewrite E2. eauto. Qed.

Lemma keeps_settle w w' p r :
  threw w' = threw w -> promises w' = settle p r (promises w) -> keeps w w'.
Proof. intros E1 E2. split; [done|]. rewrite E2. eauto using settle_keeps. Qed.

#[export] Hint Resolve keeps_refl keeps_same : stform.

Lemma finish_keeps p v ok errs w : keeps w (finish p v ok errs w).
Proof. unfold finish. destruct (target (comp w)); [by eapply keeps_settle|by apply keeps_same]. Qed.

Lemma start_loop_keeps p v vs w : keeps w (start_loop p v vs w).
Proof. destruct vs; [apply finish_keeps|by apply keeps_same]. Qed.

Lemma run_pass_keeps p v w : keeps w (run_pass p v w).
Proof.
  unfold run_pass. destruct (target (comp w)) as [tg|]; [|apply keeps_refl].
  destruct (is_radio (dom w) tg); [by eapply keeps_settle|].
  eapply keeps_trans; [|apply start_loop_keeps]. by apply keeps_same.
Qed.

Lemma fire_keeps tm w : keeps w (fire tm w).
Proof.
  unfold fire. destruct (must_run _ _ _).
  - eapply keeps_trans; [|apply run_pass_keeps]. by apply keeps_same.
  - destruct (state (comp w)); [by eapply keeps_settle|by apply keeps_same].
Qed.

Lemma resume_keeps cfg k w : keeps w (resume cfg k w).
Proof.
  unfold resume. destruct (tasks w !! k) as [tk|]; [|apply keeps_refl].
  destruct (tk_todo tk) as [|vd todo]; [by apply keeps_same|].
  destruct (vrun vd (tk_value tk)); [|by apply keeps_same].
  destruct todo; [|by apply keeps_same].
  eapply keeps_trans; [|apply finish_keeps]. by apply keeps_same.
Qed.

Lemma drain_keeps cfg k w : keeps w (drain cfg k w).
Proof.
  revert w. induction k as [|k IH]; intros w; simpl; [apply keeps_refl|].
  eapply keeps_trans; [|apply IH]. unfold sched.
  destruct (timers w); [destruct (tasks w); [apply keeps_refl|apply resume_keeps]|apply fire_keeps].
Qed.

Lemma call_result_keeps w w' n r :
  keeps w w' -> call_result w n = Some r -> call_result w' n = Some r.
Proof.
  intros [Eth Hp]. unfold call_result. rewrite Eth.
  case_decide; [done|]. destruct (promises w !! n) as [[]|] eqn:E; try done;
    rewrite (Hp _ _ E) by done; done.
Qed.

Lemma drain_add cfg a b w : drain cfg (a + b) w = drain cfg b (drain cfg a w).
Proof. revert w. induction a; intros w; simpl; auto. Qed.

Lemma call_result_pending w n :
  promises w !! n = Some Pending -> n ∉ threw w -> call_result w n = None.
Proof. intros Hp Hn. unfold call_result. by rewrite decide_False, Hp. Qed.

(** C6 (functional).  On a radio target the pass does not consult the
    validators: the call returns [true] whatever they would say, the
    published state and the events stay as they were, and the target's
    custom validity is cleared. *)
Theorem validate_radio cfg force w tg e :
  wf w -> target (comp w) = Some tg -> get_el (dom w) tg = Some e ->
  String.eqb (el_type e) "radio" = true ->
  must_run force (state (comp w)) (getValue (comp w) (dom w) (S (fresh w))) = true ->
  let w2 := drain cfg 1 (validate cfg force w) in
  call_result w2 (fresh w) = Some (Returns true) /\ state (comp w2) = state (comp w) /\
  events w2 = events w /\ el_validity <$> get_el (dom w2) tg = Some "".
Proof.
  intros Hw Etg Eel Hr Hmr w2.
  destruct (validate_bound cfg force w tg Hw Etg)
    as (Ht & Hp & Etg1 & Eel1 & Evs1 & Es1 & _ & Ed & Etk & Ee & Eth & Ef).
  subst w2. set (w1 := validate cfg force w) in *. simpl drain.
  rewrite (sched_timer cfg w1 _ [] Ht), (fire_single _ w1 Ht).
  cbv zeta. simpl (tm_force _). simpl (tm_promise _).
  rewrite Es1, Ed, Ef, (getValue_fields (comp w) (comp w1)), Hmr by done.
  unfold run_pass. simpl (target _). rewrite Etg1, Etg. simpl (dom _).
  unfold is_radio. rewrite Eel, Hr. simpl.
  split; [|split; [done|split; [done|]]].
  - apply call_result_fulfilled; [by apply settle_pending|].
    simpl. rewrite Eth. apply not_threw_ge; [apply Hw|lia].
  - rewrite !get_el_setCustomValidity, Eel. simpl. by rewrite !decide_True.
Qed.

(** A pending promise whose timer has fired and that no suspended
    callback will settle stays pending: resuming callbacks only settles
    their own promises. *)
Lemma resume_orphan cfg k w n :
  timers w = [] -> Forall (fun tk => tk_promise tk <> n) (tasks w) ->
  promises w !! n = Some Pending ->
  let w' := resume cfg k w in
  timers w' = [] /\ Forall (fun tk => tk_promise tk <> n) (tasks w') /\
  promises w' !! n = Some Pending /\ threw w' = threw w.
Proof.
  intros Ht Htk Hp. unfold resume.
  destruct (tasks w !! k) as [tk|] eqn:Ek; [|done].
  assert (Hne : tk_promise tk <> n) by exact (Forall_lookup_1 _ _ _ _ Htk Ek).
  assert (Hdel : Forall (fun tk => tk_promise tk <> n) (delete k (tasks w)))
    by by apply Forall_delete.
  destruct (tk_todo tk) as [|vd todo]; [done|].
  destruct (vrun vd (tk_value tk)) as [ok|]; [|done].
  destruct todo as [|vd' todo'].
  - unfold finish. simpl. destruct (target (comp w)); simpl; [|done].
    repeat split; try done. unfold resolve. by rewrite settle_other.
  - simpl. repeat split; try done. by apply Forall_insert.
Qed.

Lemma drain_orphan cfg k w n :
  timers w = [] -> Forall (fun tk => tk_promise tk <> n) (tasks w) ->
  promises w !! n = Some Pending -> n ∉ threw w ->
  call_result (drain cfg k w) n = None.
Proof.
  revert w. induction k as [|k IH]; intros w Ht Htk Hp Hn; simpl;
    [by apply call_result_pending|].
  unfold sched. rewrite Ht. destruct (tasks w) eqn:E; [by apply IH; rewrite ?E|].
  destruct (resume_orphan cfg (pred (length (t :: l))) w n Ht ltac:(by rewrite E) Hp) as (?&?&?&Eth).
  apply IH; try done. by rewrite Eth.
Qed.

(** C7 (error).  When the first validator of a pass throws, [validate]
    does not throw: the exception escapes the timer callback, whose
    promise is then never settled, so the call is still pending after
    any number [k] of steps of the scheduler [drain] (only a later
    [validate] call would reject it). *)
Theorem throwing_validator_hangs cfg force w tg e vd vs :
  wf w -> target (comp w) = Some tg -> get_el (dom w) tg = Some e ->
  String.eqb (el_type e) "radio" = false ->
  validators (comp w) = vd :: vs -> (forall v, vrun vd v = VThrow) ->
  must_run force (state (comp w)) (getValue (comp w) (dom w) (S (fresh w))) = true ->
  forall k, call_result (drain cfg k (validate cfg force w)) (fresh w) = None.
Proof.
  intros Hw Etg Eel Hnr Evs Hthrow Hmr k.
  assert (Hn : fresh w ∉ threw w) by (apply not_threw_ge; [apply Hw|lia]).
  assert (Hold : Forall (fun tk => tk_promise tk <> fresh w) (tasks w)).
  { eapply Forall_impl; [apply (wf_tasks _ (proj2 Hw))|]. intros tk (_&_&_&?). lia. }
  destruct (validate_bound cfg force w tg Hw Etg)
    as (_ & Hp1 & _ & _ & _ & _ & _ & _ & _ & _ & Eth1 & _).
  destruct k as [|k]; [simpl; apply call_result_pending; by rewrite ?Eth1|].
  destruct (validate_fire cfg force w tg e Hw Etg Eel Hnr Hmr)
    as (W & Ht & Hp & Etk & Eth & _ & _ & _ & Esched).
  simpl. rewrite Esched, Evs. unfold start_loop.
  destruct k as [|k]; [simpl; apply call_result_pending; [exact Hp | simpl; by rewrite Eth]|].
  simpl. rewrite (sched_last cfg _ (tasks W) (mkTask (fresh w) (getValue (comp w) (dom w) (S (fresh w))) (vd :: vs) true [])) by done.
  unfold resume. simpl. rewrite list_lookup_middle by done. simpl.
  rewrite Hthrow, delete_middle, app_nil_r.
  apply drain_orphan; simpl; rewrite ?Etk, ?Eth; done.
Qed.

(** The outcome of the call in each branch of the timer callback. *)
Lemma reference_call_result cfg force w tg e :
  wf w -> target (comp w) = Some tg -> get_el (dom w) tg = Some e ->
  String.eqb (el_type e) "radio" = false -> no_throw (validators (comp w)) ->
  must_run force (state (comp w)) (getValue (comp w) (dom w) (S (fresh w))) = true ->
  call_result (drain cfg (S (length (validators (comp w)))) (validate cfg force w)) (fresh w) =
  Some (Returns (ref_valid (validators (comp w)) (getValue (comp w) (dom w) (S (fresh w))))).
Proof.
  intros Hw Etg Eel Hnr Hnt Hmr.
  destruct (validate_then_drain cfg force w tg e Hw Etg Eel Hnr Hnt Hmr)
    as (W & Hp & EtgW & _ & _ & Eth & ->).
  destruct (finish_facts (fresh w) (getValue (comp w) (dom w) (S (fresh w)))
    (ref_valid (validators (comp w)) (getValue (comp w) (dom w) (S (fresh w))))
    (ref_errors cfg (validators (comp w)) (getValue (comp w) (dom w) (S (fresh w)))) W tg EtgW Hp)
    as (_ & _ & Hp' & Eth' & _).
  apply call_result_fulfilled; [done|]. rewrite Eth', Eth. apply not_threw_ge; [apply Hw|lia].
Qed.

Lemma radio_call_result cfg force w tg e :
  wf w -> target (comp w) = Some tg -> get_el (dom w) tg = Some e ->
  String.eqb (el_type e) "radio" = true ->
  must_run force (state (comp w)) (getValue (comp w) (dom w) (S (fresh w))) = true ->
  call_result (drain cfg 1 (validate cfg force w)) (fresh w) = Some (Returns true).
Proof.
  intros Hw Etg Eel Hr Hmr.
  destruct (validate_bound cfg force w tg Hw Etg)
    as (Ht & Hp & Etg1 & Eel1 & _ & Es1 & _ & Ed & _ & _ & Eth & Ef).
  set (w1 := validate cfg force w) in *. simpl drain.
  rewrite (sched_timer cfg w1 _ [] Ht), (fire_single _ w1 Ht).
  cbv zeta. simpl (tm_force _). simpl (tm_promise _).
  rewrite Es1, Ed, Ef, (getValue_fields (comp w) (comp w1)), Hmr by done.
  unfold run_pass. simpl (target _). rewrite Etg1, Etg. simpl (dom _).
  unfold is_radio. rewrite Eel, Hr. simpl.
  apply call_result_fulfilled; [by apply settle_pending|].
  simpl. rewrite Eth. apply not_threw_ge; [apply Hw|lia].
Qed.

Lemma skip_call_result cfg w tg s :
  wf w -> target (comp w) = Some tg -> state (comp w) = Some s ->
  strict_eq (value s) (getValue (comp w) (dom w) (S (fresh w))) = true ->
  call_result (drain cfg 1 (validate cfg false w)) (fresh w) = Some (Returns (valid s)).
Proof.
  intros Hw Etg Es Heq.
  destruct (validate_bound cfg false w tg Hw Etg)
    as (Ht & Hp & Etg1 & Eel1 & _ & Es1 & _ & Ed & _ & _ & Eth & Ef).
  set (w1 := validate cfg false w) in *. simpl drain.
  rewrite (sched_timer cfg w1 _ [] Ht), (fire_single _ w1 Ht).
  cbv zeta. simpl (tm_force _). simpl (tm_promise _).
  rewrite Es1, Es, Ed, Ef, (getValue_fields (comp w) (comp w1)) by done.
  unfold must_run. rewrite Heq. simpl.
  apply call_result_fulfilled; [by apply settle_pending|].
  simpl. rewrite Eth. apply not_threw_ge; [apply Hw|lia].
Qed.

Lemma call_returns_verdict cfg force w tg e :
  wf w -> target (comp w) = Some tg -> get_el (dom w) tg = Some e ->
  no_throw (validators (comp w)) ->
  call_result (drain cfg (S (length (validators (comp w)))) (validate cfg force w)) (fresh w) =
  Some (Returns (verdict force w)).
Proof.
  intros Hw Etg Eel Hnt. unfold verdict. rewrite Etg.
  destruct (must_run force (state (comp w)) (getValue (comp w) (dom w) (S (fresh w)))) eqn:Hmr.
  - unfold is_radio. rewrite Eel. destruct (String.eqb (el_type e) "radio") eqn:Hr.
    + change (S ?n) with (1 + n). rewrite drain_add.
      eapply call_result_keeps; [apply drain_keeps|]. by apply (radio_call_result cfg force w tg e).
    + by apply (reference_call_result cfg force w tg e).
  - destruct (state (comp w)) as [s|] eqn:Es; [|done].
    assert (Heq : strict_eq (value s) (getValue (comp w) (dom w) (S (fresh w))) = true).
    { simpl in Hmr. destruct (strict_eq _ _); [done|]. by destruct force. }
    assert (force = false) as -> by (simpl in Hmr; by destruct force).
    change (S ?n) with (1 + n). rewrite drain_add.
    eapply call_result_keeps; [apply drain_keeps|]. by apply (skip_call_result cfg w tg s).
Qed.

(** C8 (liveness, functional).  Every call on a bound target whose
    validators do not throw returns once its timer has fired and its
    callback has been resumed once per validator (the fuel
    [1 + length validators] is enough), and it returns [verdict]: the
    published [valid] when the skip rule holds, [true] on a radio
    target, and whether every validator passes otherwise. *)
Theorem validate_settles cfg force w tg e :
  wf w -> target (comp w) = Some tg -> get_el (dom w) tg = Some e ->
  no_throw (validators (comp w)) ->
  call_result (drain cfg (S (length (validators (comp w)))) (validate cfg force w)) (fresh w) =
  Some (Returns (verdict force w)).
Proof. intros. by apply (call_returns_verdict cfg force w tg e). Qed.

(** ** Event wiring *)

Lemma removeEventListener_absent ty cb ls :
  Forall (fun l => l.2 < cb) ls -> removeEventListener ty cb ls = ls.
Proof.
  induction ls as [|l ls IH]; intros H; [done|]. inversion H; subst. simpl.
  rewrite bool_decide_false; [simpl; by rewrite IH|]. intros ->. simpl in *. lia.
Qed.

Lemma addEventListener_fresh ty cb ls :
  Forall (fun l => l.2 < cb) ls -> addEventListener ty cb ls = ls ++ [(ty, cb)].
Proof.
  intros H. unfold addEventListener. rewrite decide_False; [done|].
  intros Hin. apply (proj1 (Forall_forall _ _) H) in Hin. simpl in Hin. lia.
Qed.

Lemma disconnect_names_listeners names w :
  Forall (fun l => l.2 < fresh w) (listeners w) ->
  listeners (disconnect_names names w) = listeners w /\
  fresh (disconnect_names names w) = fresh w + length names.
Proof.
  revert w. induction names as [|ty names IH]; intros w H; simpl; [split; [done|lia]|].
  rewrite removeEventListener_absent by done.
  destruct (IH (with_fresh (with_listeners w (listeners w)) (S (fresh w)))) as [E1 E2].
  { simpl. eapply Forall_impl; [exact H|]. simpl. lia. }
  rewrite E1, E2. simpl. split; [done|lia].
Qed.

Lemma connect_names_listeners names w :
  Forall (fun l => l.2 < fresh w) (listeners w) ->
  listeners (connect_names names w) = listeners w ++ zip names (seq (fresh w) (length names)) /\
  fresh (connect_names names w) = fresh w + length names.
Proof.
  revert w. induction names as [|ty names IH]; intros w H; simpl.
  - rewrite app_nil_r. split; [done|lia].
  - rewrite addEventListener_fresh by done.
    destruct (IH (with_fresh (with_listeners w (listeners w ++ [(ty, fresh w)])) (S (fresh w))))
      as [E1 E2].
    { simpl. apply Forall_app_2; [eapply Forall_impl; [exact H|]; simpl; lia|].
      constructor; [simpl; lia|done]. }
    rewrite E1, E2. simpl. rewrite <- app_assoc. split; [done|lia].
Qed.

Lemma connect_names_comp names w : comp (connect_names names w) = comp w.
Proof. revert w. induction names; intros w; simpl; [done|]. by rewrite IHnames. Qed.

(** C9 (functional).  [onDisconnect] removes none of the listeners that
    [onConnect] registered: both build a new closure with
    [this.onTargetEvent(eventListener)] for every event name, and
    [removeEventListener] only removes the very closure that was added.
    After connecting and disconnecting, the host holds one listener per
    configured event name, each still triggering validation. *)
Theorem disconnect_keeps_listeners cfg w :
  Forall (fun l => l.2 < fresh w) (listeners w) ->
  listeners (onDisconnect cfg (onConnect cfg w)) =
  listeners w ++ zip (listener_names cfg (comp w))
                     (seq (fresh w) (length (listener_names cfg (comp w)))).
Proof.
  intros H. unfold onDisconnect, onConnect. rewrite connect_names_comp.
  destruct (connect_names_listeners (listener_names cfg (comp w)) w H) as [E1 E2].
  assert (Hc : Forall (fun l => l.2 < fresh (connect_names (listener_names cfg (comp w)) w))
                      (listeners (connect_names (listener_names cfg (comp w)) w))).
  { rewrite E1, E2. apply Forall_app_2; [eapply Forall_impl; [exact H|]; simpl; lia|].
    apply Forall_forall. intros [ty cb] Hin. apply elem_of_zip_r, elem_of_seq in Hin.
    simpl. lia. }
  by rewrite (proj1 (disconnect_names_listeners _ _ Hc)).
Qed.

Lemma sched_wf cfg w : wf w -> wf (sched cfg w).
Proof.
  intros Hw. unfold sched. destruct (timers w) as [|tm ts] eqn:Ht.
  - destruct (tasks w); [done|by apply resume_wf].
  - apply fire_wf; [done|]. rewrite Ht. by left.
Qed.

Lemma drain_wf cfg k w : wf w -> wf (drain cfg k w).
Proof. revert w. induction k; intros w Hw; simpl; auto using sched_wf. Qed.

(** ** Steps keep the outcome of every call *)

Lemma validators_validate cfg force w :
  validators (comp (validate cfg force w)) = validators (comp w).
Proof. unfold validate. destruct (validationReject (comp w)), (target (comp w)); done. Qed.

Lemma validate_call_result cfg force w n r :
  wf w -> call_result w n = Some r -> call_result (validate cfg force w) n = Some r.
Proof.
  intros [_ HR] Hn.
  assert (Hf : call_result w (fresh w) = None).
  { unfold call_result. rewrite decide_False by (apply not_threw_ge; [done|lia]).
    by rewrite fresh_not_promise. }
  assert (n <> fresh w) by congruence.
  unfold validate, validate_body, call_result in *. simpl.
  destruct (validationReject (comp w)) as [p|]; [destruct (target (comp w))|]; simpl.
  - rewrite lookup_insert_ne by done. destruct (decide (n ∈ threw w)); [done|].
    destruct (promises w !! n) as [[]|] eqn:E; try done;
      unfold reject; rewrite (settle_keeps _ _ _ _ _ E) by done; done.
  - destruct (decide (n ∈ threw w)) as [Hin|Hin].
    + rewrite decide_True by (by right). done.
    + rewrite decide_False by (rewrite elem_of_cons; intros [|]; done). done.
  - by rewrite lookup_insert_ne.
Qed.

Lemma dispatch_event_call_result cfg ty tg w n r :
  wf w -> call_result w n = Some r -> call_result (dispatch_event cfg ty tg w) n = Some r.
Proof.
  unfold dispatch_event. generalize (listeners w). intros ls. revert w.
  induction ls as [|l ls IH]; intros w Hw Hn; simpl; [done|].
  apply IH.
  - destruct (String.eqb l.1 ty); [|done]. unfold onTargetEvent. case_decide; [by apply validate_wf|done].
  - destruct (String.eqb l.1 ty); [|done]. unfold onTargetEvent. case_decide; [by apply validate_call_result|done].
Qed.

Lemma connect_names_keeps names w : keeps w (connect_names names w).
Proof.
  revert w. induction names as [|ty names IH]; intros w; simpl; [apply keeps_refl|].
  eapply keeps_trans; [|apply IH]. by apply keeps_same.
Qed.

Lemma disconnect_names_keeps names w : keeps w (disconnect_names names w).
Proof.
  revert w. induction names as [|ty names IH]; intros w; simpl; [apply keeps_refl|].
  eapply keeps_trans; [|apply IH]. by apply keeps_same.
Qed.

Lemma onAfterRender_keeps cfg w : keeps w (onAfterRender cfg w).
Proof. unfold onAfterRender. repeat case_match_goal; by apply keeps_same. Qed.

(** Once a call has returned or thrown, no step changes that. *)
Lemma step_call_result cfg w w' n r :
  wf w -> step cfg w w' -> call_result w n = Some r -> call_result w' n = Some r.
Proof.
  intros Hw Hs Hn. destruct Hs.
  - by apply validate_call_result.
  - eapply call_result_keeps; [apply fire_keeps|done].
  - eapply call_result_keeps; [apply resume_keeps|done].
  - by apply dispatch_event_call_result.
  - eapply call_result_keeps; [by apply keeps_same|done].
  - eapply call_result_keeps; [apply connect_names_keeps|done].
  - eapply call_result_keeps; [apply disconnect_names_keeps|done].
  - eapply call_result_keeps; [apply onAfterRender_keeps|done].
Qed.

(** The scheduler only takes steps of the event loop. *)
Lemma sched_step cfg w : sched cfg w = w \/ step cfg w (sched cfg w).
Proof.
  unfold sched. destruct (timers w) as [|tm ts] eqn:Ht.
  - destruct (tasks w) as [|tk tks] eqn:Etk; [by left|right].
    destruct (lookup_lt_is_Some_2 (tasks w) (pred (length (tasks w)))) as [tk' Hk].
    { rewrite Etk. simpl. lia. }
    rewrite <- Etk. by eapply step_resume.
  - right. apply step_fire. rewrite Ht. by left.
Qed.

Lemma drain_star cfg k w : star (step cfg) w (drain cfg k w).
Proof.
  revert w. induction k as [|k IH]; intros w; simpl; [constructor|].
  destruct (sched_step cfg w) as [->|Hs]; [apply IH|]. eapply star_step; [exact Hs|apply IH].
Qed.

Lemma ex_bound_wf ctl vs : wf (ex_bound ctl vs).
Proof. apply onAfterRender_wf, initial_wf. by repeat split. Qed.

#[export] Hint Resolve sched_wf drain_wf ex_bound_wf : stform.

(** C10 (safety; the code violates it).  Last call does not win: in a
    reachable trace a superseded pass that was suspended at
    [await validator(value)] resumes after the newer pass has finished,
    and overwrites the published state, dispatches a stale event and
    flags the field invalid.  At the end the field holds "abc", the
    newer call has returned [true], yet the published state is the
    stale one for [""] with error ["required"]. *)
Theorem stale_pass_overwrites :
  reachable default_stForm stale_end /\
  getValue (comp stale_end) (dom stale_end) 0 = FString "abc" /\
  call_result stale_end 2 = Some (Returns true) /\
  call_result stale_end 0 = Some (Returns false) /\
  state (comp stale_end) = Some (mkIValidation false true [Some "required"] (FString "")) /\
  last (events stale_end) = Some (mkIValidation false true [Some "required"] (FString "")) /\
  el_validity <$> get_el (dom stale_end) 2 = Some " ".
Proof.
  split; [|vm_compute; repeat split; reflexivity].
  exists (ex_world (ex_control "text" "" NaN None) [ex_required]).
  split; [by repeat split|].
  unfold stale_end, stale_b, stale_a, ex_bound.
  eapply star_step; [apply step_render|].
  eapply star_step; [apply step_validate|].
  eapply star_step; [apply step_fire; vm_compute; by left|].
  eapply star_step; [apply (step_input _ 2 "abc" false NaN None)|].
  eapply star_step; [apply step_validate|].
  eapply star_step; [apply step_fire; vm_compute; by left|].
  eapply star_step; [eapply (step_resume _ 1); vm_compute; reflexivity|].
  eapply star_step; [eapply (step_resume _ 0); vm_compute; reflexivity|].
  apply star_refl.
Qed.

(** ** Witnesses: the theorems applied to concrete documents *)

Lemma reachable_wf_witness :
  wf (validate default_stForm false (ex_bound (ex_control "text" "" NaN None) [ex_required])).
Proof.
  apply (reachable_wf default_stForm).
  exists (ex_world (ex_control "text" "" NaN None) [ex_required]).
  split; [by repeat split|].
  eapply star_step; [apply step_render|].
  eapply star_step; [apply step_validate|]. apply star_refl.
Defined.

Lemma validate_runs_reference_witness :
  let w := ex_bound (ex_control "text" "" NaN None) [ex_required] in
  let v := getValue (comp w) (dom w) (S (fresh w)) in
  let vs := validators (comp w) in
  let s := mkIValidation (ref_valid vs v) true (ref_errors default_stForm vs v) v in
  let w2 := drain default_stForm (S (length vs)) (validate default_stForm false w) in
  state (comp w2) = Some s /\ events w2 = events w ++ [s] /\
  call_result w2 (fresh w) = Some (Returns (ref_valid vs v)) /\
  el_validity <$> get_el (dom w2) 2 = Some (if ref_valid vs v then "" else " ").
Proof.
  intros w. apply (validate_runs_reference default_stForm false w 2 (ex_control "text" "" NaN None));
    [apply ex_bound_wf | reflexivity | reflexivity | reflexivity | | reflexivity].
  constructor; [intros v; discriminate|constructor].
Defined.

Lemma validate_skip_witness :
  let w := drain default_stForm 2 (validate default_stForm false
             (ex_bound (ex_control "text" "" NaN None) [ex_required])) in
  let s := mkIValidation false true [Some "required"] (FString "") in
  let w2 := drain default_stForm 1 (validate default_stForm false w) in
  call_result w2 (fresh w) = Some (Returns (valid s)) /\ state (comp w2) = Some s /\
  events w2 = events w /\ tasks w2 = tasks w /\ dom w2 = dom w.
Proof.
  intros w s. apply (validate_skip default_stForm w 2 s).
  - apply drain_wf, validate_wf, ex_bound_wf.
  - vm_compute. reflexivity.
  - vm_compute. reflexivity.
  - vm_compute. reflexivity.
Defined.

Lemma validate_cancels_witness :
  let w := validate default_stForm false (ex_bound (ex_control "text" "" NaN None) [ex_required]) in
  let w1 := validate default_stForm true w in
  call_result w1 0 = Some (Returns false) /\
  timers w1 = [mkTimer (fresh w) (debounce_delay default_stForm (comp w)) (fresh w) true].
Proof.
  intros w. apply (validate_cancels default_stForm true w 2 0).
  - apply validate_wf, ex_bound_wf.
  - vm_compute. reflexivity.
  - vm_compute. reflexivity.
  - vm_compute. reflexivity.
Defined.

Lemma skip_rule_never_for_date_or_nan_witness :
  let w := drain default_stForm 2 (validate default_stForm false
             (ex_bound (ex_control "date" "" NaN (Some 5%Z)) [ex_required])) in
  must_run false (state (comp w)) (getValue (comp w) (dom w) (S (fresh w))) = true.
Proof.
  intros w. apply (skip_rule_never_for_date_or_nan w 2 (ex_control "date" "" NaN (Some 5%Z))).
  - apply drain_wf, validate_wf, ex_bound_wf.
  - vm_compute. reflexivity.
  - vm_compute. reflexivity.
  - reflexivity.
  - left. split; [reflexivity|]. exists 5%Z. reflexivity.
Defined.

Lemma validate_radio_witness :
  let w := ex_bound (ex_control "radio" "on" NaN None) [ex_required] in
  let w2 := drain default_stForm 1 (validate default_stForm false w) in
  call_result w2 (fresh w) = Some (Returns true) /\ state (comp w2) = state (comp w) /\
  events w2 = events w /\ el_validity <$> get_el (dom w2) 2 = Some "".
Proof.
  intros w. apply (validate_radio default_stForm false w 2 (ex_control "radio" "on" NaN None));
    [apply ex_bound_wf | reflexivity | reflexivity | reflexivity | reflexivity].
Defined.

Lemma throwing_validator_hangs_witness :
  let w := ex_bound (ex_control "text" "" NaN None) [ex_throwing] in
  call_result (drain default_stForm 5 (validate default_stForm false w)) (fresh w) = None.
Proof.
  intros w. apply (throwing_validator_hangs default_stForm false w 2
    (ex_control "text" "" NaN None) ex_throwing []);
    [apply ex_bound_wf | reflexivity | reflexivity | reflexivity | reflexivity
    | intros v; reflexivity | reflexivity].
Defined.

Lemma validate_settles_witness :
  let w := ex_bound (ex_control "text" "abc" NaN None) [ex_required] in
  call_result (drain default_stForm (S (length (validators (comp w))))
    (validate default_stForm false w)) (fresh w) = Some (Returns (verdict false w)) /\
  verdict false w = true.
Proof.
  intros w. split; [|vm_compute; reflexivity].
  apply (validate_settles default_stForm false w 2 (ex_control "text" "abc" NaN None));
    [apply ex_bound_wf | reflexivity | reflexivity |].
  constructor; [intros v; discriminate|constructor].
Defined.

Lemma disconnect_keeps_listeners_witness :
  let w := ex_bound (ex_control "text" "" NaN None) [ex_required] in
  listeners (onDisconnect default_stForm (onConnect default_stForm w)) =
  listeners w ++ zip (listener_names default_stForm (comp w))
                     (seq (fresh w) (length (listener_names default_stForm (comp w)))).
Proof.
  intros w. apply (disconnect_keeps_listeners default_stForm w). constructor.
Defined.

End Validation.
