(* ===== verification/Form.v ===== *)
(** The [Form] component (component/form/form.tsx): its fields, the
    page of components it discovers through the DOM and the logical
    parent links, and its queries [getElements], [getSubForm] and
    [getState] with the theorems about them. *)
From S2P Require Import Prelude JsValue Dom Config.

Module Form.

(** ** Data (lines 10-37) *)

Definition FORM_PROPERTY_NAME : string := "FROM".
Definition FORM_IGNORE_PROPERTY_NAME : string := "FORM_IGNORE".
Definition FORM_VALUE_FUNCTION_KEY : string := "FORM_VALUE_FUNCTION".

(** A [Form] instance: its identity, its [name] attribute and the
    [<form>] element [formRef] it renders. *)
Record Form := mkForm {
  self : nat;
  name : string;
  formRef : nat;
}.

(** The components of the page, by identity: forms and other
    components (among them the [Validation] instances), each with its
    logical parent ([ILifecycle.parent]). *)
Inductive Component :=
| CForm (f : Form)
| COther.

Record Page := mkPage {
  dom : Dom;
  comps : gmap nat Component;
  parent : gmap nat nat;
}.

(** A value of the form state: a field value or a nested object whose
    keys keep their insertion order, as a JavaScript object's string
    keys do. *)
Inductive StateVal :=
| SVal (v : FieldValue)
| SObj (kvs : list (string * StateVal)).

(** [obj[k] = x]: an existing key keeps its position. *)
Fixpoint set_key {A} (k : string) (x : A) (l : list (string * A)) : list (string * A) :=
  match l with
  | [] => [(k, x)]
  | (k', y) :: l' => if String.eqb k k' then (k, x) :: l' else (k', y) :: set_key k x l'
  end.

Fixpoint lookup_key {A} (k : string) (l : list (string * A)) : option A :=
  match l with
  | [] => None
  | (k', y) :: l' => if String.eqb k k' then Some y else lookup_key k l'
  end.

(** The message of [st.error] in [getSubForm] (line 169); [dq] is the
    double quote character. *)
Definition dq : string := String (Ascii.ascii_of_nat 34) EmptyString.
Definition nested_form_error : string :=
  String.append "Using an nested form, please use <Form name="
    (String.append dq (String.append "formName" (String.append dq ">"))).

Section Queries.
Variable fc : FormConfig.
Variable pg : Page.

(** ** [addFormToForm] (lines 63-65) *)
Definition addFormToForm (f : Form) : Page :=
  mkPage (set_prop (dom pg) (formRef f) FORM_PROPERTY_NAME (XForm (self f)))
    (comps pg) (parent pg).

(** ** [getElements] (lines 96-110) *)

(** The test of one element: a [Validation] registered under
    [getFormConfig().validationPropertyName], and
    [!element.disabled && !element.readonly].  [readonly] is not a
    property of DOM elements (the property is [readOnly]): it is read as
    an expando, undefined unless some code installed one. *)
Definition element_validation (i : nat) : option nat :=
  match get_prop (dom pg) i (fc_validationPropertyName fc), get_el (dom pg) i with
  | Some (XValidation c), Some e =>
      if negb (el_disabled e) && negb (truthy (get_prop (dom pg) i "readonly"))
      then Some c else None
  | _, _ => None
  end.

Definition getElements (f : Form) : list nat :=
  omap element_validation (form_elements (dom pg) (formRef f)).

(** ** [getSubForm] (lines 152-173) *)

(** The logical ancestors of component [c], nearest first; the fuel is
    the number of components, enough for an acyclic parent relation. *)
Fixpoint parent_chain (fuel : nat) (c : nat) : list nat :=
  match fuel with
  | 0 => []
  | S fuel' => match parent pg !! c with
               | Some q => q :: parent_chain fuel' q
               | None => []
               end
  end.

Definition chain (c : nat) : list nat := parent_chain (size (comps pg)) c.

(** One candidate [<form>] element: [Ok forms] with the forms pushed for
    it (once per occurrence of [this] on the candidate's parent chain),
    or [Error] for a form element with no [Form] registered, which the
    code reports with [st.error]. *)
Definition sub_form_of (f : Form) (i : nat) : list Form + string :=
  match get_prop (dom pg) i FORM_PROPERTY_NAME with
  | Some (XForm c) =>
      match comps pg !! c with
      | Some (CForm g) =>
          if Nat.eqb c (self f) then inl []
          else inl (List.repeat g (List.count_occ Nat.eq_dec (chain c) (self f)))
      | _ => inr nested_form_error
      end
  | _ => inr nested_form_error
  end.

Definition getSubForm (f : Form) : list Form :=
  List.concat (map (fun i => match sub_form_of f i with inl gs => gs | inr _ => [] end)
                   (querySelectorAll (dom pg) (formRef f) TForm)).

(** The [st.error] messages a call of [getSubForm] logs. *)
Definition getSubForm_errors (f : Form) : list string :=
  omap (fun i => match sub_form_of f i with inl _ => None | inr m => Some m end)
       (querySelectorAll (dom pg) (formRef f) TForm).

(** ** [getState] (lines 112-150) *)

(** [radios[name].value] for what [elements.namedItem(name)] returned:
    a [RadioNodeList], or the element itself when it is the only one
    with that name. *)
Definition named_value (ni : NamedItem) : FieldValue :=
  match ni with
  | NIRadioList ids => FString (radio_list_value (dom pg) ids)
  | NIElement j => match get_el (dom pg) j with
                   | Some e => FString (el_value e)
                   | None => FUndefined
                   end
  | NINull => FUndefined
  end.

(** One iteration of the loop over [this.formRef.elements]: the state
    built so far and the radio groups deferred so far. *)
Definition scan_element (f : Form)
    (acc : list (string * StateVal) * list (string * NamedItem)) (i : nat)
  : list (string * StateVal) * list (string * NamedItem) :=
  let '(st, radios) := acc in
  match get_el (dom pg) i with
  | None => acc
  | Some e =>
      if bool_decide (el_tag e = TButton)
         || truthy (get_prop (dom pg) i FORM_IGNORE_PROPERTY_NAME) then acc
      else match get_prop (dom pg) i FORM_VALUE_FUNCTION_KEY with
      | Some (XValueFn r) => (set_key (el_name e) (SVal r) st, radios)
      | _ =>
          if bool_decide (el_tag e = TInput) && String.eqb (el_type e) "radio"
             && truthy (el_name e) then
            (st, set_key (el_name e) (namedItem (dom pg) (formRef f) (el_name e)) radios)
          else if bool_decide (el_tag e = TInput) && String.eqb (el_type e) "checkbox"
             && truthy (el_name e) then
            (set_key (el_name e) (SVal (FBool (el_checked e))) st, radios)
          else (set_key (el_name e) (SVal (FString (el_value e))) st, radios)
      end
  end.

(** The flat part of the state: the scan, then one entry per radio
    group in the order the groups were first met. *)
Definition flat_state (f : Form) : list (string * StateVal) :=
  let '(st, radios) := fold_left (scan_element f) (form_elements (dom pg) (formRef f)) ([], []) in
  fold_left (fun st '(n, ni) => set_key n (SVal (named_value ni)) st) radios st.

(** [formState[form.name] = form.getState()] for one sub-form, given the
    sub-form's state. *)
Definition add_sub (sub : Form -> option (list (string * StateVal)))
    (acc : option (list (string * StateVal))) (g : Form) : option (list (string * StateVal)) :=
  match acc, sub g with
  | Some st, Some s => Some (set_key (name g) (SObj s) st)
  | _, _ => None
  end.

(** [getState()]: the flat state, then every form [getSubForm] returns
    under its [name].  The recursion follows the nesting of [<form>]
    elements; [None] means the fuel ran out. *)
Fixpoint getState (fuel : nat) (f : Form) : option (list (string * StateVal)) :=
  match fuel with
  | 0 => None
  | S fuel' => fold_left (add_sub (getState fuel')) (getSubForm f) (Some (flat_state f))
  end.

(** Every [FROM] back-reference on an element points to a registered
    [Form] whose [formRef] is that element, as [addFormToForm] installs
    it. *)
Definition forms_registered : bool :=
  forallb (fun '((i, k), x) =>
             if String.eqb k FORM_PROPERTY_NAME then
               match x with
               | XForm c => match comps pg !! c with
                            | Some (CForm g) => Nat.eqb (formRef g) i
                            | _ => true
                            end
               | _ => true
               end
             else true)
    (map_to_list (dom_props (dom pg))).

(** The measure of the recursion of [getState]: how far the form's
    element is from the deepest possible node. *)
Definition measure (f : Form) : nat := length (dom_order (dom pg)) - depth (dom pg) (formRef f).

(** What the loop of [getState] records for a radio group is
    [namedItem] of its name, once per name. *)
Definition radios_ok (f : Form) (radios : list (string * NamedItem)) : Prop :=
  NoDup (map fst radios) /\
  forall k v, lookup_key k radios = Some v -> v = namedItem (dom pg) (formRef f) k.

End Queries.

#[export] Instance Form_eq_dec : EqDecision Form.
Proof. solve_decision. Defined.

(** ** An example page

    A form [ex_A] (element 100, name ["form"]) holds a text field ["a"],
    a radio group ["color"] of three buttons with ["green"] checked, a
    submit button and an ignored field; it nests [ex_B] (["child"],
    element 110, field ["b"]), which nests [ex_C] (["grandchild"],
    element 120, field ["c"]).  The logical parents follow the nesting.
    Each of the fields ["a"], ["b"] and ["c"] carries a [Validation]
    (components 20, 21 and 22).  A second form [ex_S] (element 200)
    holds a single radio button ["agree"], not checked. *)
Definition ex_el (t : Tag) (ty nm v : string) (chk : bool) (frm par : option nat) : Element :=
  mkElement t ty nm v chk false false NaN None "" frm par (mkControl v chk NaN None).

Definition ex_els : gmap nat Element := list_to_map [
  (100, ex_el TForm "" "" "" false None None);
  (101, ex_el TInput "text" "a" "va" false (Some 100) (Some 100));
  (102, ex_el TInput "radio" "color" "red" false (Some 100) (Some 100));
  (103, ex_el TInput "radio" "color" "green" true (Some 100) (Some 100));
  (104, ex_el TInput "radio" "color" "blue" false (Some 100) (Some 100));
  (105, ex_el TButton "submit" "go" "" false (Some 100) (Some 100));
  (106, ex_el TInput "text" "secret" "pw" false (Some 100) (Some 100));
  (110, ex_el TForm "" "" "" false None (Some 100));
  (111, ex_el TInput "text" "b" "vb" false (Some 110) (Some 110));
  (120, ex_el TForm "" "" "" false None (Some 110));
  (121, ex_el TInput "text" "c" "vc" false (Some 120) (Some 120));
  (200, ex_el TForm "" "" "" false None None);
  (201, ex_el TInput "radio" "agree" "yes" false (Some 200) (Some 200))].

Definition ex_props : gmap (nat * string) Expando := list_to_map [
  ((100, FORM_PROPERTY_NAME), XForm 10); ((110, FORM_PROPERTY_NAME), XForm 11);
  ((120, FORM_PROPERTY_NAME), XForm 12); ((200, FORM_PROPERTY_NAME), XForm 13);
  ((106, FORM_IGNORE_PROPERTY_NAME), XBool true);
  ((101, "VALIDATION"), XValidation 20); ((111, "VALIDATION"), XValidation 21);
  ((121, "VALIDATION"), XValidation 22)].

Definition ex_A : Form := mkForm 10 "form" 100.
Definition ex_B : Form := mkForm 11 "child" 110.
Definition ex_C : Form := mkForm 12 "grandchild" 120.
Definition ex_S : Form := mkForm 13 "single" 200.

Definition ex_page : Page :=
  mkPage (mkDom ex_els [100; 101; 102; 103; 104; 105; 106; 110; 111; 120; 121; 200; 201] ex_props)
    (list_to_map [(10, CForm ex_A); (11, CForm ex_B); (12, CForm ex_C); (13, CForm ex_S);
                  (20, COther); (21, COther); (22, COther)])
    (list_to_map [(11, 10); (12, 11); (20, 10); (21, 11); (22, 12)]).

(** ** Objects as association lists *)

Lemma lookup_set_key_eq {A} k (x : A) l : lookup_key k (set_key k x l) = Some x.
Proof.
  induction l as [|[k' y] l IH]; simpl; [by rewrite String.eqb_refl|].
  destruct (String.eqb_spec k k'); simpl; [by rewrite String.eqb_refl|].
  apply String.eqb_neq in n. by rewrite n.
Qed.

Lemma lookup_set_key_ne {A} k k' (x : A) l :
  k <> k' -> lookup_key k' (set_key k x l) = lookup_key k' l.
Proof.
  intros Hne. induction l as [|[k0 y] l IH]; simpl.
  - apply String.eqb_neq in Hne. rewrite String.eqb_sym in Hne. by rewrite Hne.
  - destruct (String.eqb_spec k k0); simpl.
    + subst. destruct (String.eqb_spec k' k0); [congruence|done].
    + by rewrite IH.
Qed.

Lemma keys_set_key {A} k (x : A) l :
  map fst (set_key k x l) = if decide (k ∈ map fst l) then map fst l else map fst l ++ [k].
Proof.
  induction l as [|[k' y] l IH]; cbn [set_key map fst].
  - case_decide as H; [by apply not_elem_of_nil in H|done].
  - destruct (String.eqb_spec k k'); cbv iota; cbn [map fst].
    + subst. rewrite decide_True; [done|by left].
    + rewrite IH. clear IH. case_decide as H1; case_decide as H2; try done.
      * exfalso. apply H2. by right.
      * exfalso. apply elem_of_cons in H2 as [|]; congruence.
Qed.

(** Assignments never duplicate a key. *)
Lemma set_key_nodup {A} k (x : A) l : NoDup (map fst l) -> NoDup (map fst (set_key k x l)).
Proof.
  intros H. rewrite keys_set_key. case_decide; [done|].
  apply NoDup_app. repeat split; [done| |apply NoDup_singleton].
  intros y Hy ->%list_elem_of_singleton. contradiction.
Qed.

Lemma set_key_keys_mono {A} k k' (x : A) l : k' ∈ map fst l -> k' ∈ map fst (set_key k x l).
Proof. intros H. rewrite keys_set_key. case_decide; [done|]. apply elem_of_app. by left. Qed.

Lemma set_key_key_in {A} k (x : A) l : k ∈ map fst (set_key k x l).
Proof.
  rewrite keys_set_key. case_decide; [done|]. apply elem_of_app. right. by left.
Qed.

#[export] Hint Resolve set_key_nodup set_key_keys_mono set_key_key_in : stform.

Lemma lookup_set_key_is_Some {A} k k' (x : A) l :
  is_Some (lookup_key k' l) -> is_Some (lookup_key k' (set_key k x l)).
Proof.
  intros H. destruct (decide (k = k')) as [->|Hne].
  - rewrite lookup_set_key_eq. by eexists.
  - by rewrite lookup_set_key_ne.
Qed.

(** A loop [for (k of Object.keys(o)) r[k] = g(o[k])] over an object
    without duplicate keys. *)
Lemma fold_set_keys_keep {A B} (g : A -> B) l st k :
  k ∉ map fst l -> lookup_key k (fold_left (fun st '(k, x) => set_key k (g x) st) l st) = lookup_key k st.
Proof.
  revert st. induction l as [|[k' x] l IH]; intros st Hk; simpl; [done|].
  rewrite IH; [|intros ?; apply Hk; by right].
  apply lookup_set_key_ne. intros ->. apply Hk. by left.
Qed.

Lemma fold_set_keys_lookup {A B} (g : A -> B) l st k v :
  NoDup (map fst l) -> lookup_key k l = Some v ->
  lookup_key k (fold_left (fun st '(k, x) => set_key k (g x) st) l st) = Some (g v).
Proof.
  revert st. induction l as [|[k' x] l IH]; intros st Hnd Hl; simpl in *; [done|].
  apply NoDup_cons in Hnd as [Hn Hnd].
  destruct (String.eqb_spec k k') as [->|Hne]; [|by apply IH].
  injection Hl as ->. rewrite fold_set_keys_keep by done. apply lookup_set_key_eq.
Qed.

(** ** [getElements] *)

Lemma element_validation_spec fc pg i c :
  element_validation fc pg i = Some c <->
  exists e, get_prop (dom pg) i (fc_validationPropertyName fc) = Some (XValidation c) /\
    get_el (dom pg) i = Some e /\ el_disabled e = false /\
    truthy (get_prop (dom pg) i "readonly") = false.
Proof.
  unfold element_validation. split.
  - intros H.
    destruct (get_prop (dom pg) i (fc_validationPropertyName fc)) as [[c'| | |]|];
      try discriminate.
    destruct (get_el (dom pg) i) as [e|]; [|discriminate].
    destruct (el_disabled e) eqn:Ed; simpl in H; [discriminate|].
    destruct (truthy (get_prop (dom pg) i "readonly")); simpl in H; [discriminate|].
    injection H as <-. eauto.
  - intros (e & -> & -> & -> & ->). done.
Qed.

(** [getElements] only reads [form.elements], the two properties it
    tests and whether each element is [disabled]. *)
Lemma getElements_ext fc d d' cs par f :
  (forall g, form_elements d' g = form_elements d g) ->
  (forall j, get_prop d' j (fc_validationPropertyName fc) = get_prop d j (fc_validationPropertyName fc)) ->
  (forall j, get_prop d' j "readonly" = get_prop d j "readonly") ->
  (forall j, el_disabled <$> get_el d' j = el_disabled <$> get_el d j) ->
  getElements fc (mkPage d' cs par) f = getElements fc (mkPage d cs par) f.
Proof.
  intros Hf Hv Hr Hd. unfold getElements. simpl. rewrite Hf.
  apply list_omap_ext, Forall_Forall2_diag, Forall_forall. intros j _.
  unfold element_validation. simpl. rewrite Hv, Hr. specialize (Hd j).
  destruct (get_el d' j), (get_el d j); simpl in Hd; simplify_eq; try done.
  destruct (get_prop d j _) as [[]|]; try done. by rewrite Hd.
Qed.

(** C11 (functional).  The [Validation] components a form validates are
    exactly those registered, under [getFormConfig()]'s property name,
    on an element of [formRef.elements] that is not disabled and carries
    no truthy [readonly] expando. *)
Theorem getElements_spec fc pg f c :
  c ∈ getElements fc pg f <->
  exists i e, i ∈ form_elements (dom pg) (formRef f) /\
    get_prop (dom pg) i (fc_validationPropertyName fc) = Some (XValidation c) /\
    get_el (dom pg) i = Some e /\ el_disabled e = false /\
    truthy (get_prop (dom pg) i "readonly") = false.
Proof.
  unfold getElements. rewrite list_elem_of_omap. split.
  - intros (i & Hi & (e & ?)%element_validation_spec). eauto.
  - intros (i & e & Hi & H). exists i. split; [done|]. apply element_validation_spec. eauto.
Qed.

(** C12 (functional; the code differs from its intent).  Making a field
    read-only, as [InputValidation] does with
    [setAttribute('readOnly', '')], does not remove it from
    [getElements]: the test reads [element.readonly], which DOM
    elements do not have. *)
Theorem getElements_ignores_readOnly fc pg f i :
  getElements fc (mkPage (setReadOnly (dom pg) i) (comps pg) (parent pg)) f = getElements fc pg f.
Proof.
  unfold getElements, setReadOnly. simpl.
  rewrite form_elements_update_el by done.
  apply list_omap_ext, Forall_Forall2_diag, Forall_forall. intros j _.
  unfold element_validation. simpl. unfold get_prop. simpl.
  rewrite get_el_update_el. case_decide; [|done]. subst.
  destruct (get_el (dom pg) j); done.
Qed.

(** ** The loop of [getState] over [formRef.elements] *)

Section Scan.
Variables (pg : Page) (f : Form).


Lemma scan_element_radios_ok acc i : radios_ok pg f acc.2 -> radios_ok pg f (scan_element pg f acc i).2.
Proof.
  destruct acc as [st radios]. intros [Hnd Hok]. unfold scan_element.
  destruct (get_el (dom pg) i) as [e|]; [|done].
  repeat case_match_goal; try done; simpl in *; split; auto with stform;
    intros k v; (destruct (decide (el_name e = k)) as [<-|Hne];
    [rewrite lookup_set_key_eq; congruence | rewrite lookup_set_key_ne by done; apply Hok]).
Qed.

Lemma scan_radios_ok l acc : radios_ok pg f acc.2 -> radios_ok pg f (fold_left (scan_element pg f) l acc).2.
Proof.
  revert acc. induction l as [|i l IH]; intros acc H; simpl; [done|].
  by apply IH, scan_element_radios_ok.
Qed.

Lemma scan_radios_mono l acc k :
  is_Some (lookup_key k acc.2) -> is_Some (lookup_key k (fold_left (scan_element pg f) l acc).2).
Proof.
  revert acc. induction l as [|i l IH]; intros [st radios] H; simpl; [done|].
  apply IH. unfold scan_element. destruct (get_el (dom pg) i) as [e|]; [|done].
  repeat case_match_goal; try done; by apply lookup_set_key_is_Some.
Qed.

(** A radio button the loop does not skip registers its group. *)
Lemma scan_radios_hit l acc i e :
  i ∈ l -> get_el (dom pg) i = Some e -> el_tag e = TInput -> el_type e = "radio" ->
  truthy (el_name e) = true -> truthy (get_prop (dom pg) i FORM_IGNORE_PROPERTY_NAME) = false ->
  (forall r, get_prop (dom pg) i FORM_VALUE_FUNCTION_KEY <> Some (XValueFn r)) ->
  is_Some (lookup_key (el_name e) (fold_left (scan_element pg f) l acc).2).
Proof.
  intros Hi He Ht Hty Hn Hig Hfn. revert acc.
  induction l as [|j l IH]; intros acc; [by apply not_elem_of_nil in Hi|].
  apply elem_of_cons in Hi as [<-|Hi]; [|apply IH, Hi]. simpl.
  apply scan_radios_mono. destruct acc as [st radios]. unfold scan_element.
  rewrite He, Ht, Hig, Hty, Hn. simpl.
  destruct (get_prop (dom pg) i FORM_VALUE_FUNCTION_KEY) as [[| | |r]|] eqn:Hf;
    try (simpl; rewrite lookup_set_key_eq; by eexists).
  exfalso. by apply (Hfn r).
Qed.
End Scan.

(** ** [getSubForm] *)

Lemma getSubForm_sound pg f g :
  g ∈ getSubForm pg f ->
  exists i c, i ∈ querySelectorAll (dom pg) (formRef f) TForm /\
    get_prop (dom pg) i FORM_PROPERTY_NAME = Some (XForm c) /\
    comps pg !! c = Some (CForm g) /\ c <> self f /\ self f ∈ chain pg c.
Proof.
  unfold getSubForm. rewrite list_elem_of_In, in_concat.
  intros (gs & (i & <- & Hi)%in_map_iff & Hg). exists i.
  unfold sub_form_of in Hg.
  destruct (get_prop (dom pg) i FORM_PROPERTY_NAME) as [[| c | |]|]; try done.
  destruct (comps pg !! c) as [[g'|]|] eqn:Ec; try done.
  destruct (Nat.eqb_spec c (self f)); [done|].
  apply repeat_spec in Hg as Hg'. subst g'. exists c.
  apply list_elem_of_In in Hi. repeat split; try done.
  apply list_elem_of_In, (count_occ_In Nat.eq_dec).
  destruct (count_occ _ _ _); simpl in Hg; [done|lia].
Qed.

(** C13 (functional; wider than the spec).  [getSubForm] returns the
    [Form] registered on each [<form>] element below [formRef], except
    [this], when [this] is on that form's chain of logical parents: all
    nested forms, at any depth, not only the directly nested ones. *)
Theorem getSubForm_spec pg f g :
  g ∈ getSubForm pg f <->
  exists i c, i ∈ querySelectorAll (dom pg) (formRef f) TForm /\
    get_prop (dom pg) i FORM_PROPERTY_NAME = Some (XForm c) /\
    comps pg !! c = Some (CForm g) /\ c <> self f /\ self f ∈ chain pg c.
Proof.
  split; [apply getSubForm_sound|].
  intros (i & c & Hi & Hp & Hc & Hne & Hch). unfold getSubForm.
  rewrite list_elem_of_In, in_concat.
  exists (match sub_form_of pg f i with inl gs => gs | inr _ => [] end).
  split; [apply in_map_iff; exists i; split; [done|by apply list_elem_of_In]|].
  unfold sub_form_of. rewrite Hp, Hc. destruct (Nat.eqb_spec c (self f)); [done|].
  apply list_elem_of_In, (count_occ_In Nat.eq_dec) in Hch.
  destruct (count_occ _ _ _); [lia|]. by left.
Qed.

Lemma forms_registered_spec pg i c g :
  forms_registered pg = true -> get_prop (dom pg) i FORM_PROPERTY_NAME = Some (XForm c) ->
  comps pg !! c = Some (CForm g) -> formRef g = i.
Proof.
  intros Hr Hp Hc. unfold forms_registered in Hr. rewrite forallb_forall in Hr.
  specialize (Hr ((i, FORM_PROPERTY_NAME), XForm c)).
  simpl in Hr. rewrite ?String.eqb_refl, Hc in Hr. apply Nat.eqb_eq, Hr.
  apply list_elem_of_In, elem_of_map_to_list. exact Hp.
Qed.

(** Nested forms sit deeper in the document. *)
Lemma getSubForm_measure pg f g :
  tree_ok (dom pg) = true -> forms_registered pg = true -> g ∈ getSubForm pg f ->
  measure pg g < measure pg f.
Proof.
  intros Ht Hr (i & c & Hi & Hp & Hc & _ & _)%getSubForm_sound.
  apply querySelectorAll_spec in Hi as (Ho & Hd & _).
  pose proof (forms_registered_spec pg i c g Hr Hp Hc) as <-.
  pose proof (tree_ok_descendant _ _ _ Ht Ho Hd).
  pose proof (depth_le (dom pg) (formRef g)). unfold measure. lia.
Qed.

(** ** [getState] *)

Lemma add_sub_Some h st g :
  add_sub h (Some st) g = match h g with Some s => Some (set_key (name g) (SObj s) st) | None => None end.
Proof. unfold add_sub. by destruct (h g). Qed.

Lemma fold_add_sub_None h gs : fold_left (add_sub h) gs None = None.
Proof. induction gs; simpl; auto. Qed.

Lemma fold_add_sub_some h gs st :
  (forall g, g ∈ gs -> is_Some (h g)) -> is_Some (fold_left (add_sub h) gs (Some st)).
Proof.
  revert st. induction gs as [|g gs IH]; intros st H; simpl; [by eexists|].
  destruct (H g ltac:(by left)) as [s Hs]. unfold add_sub at 1. rewrite Hs.
  apply IH. intros g' Hg'. apply H. by right.
Qed.

Lemma fold_add_sub_ext h1 h2 gs acc :
  (forall g, g ∈ gs -> h1 g = h2 g) -> fold_left (add_sub h1) gs acc = fold_left (add_sub h2) gs acc.
Proof.
  revert acc. induction gs as [|g gs IH]; intros acc H; simpl; [done|].
  unfold add_sub at 2 4. rewrite (H g ltac:(by left)). apply IH. intros g' ?. apply H. by right.
Qed.

(** Enough fuel gives the state, and more fuel gives the same state. *)
Lemma getState_stable pg n f :
  tree_ok (dom pg) = true -> forms_registered pg = true -> measure pg f < n ->
  is_Some (getState pg n f) /\ forall m, n <= m -> getState pg m f = getState pg n f.
Proof.
  intros Ht Hr. revert f. induction n as [|n IH]; intros f Hm; [lia|].
  assert (Hsub : forall g, g ∈ getSubForm pg f -> measure pg g < n)
    by (intros g Hg; pose proof (getSubForm_measure pg f g Ht Hr Hg); lia).
  split.
  - apply fold_add_sub_some. intros g Hg. apply (IH g (Hsub g Hg)).
  - intros [|m] Hle; [lia|]. simpl. apply fold_add_sub_ext. intros g Hg.
    apply (IH g (Hsub g Hg)). lia.
Qed.

(** C14 (termination).  On a document whose parent links form a tree
    and whose forms are registered on their own elements, the recursion
    of [getState] through nested forms terminates: with fuel one more
    than the number of nodes it yields a state, and any more fuel yields
    the same state. *)
Theorem getState_terminates pg f :
  tree_ok (dom pg) = true -> forms_registered pg = true ->
  exists st, forall fuel, S (length (dom_order (dom pg))) <= fuel -> getState pg fuel f = Some st.
Proof.
  intros Ht Hr.
  assert (Hm : measure pg f < S (length (dom_order (dom pg)))) by (unfold measure; lia).
  destruct (getState_stable pg _ f Ht Hr Hm) as [[st Hst] Heq].
  exists st. intros fuel Hf. by rewrite Heq.
Qed.

Lemma fold_add_sub_keep h gs k st st' :
  (forall g, g ∈ gs -> name g <> k) -> fold_left (add_sub h) gs (Some st) = Some st' ->
  lookup_key k st' = lookup_key k st.
Proof.
  revert st. induction gs as [|g gs IH]; intros st Hn Hf; cbn [fold_left] in Hf; [by simplify_eq|].
  rewrite add_sub_Some in Hf. destruct (h g) as [s|]; [|by rewrite fold_add_sub_None in Hf].
  rewrite (IH _ (fun g' Hg' => Hn g' ltac:(by right)) Hf).
  apply lookup_set_key_ne, Hn. by left.
Qed.

Lemma fold_add_sub_lookup h gs acc g sub st :
  NoDup (map name gs) -> g ∈ gs -> h g = Some sub -> fold_left (add_sub h) gs acc = Some st ->
  lookup_key (name g) st = Some (SObj sub).
Proof.
  revert acc. induction gs as [|g' gs IH]; intros acc Hnd Hin Hh Hf; [by apply not_elem_of_nil in Hin|].
  simpl in Hnd. apply NoDup_cons in Hnd as [Hn' Hnd]. cbn [fold_left] in Hf.
  destruct (decide (name g' = name g)) as [Eq|Ne].
  - assert (g' = g) as ->.
    { apply elem_of_cons in Hin as [->|Hin]; [done|].
      exfalso. apply Hn'. rewrite Eq. by apply list_elem_of_fmap_2. }
    destruct acc as [st0|]; [|by rewrite fold_add_sub_None in Hf].
    rewrite add_sub_Some, Hh in Hf.
    rewrite (fold_add_sub_keep h gs (name g) (set_key (name g) (SObj sub) st0) st); [apply lookup_set_key_eq| |done].
    intros g2 Hg2 E. apply Hn'. rewrite <- E. by apply list_elem_of_fmap_2.
  - apply elem_of_cons in Hin as [->|Hin]; [done|]. eauto.
Qed.

(** C15 (functional).  A form's state holds each form [getSubForm]
    returns under that form's [name] attribute, as the nested object of
    that form's own state (when the names of the sub-forms differ). *)
Theorem getState_nested pg fuel f g sub st :
  NoDup (map name (getSubForm pg f)) -> g ∈ getSubForm pg f ->
  getState pg fuel g = Some sub -> getState pg (S fuel) f = Some st ->
  lookup_key (name g) st = Some (SObj sub).
Proof. intros. eapply fold_add_sub_lookup; eauto. Qed.

(** The entry of a radio group in the state, under the hypotheses of
    [getState_radio_group]. *)
Lemma radio_group_entry pg fuel f i e st :
  i ∈ form_elements (dom pg) (formRef f) -> get_el (dom pg) i = Some e ->
  el_tag e = TInput -> el_type e = "radio" -> truthy (el_name e) = true ->
  truthy (get_prop (dom pg) i FORM_IGNORE_PROPERTY_NAME) = false ->
  (forall r, get_prop (dom pg) i FORM_VALUE_FUNCTION_KEY <> Some (XValueFn r)) ->
  (forall g, g ∈ getSubForm pg f -> name g <> el_name e) ->
  getState pg (S fuel) f = Some st ->
  lookup_key (el_name e) st =
    Some (SVal (named_value pg (namedItem (dom pg) (formRef f) (el_name e)))).
Proof.
  intros Hi He Ht Hty Hn Hig Hfn Hsub Hst. simpl in Hst.
  rewrite (fold_add_sub_keep _ _ _ _ _ Hsub Hst). unfold flat_state.
  assert (radios_ok pg f (fold_left (scan_element pg f) (form_elements (dom pg) (formRef f)) ([], [])).2)
    as [Hnd Hok] by (apply scan_radios_ok; split; [constructor|done]).
  pose proof (scan_radios_hit pg f _ ([], []) i e Hi He Ht Hty Hn Hig Hfn) as [v Hv].
  destruct (fold_left (scan_element pg f) _ _) as [st0 radios]. simpl in *.
  rewrite (Hok _ _ Hv) in Hv.
  exact (fold_set_keys_lookup (fun ni => SVal (named_value pg ni)) _ _ _ _ Hnd Hv).
Qed.

(** C16 (functional).  A radio button of [formRef.elements] with a
    [name], neither ignored nor carrying a value function, makes the
    form's state hold, under that name, the [value] of
    [elements.namedItem(name)] (the [RadioNodeList] of the group), unless
    a nested form has the same name. *)
Theorem getState_radio_group pg fuel f i e st :
  i ∈ form_elements (dom pg) (formRef f) -> get_el (dom pg) i = Some e ->
  el_tag e = TInput -> el_type e = "radio" -> truthy (el_name e) = true ->
  truthy (get_prop (dom pg) i FORM_IGNORE_PROPERTY_NAME) = false ->
  (forall r, get_prop (dom pg) i FORM_VALUE_FUNCTION_KEY <> Some (XValueFn r)) ->
  (forall g, g ∈ getSubForm pg f -> name g <> el_name e) ->
  getState pg (S fuel) f = Some st ->
  lookup_key (el_name e) st =
    Some (SVal (named_value pg (namedItem (dom pg) (formRef f) (el_name e)))).
Proof. apply radio_group_entry. Qed.

(** C17 (functional; the code differs from the spec).  A radio button
    that is the only element of its form with its name is read through
    [namedItem], which then returns the button itself, not a
    [RadioNodeList]: the state holds the button's [value] although it is
    not checked, where the [RadioNodeList] of that one button has the
    value [""]. *)
Theorem getState_single_radio_unchecked pg fuel f i e st :
  i ∈ form_elements (dom pg) (formRef f) -> get_el (dom pg) i = Some e ->
  el_tag e = TInput -> el_type e = "radio" -> truthy (el_name e) = true -> el_checked e = false ->
  namedItem (dom pg) (formRef f) (el_name e) = NIElement i ->
  truthy (get_prop (dom pg) i FORM_IGNORE_PROPERTY_NAME) = false ->
  (forall r, get_prop (dom pg) i FORM_VALUE_FUNCTION_KEY <> Some (XValueFn r)) ->
  (forall g, g ∈ getSubForm pg f -> name g <> el_name e) ->
  getState pg (S fuel) f = Some st ->
  lookup_key (el_name e) st = Some (SVal (FString (el_value e))) /\ radio_list_value (dom pg) [i] = "".
Proof.
  intros Hi He Ht Hty Hn Hc Hni Hig Hfn Hsub Hst.
  rewrite (radio_group_entry pg fuel f i e st), Hni by done. cbn [named_value]. rewrite He.
  split; [done|]. unfold radio_list_value. cbn. unfold is_checked_radio. by rewrite He, Hc, andb_false_r.
Qed.

(** ** Witnesses *)

Lemma getState_terminates_witness :
  tree_ok (dom ex_page) = true /\ forms_registered ex_page = true /\
  exists st, forall fuel, S (length (dom_order (dom ex_page))) <= fuel -> getState ex_page fuel ex_A = Some st.
Proof.
  split; [vm_compute; reflexivity|]. split; [vm_compute; reflexivity|].
  apply getState_terminates; vm_compute; reflexivity.
Defined.

Lemma getState_nested_witness :
  lookup_key (name ex_B) (default [] (getState ex_page 5 ex_A)) =
  Some (SObj (default [] (getState ex_page 4 ex_B))).
Proof.
  apply (getState_nested ex_page 4 ex_A ex_B).
  - apply (bool_decide_unpack _). vm_compute. reflexivity.
  - apply (bool_decide_unpack _). vm_compute. reflexivity.
  - vm_compute. reflexivity.
  - vm_compute. reflexivity.
Defined.

Lemma getState_radio_group_witness :
  lookup_key "color" (default [] (getState ex_page 5 ex_A)) =
  Some (SVal (named_value ex_page (namedItem (dom ex_page) 100 "color"))) /\
  named_value ex_page (namedItem (dom ex_page) 100 "color") = FString "green".
Proof.
  split; [|vm_compute; reflexivity].
  apply (getState_radio_group ex_page 4 ex_A 103
           (ex_el TInput "radio" "color" "green" true (Some 100) (Some 100))).
  - apply (bool_decide_unpack _). vm_compute. reflexivity.
  - vm_compute. reflexivity.
  - reflexivity.
  - reflexivity.
  - reflexivity.
  - vm_compute. reflexivity.
  - intros r. vm_compute. discriminate.
  - intros g Hg. assert (Hs : getSubForm ex_page ex_A = [ex_B; ex_C]) by (vm_compute; reflexivity).
    rewrite Hs in Hg.
    repeat (apply elem_of_cons in Hg as [->|Hg]; [vm_compute; discriminate|]).
    by apply not_elem_of_nil in Hg.
  - vm_compute. reflexivity.
Defined.

Lemma getState_single_radio_unchecked_witness :
  lookup_key "agree" (default [] (getState ex_page 2 ex_S)) = Some (SVal (FString "yes")) /\
  radio_list_value (dom ex_page) [201] = "".
Proof.
  apply (getState_single_radio_unchecked ex_page 1 ex_S 201
           (ex_el TInput "radio" "agree" "yes" false (Some 200) (Some 200))).
  - apply (bool_decide_unpack _). vm_compute. reflexivity.
  - vm_compute. reflexivity.
  - reflexivity.
  - reflexivity.
  - reflexivity.
  - reflexivity.
  - vm_compute. reflexivity.
  - vm_compute. reflexivity.
  - intros r. vm_compute. discriminate.
  - intros g Hg. assert (Hs : getSubForm ex_page ex_S = []) by (vm_compute; reflexivity).
    rewrite Hs in Hg. by apply not_elem_of_nil in Hg.
  - vm_compute. reflexivity.
Defined.

End Form.
