(* ===== verification/FormValidation.v ===== *)
(** [Form.validate(force)] (component/form/form.tsx, lines 75-94): the
    two phases over the fields and the nested forms, on a run-time of
    several components.  What a form needs of a field is the interface
    [FieldValidation] ([element.validate(force)] and the promise it
    returns); the generic theorems are proved against it and
    [Validation.v] discharges it. *)
From S2P Require Import Prelude JsValue Dom Config Validation Form.

Module FormValidation.
Import Form.

(** ** What a form relies on in a field *)

(** A field's run-time [W]: [fv_validate force] is the synchronous part
    of [element.validate(force)] (up to its first [await]); the call gets
    the number [fv_next] and [fv_result] tells what it has returned so
    far; [fv_step] are the field's own steps (its timer, its suspended
    callbacks, its events); [fv_run] is one way of running them;
    [fv_ready] says the field is bound and its validators do not throw,
    and [fv_verdict force w] is what a call made on [w] returns. *)
Class FieldValidation (W : Type) := {
  fv_validate : bool -> W -> W;
  fv_next : W -> nat;
  fv_result : W -> nat -> option Validation.CallResult;
  fv_step : W -> W -> Prop;
  fv_run : W -> W;
  fv_ok : W -> Prop;
  fv_ready : W -> Prop;
  fv_verdict : bool -> W -> bool;
}.

Class FieldValidationLaws (W : Type) `{FieldValidation W} := {
  fv_ok_validate force w : fv_ok w -> fv_ok (fv_validate force w);
  fv_ok_step w w' : fv_ok w -> fv_step w w' -> fv_ok w';
  fv_run_steps w : fv_ok w -> star fv_step w (fv_run w);
  fv_keeps_step w w' n r : fv_ok w -> fv_step w w' -> fv_result w n = Some r -> fv_result w' n = Some r;
  fv_keeps_validate force w n r :
    fv_ok w -> fv_result w n = Some r -> fv_result (fv_validate force w) n = Some r;
  fv_run_verdict force w : fv_ok w -> fv_ready w ->
    fv_result (fv_run (fv_validate force w)) (fv_next w) =
    Some (Validation.Returns (fv_verdict force w));
}.

(** ** The run-time of a page *)

(** What an [await Promise.all(...)] waits for: the call numbered [n] of
    the field [c], or the promise of a [Form.validate] call. *)
Inductive Handle :=
| HField (c n : nat)
| HForm (p : nat).

(** Where the executor of [new Promise(async (resolve) => ...)] is
    suspended: at the first [await] (the fields), or at the second (the
    sub-forms) with its local [result]. *)
Inductive Phase :=
| PElements
| PSubForms (result : bool).

Record FTask := mkFTask {
  ft_form : Form;
  ft_promise : nat;
  ft_force : bool;
  ft_phase : Phase;
  ft_wait : list Handle;
}.

(** The settled state of [Promise.all]: it rejects as soon as one
    promise rejects, and fulfils with the array of values once all have
    fulfilled. *)
Inductive AllState :=
| AllPending
| AllFulfilled (bs : list bool)
| AllRejected.

Fixpoint promise_all (rs : list (option (option bool))) : AllState :=
  match rs with
  | [] => AllFulfilled []
  | r :: rs' =>
      match r, promise_all rs' with
      | Some None, _ | _, AllRejected => AllRejected
      | Some (Some b), AllFulfilled bs => AllFulfilled (b :: bs)
      | _, _ => AllPending
      end
  end.

Section Runtime.
Context {W : Type} `{FieldValidation W}.

(** The components of a page: the fields by identity (each a run-time
    of its own), the suspended executors of [Form.validate], the
    promises of those calls, the ["formValidation"] events (form,
    [valid], [state]), and a supply of promise identities. *)
Record FWorld := mkFWorld {
  fw_page : Page;
  fw_fields : gmap nat W;
  fw_tasks : list FTask;
  fw_promises : gmap nat Validation.PState;
  fw_events : list (nat * bool * option (list (string * StateVal)));
  fw_fresh : nat;
}.

Variable fc : FormConfig.
Implicit Types (fw : FWorld) (f g : Form).

Definition set_field fw (c : nat) (w : W) : FWorld :=
  mkFWorld (fw_page fw) (<[c := w]> (fw_fields fw)) (fw_tasks fw) (fw_promises fw)
    (fw_events fw) (fw_fresh fw).

Definition with_ftasks fw (ts : list FTask) : FWorld :=
  mkFWorld (fw_page fw) (fw_fields fw) ts (fw_promises fw) (fw_events fw) (fw_fresh fw).

(** How far an awaited promise has got: pending ([None]), fulfilled
    ([Some (Some b)]) or rejected ([Some None]); an [async] method that
    throws rejects its promise. *)
Definition handle_result fw (h : Handle) : option (option bool) :=
  match h with
  | HField c n =>
      match fw_fields fw !! c with
      | Some w => match fv_result w n with
                  | Some (Validation.Returns b) => Some (Some b)
                  | Some Validation.Throws => Some None
                  | None => None
                  end
      | None => None
      end
  | HForm p =>
      match fw_promises fw !! p with
      | Some (Validation.Fulfilled b) => Some (Some b)
      | Some Validation.Rejected => Some None
      | _ => None
      end
  end.

Definition await_all fw (hs : list Handle) : AllState :=
  promise_all (map (handle_result fw) hs).

(** [element.validate(force)] for the component [c]; calling a method of
    a missing component throws. *)
Definition call_field (force : bool) fw (c : nat) : option (FWorld * Handle) :=
  match fw_fields fw !! c with
  | Some w => Some (set_field fw c (fv_validate force w), HField c (fv_next w))
  | None => None
  end.

(** [this.getElements().map(element => element.validate(force))]. *)
Fixpoint call_fields (force : bool) fw (cs : list nat) : option (FWorld * list Handle) :=
  match cs with
  | [] => Some (fw, [])
  | c :: cs' =>
      match call_field force fw c with
      | Some (fw1, h) =>
          match call_fields force fw1 cs' with
          | Some (fw2, hs) => Some (fw2, h :: hs)
          | None => None
          end
      | None => None
      end
  end.

(** [form.validate(force)] up to its first [await]: a new promise, then
    the executor calls [validate] on every field of [getElements()] and
    suspends on [Promise.all].  If a call throws, the [async] executor
    rejects its own promise, which nobody awaits, and [resolve] is never
    called. *)
Definition form_validate (force : bool) f fw : FWorld :=
  let p := fw_fresh fw in
  let fw1 := mkFWorld (fw_page fw) (fw_fields fw) (fw_tasks fw)
               (<[p := Validation.Pending]> (fw_promises fw)) (fw_events fw) (S p) in
  match call_fields force fw1 (getElements fc (fw_page fw) f) with
  | Some (fw2, hs) => with_ftasks fw2 (fw_tasks fw2 ++ [mkFTask f p force PElements hs])
  | None => fw1
  end.

(** [this.getSubForm().map(element => element.validate(force))]. *)
Fixpoint form_validate_all (force : bool) fw (gs : list Form) : FWorld * list Handle :=
  match gs with
  | [] => (fw, [])
  | g :: gs' =>
      let '(fw2, hs) := form_validate_all force (form_validate force g fw) gs' in
      (fw2, HForm (fw_fresh fw) :: hs)
  end.

(** [elementPromises.filter(v => !v).length > 0 ? false : result]. *)
Definition any_false (bs : list bool) : bool := Nat.ltb 0 (length (List.filter negb bs)).

(** The fuel [getState] is given: one more than the number of nodes
    (enough on a tree, [Form.getState_terminates]). *)
Definition state_fuel (pg : Page) : nat := S (length (dom_order (dom pg))).

(** [dispatchFormValidation(detail)] (lines 39-48): a bubbling,
    cancelable, composed ["formValidation"] event from form [f] whose
    detail is a copy of [{valid, state}]. *)
Definition dispatchFormValidation (f : nat) (valid : bool) (st : option (list (string * StateVal)))
    (evs : list (nat * bool * option (list (string * StateVal)))) :=
  evs ++ [(f, valid, st)].

(** The executor [k] resumes once its [Promise.all] has settled.  A
    rejection makes the [await] throw, which aborts the executor.  After
    the fields: [result] is [false] if one returned [false]
    ([formRef.checkValidity()] only fires [invalid] events), and the
    sub-forms are validated.  After the sub-forms: the event is
    dispatched with [getState()] and the promise resolves. *)
Definition resume_form (k : nat) fw : FWorld :=
  match fw_tasks fw !! k with
  | Some t =>
      let fw0 := with_ftasks fw (delete k (fw_tasks fw)) in
      match await_all fw (ft_wait t) with
      | AllPending => fw
      | AllRejected => fw0
      | AllFulfilled bs =>
          match ft_phase t with
          | PElements =>
              let result := if any_false bs then false else true in
              let '(fw1, hs) := form_validate_all (ft_force t) fw0 (getSubForm (fw_page fw) (ft_form t)) in
              with_ftasks fw1 (fw_tasks fw1 ++
                [mkFTask (ft_form t) (ft_promise t) (ft_force t) (PSubForms result) hs])
          | PSubForms r =>
              let result := if any_false bs then false else r in
              mkFWorld (fw_page fw) (fw_fields fw) (delete k (fw_tasks fw))
                (Validation.resolve (ft_promise t) result (fw_promises fw))
                (dispatchFormValidation (self (ft_form t)) result
                   (getState (fw_page fw) (state_fuel (fw_page fw)) (ft_form t)) (fw_events fw))
                (fw_fresh fw)
          end
      end
  | None => fw
  end.

(** The event loop of the page: a form's [validate] is called, an
    executor whose [Promise.all] has settled resumes, or a field takes
    one of its own steps. *)
Inductive fstep : FWorld -> FWorld -> Prop :=
| fs_validate force f fw : fstep fw (form_validate force f fw)
| fs_resume k t fw : fw_tasks fw !! k = Some t -> await_all fw (ft_wait t) <> AllPending ->
    fstep fw (resume_form k fw)
| fs_field c w w' fw : fw_fields fw !! c = Some w -> fv_step w w' -> fstep fw (set_field fw c w').
(** ** Runs used by the theorems *)

(** The handle [element.validate(force)] gets on [fw]. *)
Definition field_handle fw (c : nat) : Handle :=
  HField c (match fw_fields fw !! c with Some w => fv_next w | None => 0 end).

(** What the field [c] of [fw] returns to a call. *)
Definition field_verdict (force : bool) fw (c : nat) : bool :=
  match fw_fields fw !! c with Some w => fv_verdict force w | None => false end.

(** [fw'] differs from [fw] only in the fields. *)
Definition same_but_fields fw fw' : Prop :=
  fw_page fw' = fw_page fw /\ fw_tasks fw' = fw_tasks fw /\ fw_promises fw' = fw_promises fw /\
  fw_events fw' = fw_events fw /\ fw_fresh fw' = fw_fresh fw.

(** Let each field of [cs] run its own steps. *)
Definition run_field fw (c : nat) : FWorld :=
  match fw_fields fw !! c with
  | Some w => set_field fw c (fv_run w)
  | None => fw
  end.

Definition run_fields (cs : list nat) fw : FWorld := fold_left run_field cs fw.

(** A whole [validate] of a form [f] with no sub-form: the call, the
    fields' runs, then the executor resumes at its two [await]s (it is
    the last suspended executor). *)
Definition leaf_run (force : bool) f fw : FWorld :=
  let k := length (fw_tasks fw) in
  resume_form k (resume_form k
    (run_fields (getElements fc (fw_page fw) f) (form_validate force f fw))).
End Runtime.

Arguments FWorld W : clear implicits.

(** ** The invariant of the run-time

    Every field is well formed, every promise was allocated, the promise
    of every suspended executor is pending, and no two executors share a
    promise. *)
Definition fields_ok {W : Type} `{FieldValidation W} (fw : FWorld W) : Prop :=
  forall c w, fw_fields fw !! c = Some w -> fv_ok w.

Record fw_inv {W : Type} `{FieldValidation W} (fw : FWorld W) : Prop := {
  inv_fields : fields_ok fw;
  inv_promises : forall p, is_Some (fw_promises fw !! p) -> p < fw_fresh fw;
  inv_tasks : Forall (fun t => fw_promises fw !! ft_promise t = Some Validation.Pending) (fw_tasks fw);
  inv_nodup : NoDup (map ft_promise (fw_tasks fw));
}.

(** ** [Validation] is a field *)

(** [Validation.v]'s component with its event loop: a call is
    [Validation.validate], its outcome [Validation.call_result], its run
    the scheduler [Validation.drain] with the fuel of C8, and its verdict
    [Validation.verdict]. *)
Definition validation_field (cfg : I_FormConfig) : FieldValidation Validation.World := {|
  fv_validate := Validation.validate cfg;
  fv_next := Validation.fresh;
  fv_result := Validation.call_result;
  fv_step := Validation.step cfg;
  fv_run := fun w => Validation.drain cfg (S (length (Validation.validators (Validation.comp w)))) w;
  fv_ok := Validation.wf;
  fv_ready := fun w => exists tg e, Validation.target (Validation.comp w) = Some tg /\
                get_el (Validation.dom w) tg = Some e /\ Validation.no_throw (Validation.validators (Validation.comp w));
  fv_verdict := Validation.verdict;
|}.

(** A pending promise that no executor will resolve: its own executor
    has gone. *)
Definition orphan {W : Type} (fw : FWorld W) (p : nat) : Prop :=
  fw_promises fw !! p = Some Validation.Pending /\ p ∉ map ft_promise (fw_tasks fw).

(** The fields of the example pages use the default [stForm]. *)
Definition stform_field : FieldValidation Validation.World := validation_field default_stForm.
#[local] Existing Instance stform_field.

(** ** Schedules of a page of [Validation] fields

    A schedule names the step taken at each point: a form's [validate]
    call, the resumption of a suspended executor, the firing of a
    field's pending timer, or the resumption of a field's callback
    suspended at [await validator(value)]. *)
Inductive Choice :=
| CValidate (force : bool) (f : Form)
| CResume (k : nat)
| CFire (c : nat)
| CFieldResume (c k : nat).

Section Schedule.
Variable cfg : I_FormConfig.
Variable fc : FormConfig.

Definition apply_choice (ch : Choice) (fw : FWorld Validation.World) : option (FWorld Validation.World) :=
  match ch with
  | CValidate force f => Some (@form_validate _ (validation_field cfg) fc force f fw)
  | CResume k =>
      match fw_tasks fw !! k with
      | Some t => match @await_all _ (validation_field cfg) fw (ft_wait t) with
                  | AllPending => None
                  | _ => Some (@resume_form _ (validation_field cfg) fc k fw)
                  end
      | None => None
      end
  | CFire c =>
      match fw_fields fw !! c with
      | Some w => match Validation.timers w with
                  | tm :: _ => Some (set_field fw c (Validation.fire tm w))
                  | [] => None
                  end
      | None => None
      end
  | CFieldResume c k =>
      match fw_fields fw !! c with
      | Some w => match Validation.tasks w !! k with
                  | Some _ => Some (set_field fw c (Validation.resume cfg k w))
                  | None => None
                  end
      | None => None
      end
  end.

Fixpoint run_choices (chs : list Choice) (fw : FWorld Validation.World) : option (FWorld Validation.World) :=
  match chs with
  | [] => Some fw
  | ch :: chs' => match apply_choice ch fw with
                  | Some fw' => run_choices chs' fw'
                  | None => None
                  end
  end.
End Schedule.

(** ** A page of three nested forms

    The page [Form.ex_page]: form [ex_A] holds field ["a"] (component
    20) and nests [ex_B] with field ["b"] (21), which nests [ex_C] with
    field ["c"] (22).  Each field is bound to its input, has the
    [required] validator, and has not been validated yet. *)
Definition ex_field (c tg : nat) : Validation.World :=
  Validation.mkWorld (Validation.mkValidation c tg None None [Validation.ex_required] (Some tg)
    None None None) (dom ex_page) [] ∅ [] [] [] [] [] 0.

Definition ex_fworld : FWorld Validation.World :=
  mkFWorld ex_page (list_to_map [(20, ex_field 20 101); (21, ex_field 21 111); (22, ex_field 22 121)])
    [] ∅ [] 0.

(** A [Validation] on field ["a"] whose render found no input (its
    [target] is undefined) and which has been validated once, so that
    its reject handle is stored: its next [validate] throws when it
    builds the rejection message from [this.target.name]. *)
Definition ex_unbound : Validation.World :=
  Validation.validate default_stForm false
    (Validation.mkWorld (Validation.mkValidation 20 101 None None [Validation.ex_required] None
       None None None) (dom ex_page) [] ∅ [] [] [] [] [] 0).

Definition ex_fworld_unbound : FWorld Validation.World :=
  mkFWorld ex_page (<[20 := ex_unbound]> (fw_fields ex_fworld)) [] ∅ [] 0.

(** What the browser does after [ex_A.validate()]: timers fire in the
    order they were set (all have the same delay) and every promise
    continuation runs before the next timer.  [ex_A] validates ["a"];
    once ["a"] returns it validates [ex_B] and [ex_C] (both are in
    [getSubForm]), which call ["b"] and ["c"]; ["b"]'s timer fires
    first and [ex_B], resuming, validates [ex_C] again, whose call on
    ["c"] cancels [ex_A]'s pending one. *)
Definition ex_schedule : list Choice :=
  [CValidate false ex_A; CFire 20; CFieldResume 20 0; CResume 0;
   CFire 21; CFieldResume 21 0; CResume 0;
   CResume 0; CResume 3;
   CFire 22; CFieldResume 22 0; CResume 1; CResume 2; CResume 1; CResume 0].
(** ** Lemmas on the run-time *)

Lemma promise_all_fulfilled bs : promise_all (map (fun b => Some (Some b)) bs) = AllFulfilled bs.
Proof. induction bs as [|b bs IH]; simpl; [done|]. by rewrite IH. Qed.

Lemma promise_all_rejected rs : Some None ∈ rs -> promise_all rs = AllRejected.
Proof.
  induction rs as [|r rs IH]; intros Hin; [by apply not_elem_of_nil in Hin|].
  apply elem_of_cons in Hin as [<-|Hin]; simpl; [done|].
  rewrite (IH Hin). by destruct r as [[]|].
Qed.

(** [filter(v => !v).length > 0] is the negation of [every(v => v)]. *)
Lemma any_false_forallb bs : any_false bs = negb (forallb id bs).
Proof.
  unfold any_false. induction bs as [|[] bs IH]; simpl; [done|done|].
  by destruct (length _).
Qed.

Lemma if_any_false bs r : (if any_false bs then false else r) = forallb id bs && r.
Proof. rewrite any_false_forallb. by destruct (forallb id bs), r. Qed.

#[export] Hint Rewrite promise_all_fulfilled if_any_false : stform.

Section Lemmas.
Context {W : Type} `{FieldValidationLaws W}.
Variable fc : FormConfig.
Implicit Types (fw : FWorld W) (f g : Form).

Lemma call_fields_ok force fw cs :
  NoDup cs -> Forall (fun c => is_Some (fw_fields fw !! c)) cs ->
  exists fw', call_fields force fw cs = Some (fw', map (field_handle fw) cs) /\
    same_but_fields fw fw' /\
    forall c, fw_fields fw' !! c =
      if decide (c ∈ cs) then fv_validate force <$> fw_fields fw !! c else fw_fields fw !! c.
Proof.
  revert fw. induction cs as [|c cs IH]; intros fw Hnd Hs.
  - exists fw. split; [done|]. split; [repeat split|]. intros c. by rewrite decide_False by set_solver.
  - apply NoDup_cons in Hnd as [Hc Hnd]. inversion Hs as [|? ? [w Hw] Hs']; subst.
    simpl. unfold call_field. rewrite Hw.
    destruct (IH (set_field fw c (fv_validate force w)) Hnd) as (fw' & Ecall & Hsame & Hf).
    { eapply Forall_impl; [exact Hs'|]. intros c' Hc'. simpl.
      destruct (decide (c = c')) as [->|Hne]; [rewrite lookup_insert_eq; by eexists|].
      by rewrite lookup_insert_ne. }
    rewrite Ecall. exists fw'. split.
    + do 2 f_equal. unfold field_handle. rewrite Hw. f_equal.
      apply map_ext_in. intros c' Hc'%list_elem_of_In. unfold field_handle. simpl.
      rewrite lookup_insert_ne; [done|]. intros ->. contradiction.
    + destruct Hsame as (?&?&?&?&?). split; [repeat split; done|].
      intros c'. rewrite Hf. simpl.
      destruct (decide (c = c')) as [<-|Hne].
      * rewrite decide_False by done. rewrite decide_True by set_solver.
        by rewrite lookup_insert_eq, Hw.
      * rewrite lookup_insert_ne by done.
        destruct (decide (c' ∈ cs)); [rewrite decide_True by set_solver|rewrite decide_False by set_solver];
          done.
Qed.
Lemma set_field_twice fw c w1 w2 : set_field (set_field fw c w1) c w2 = set_field fw c w2.
Proof. unfold set_field. simpl. by rewrite insert_insert_eq. Qed.

Lemma set_field_id fw c w : fw_fields fw !! c = Some w -> set_field fw c w = fw.
Proof. intros Hw. destruct fw. unfold set_field. simpl in *. by rewrite insert_id. Qed.

(** A field's own steps are steps of the page. *)
Lemma field_steps fw c w w' :
  fw_fields fw !! c = Some w -> star fv_step w w' -> star (fstep fc) fw (set_field fw c w').
Proof.
  intros Hw Hs. revert fw Hw. induction Hs as [w|w1 w2 w3 H12 H23 IH]; intros fw Hw.
  - rewrite set_field_id by done. constructor.
  - eapply star_step; [by eapply fs_field|].
    rewrite <- (set_field_twice fw c w2 w3). apply IH. simpl. apply lookup_insert_eq.
Qed.

Lemma run_fields_ok cs fw :
  NoDup cs -> Forall (fun c => exists w, fw_fields fw !! c = Some w /\ fv_ok w) cs ->
  star (fstep fc) fw (run_fields cs fw) /\ same_but_fields fw (run_fields cs fw) /\
  forall c, fw_fields (run_fields cs fw) !! c =
    if decide (c ∈ cs) then fv_run <$> fw_fields fw !! c else fw_fields fw !! c.
Proof.
  revert fw. induction cs as [|c cs IH]; intros fw Hnd Hs.
  - split; [constructor|]. split; [repeat split|]. intros c. by rewrite decide_False by set_solver.
  - apply NoDup_cons in Hnd as [Hc Hnd]. inversion Hs as [|? ? (w & Hw & Hok) Hs']; subst.
    assert (Er : run_field fw c = set_field fw c (fv_run w)) by (unfold run_field; by rewrite Hw).
    unfold run_fields. simpl. rewrite Er. fold (run_fields cs (set_field fw c (fv_run w))).
    destruct (IH (set_field fw c (fv_run w)) Hnd) as (Hst & Hsame & Hf).
    { apply Forall_forall. intros c' Hc'.
      destruct (proj1 (Forall_forall _ _) Hs' c' Hc') as (w' & Hw' & Hok'). exists w'. simpl.
      rewrite lookup_insert_ne; [done|]. intros ->. contradiction. }
    split; [|split].
    + eapply star_trans; [|exact Hst]. apply (field_steps fw c w); [done|by apply fv_run_steps].
    + destruct Hsame as (?&?&?&?&?). repeat split; done.
    + intros c'. rewrite Hf. simpl. destruct (decide (c = c')) as [<-|Hne].
      * rewrite decide_False by done. rewrite decide_True by set_solver.
        by rewrite lookup_insert_eq, Hw.
      * rewrite lookup_insert_ne by done.
        destruct (decide (c' ∈ cs)); [rewrite decide_True by set_solver|rewrite decide_False by set_solver];
          done.
Qed.
Lemma form_validate_fields force f fw :
  NoDup (getElements fc (fw_page fw) f) ->
  Forall (fun c => is_Some (fw_fields fw !! c)) (getElements fc (fw_page fw) f) ->
  exists fw2,
    form_validate fc force f fw = with_ftasks fw2 (fw_tasks fw ++
      [mkFTask f (fw_fresh fw) force PElements (map (field_handle fw) (getElements fc (fw_page fw) f))]) /\
    fw_page fw2 = fw_page fw /\ fw_tasks fw2 = fw_tasks fw /\
    fw_promises fw2 = <[fw_fresh fw := Validation.Pending]> (fw_promises fw) /\
    fw_events fw2 = fw_events fw /\ fw_fresh fw2 = S (fw_fresh fw) /\
    forall c, fw_fields fw2 !! c = if decide (c ∈ getElements fc (fw_page fw) f)
                                  then fv_validate force <$> fw_fields fw !! c else fw_fields fw !! c.
Proof.
  intros Hnd Hs. unfold form_validate.
  set (fw1 := mkFWorld (fw_page fw) (fw_fields fw) (fw_tasks fw)
                (<[fw_fresh fw := Validation.Pending]> (fw_promises fw)) (fw_events fw) (S (fw_fresh fw))).
  destruct (call_fields_ok force fw1 _ Hnd Hs) as (fw2 & -> & (Ep & Et & Epr & Ee & Ef) & Hf).
  exists fw2. subst fw1. simpl in Ep, Et, Epr, Ee, Ef, Hf.
  rewrite Et. split; [reflexivity|]. by repeat split.
Qed.

Lemma forallb_id_map {A} (g : A -> bool) l : forallb id (map g l) = forallb g l.
Proof. induction l; simpl; congruence. Qed.

Lemma resolve_insert p b ps :
  Validation.resolve p b (<[p := Validation.Pending]> ps) = <[p := Validation.Fulfilled b]> ps.
Proof.
  unfold Validation.resolve, Validation.settle. rewrite lookup_insert_eq. apply insert_insert_eq.
Qed.

(** The executor resumes after the fields: with no sub-form it suspends
    again at once, on an empty [Promise.all]. *)
Lemma resume_elements_leaf k f p force hs bs fw :
  fw_tasks fw !! k = Some (mkFTask f p force PElements hs) -> await_all fw hs = AllFulfilled bs ->
  getSubForm (fw_page fw) f = [] ->
  resume_form fc k fw =
  with_ftasks fw (delete k (fw_tasks fw) ++ [mkFTask f p force (PSubForms (forallb id bs)) []]).
Proof.
  intros Hk Hall Hsub. unfold resume_form. rewrite Hk. simpl. rewrite Hall. simpl.
  rewrite Hsub. simpl. by rewrite if_any_false, andb_true_r.
Qed.

(** The executor resumes after the sub-forms: the event, then [resolve]. *)
Lemma resume_subforms k f p force r hs bs fw :
  fw_tasks fw !! k = Some (mkFTask f p force (PSubForms r) hs) -> await_all fw hs = AllFulfilled bs ->
  resume_form fc k fw =
  mkFWorld (fw_page fw) (fw_fields fw) (delete k (fw_tasks fw))
    (Validation.resolve p (forallb id bs && r) (fw_promises fw))
    (fw_events fw ++ [(self f, forallb id bs && r, getState (fw_page fw) (state_fuel (fw_page fw)) f)])
    (fw_fresh fw).
Proof. intros Hk Hall. unfold resume_form. rewrite Hk. simpl. rewrite Hall. by rewrite if_any_false. Qed.

Lemma lookup_last {A} (l : list A) x : (l ++ [x]) !! length l = Some x.
Proof. by apply list_lookup_middle. Qed.

Lemma delete_last {A} (l : list A) x : delete (length l) (l ++ [x]) = l.
Proof. by rewrite delete_middle, app_nil_r. Qed.

(** The first phase of [validate(force)] on a form: every field's call
    is made and run; the executor waits on their promises, which hold
    the fields' verdicts. *)
Lemma leaf_fields_phase force f fw :
  fields_ok fw ->
  NoDup (getElements fc (fw_page fw) f) ->
  Forall (fun c => exists w, fw_fields fw !! c = Some w /\ fv_ready w) (getElements fc (fw_page fw) f) ->
  let cs := getElements fc (fw_page fw) f in
  let FW2 := run_fields cs (form_validate fc force f fw) in
  star (fstep fc) fw FW2 /\
  fw_tasks FW2 = fw_tasks fw ++ [mkFTask f (fw_fresh fw) force PElements (map (field_handle fw) cs)] /\
  await_all FW2 (map (field_handle fw) cs) = AllFulfilled (map (field_verdict force fw) cs) /\
  fw_page FW2 = fw_page fw /\ fw_promises FW2 = <[fw_fresh fw := Validation.Pending]> (fw_promises fw) /\
  fw_events FW2 = fw_events fw.
Proof.
  intros Hok Hnd Hready cs FW2. unfold FW2.
  destruct (form_validate_fields force f fw Hnd) as (fw2 & E1 & Ep & Et & Epr & Ee & Ef & Hf).
  { eapply Forall_impl; [exact Hready|]. intros c (w & Hw & _). by eexists. }
  set (FW1 := form_validate fc force f fw) in *.
  destruct (run_fields_ok cs FW1 Hnd) as (Hst & (Ep2 & Et2 & Epr2 & Ee2 & Ef2) & Hf2).
  { apply Forall_forall. intros c Hc.
    destruct (proj1 (Forall_forall _ _) Hready c Hc) as (w & Hw & _).
    exists (fv_validate force w). rewrite E1. simpl. rewrite Hf, decide_True, Hw by done.
    split; [done|]. apply fv_ok_validate, (Hok c w Hw). }
  split_and!.
  - eapply star_trans; [apply star_one, fs_validate|]. fold FW1. exact Hst.
  - by rewrite Et2, E1.
  - unfold await_all. rewrite map_map, <- promise_all_fulfilled, map_map. f_equal.
    apply map_ext_in. intros c Hc%list_elem_of_In.
    destruct (proj1 (Forall_forall _ _) Hready c Hc) as (w & Hw & Hr).
    unfold field_handle, field_verdict, handle_result. rewrite Hw, Hf2, decide_True by done.
    rewrite E1. simpl. rewrite Hf, decide_True, Hw by done. simpl.
    by rewrite (fv_run_verdict force w (Hok c w Hw) Hr).
  - rewrite Ep2, E1. simpl. by rewrite Ep.
  - rewrite Epr2, E1. simpl. by rewrite Epr.
  - rewrite Ee2, E1. simpl. by rewrite Ee.
Qed.

(** C18 (refinement, liveness).  [validate(force)] on a form without
    sub-forms whose fields are distinct, bound and run by [fv_run]:
    the run is a sequence of steps of the page; the form's promise
    resolves with [true] exactly when every field's call returned
    [true] (the field's [fv_verdict]); one ["formValidation"] event
    carries that result and [getState()]; no other executor changes. *)
Theorem leaf_form_validate force f fw :
  fields_ok fw ->
  NoDup (getElements fc (fw_page fw) f) ->
  Forall (fun c => exists w, fw_fields fw !! c = Some w /\ fv_ready w) (getElements fc (fw_page fw) f) ->
  getSubForm (fw_page fw) f = [] ->
  let b := forallb (field_verdict force fw) (getElements fc (fw_page fw) f) in
  let fw' := leaf_run fc force f fw in
  star (fstep fc) fw fw' /\
  fw_promises fw' = <[fw_fresh fw := Validation.Fulfilled b]> (fw_promises fw) /\
  fw_events fw' = fw_events fw ++
    [(self f, b, getState (fw_page fw) (state_fuel (fw_page fw)) f)] /\
  fw_tasks fw' = fw_tasks fw.
Proof.
  intros Hok Hnd Hready Hsub b fw'.
  destruct (leaf_fields_phase force f fw Hok Hnd Hready) as (Hst & Ht2 & Hall & Hpg & Hpr & Hev).
  set (cs := getElements fc (fw_page fw) f) in *.
  set (FW2 := run_fields cs (form_validate fc force f fw)) in *.
  set (T1 := mkFTask f (fw_fresh fw) force PElements (map (field_handle fw) cs)) in *.
  set (k := length (fw_tasks fw)).
  assert (Hk1 : fw_tasks FW2 !! k = Some T1) by (rewrite Ht2; apply lookup_last).
  assert (Hp2 : getSubForm (fw_page FW2) f = []) by (by rewrite Hpg).
  pose proof (resume_elements_leaf k f _ force _ _ FW2 Hk1 Hall Hp2) as E3.
  rewrite Ht2 in E3. unfold k in E3. rewrite delete_last in E3. fold k in E3.
  set (T2 := mkFTask f (fw_fresh fw) force (PSubForms (forallb id (map (field_verdict force fw) cs))) []) in *.
  assert (Hk2 : fw_tasks (resume_form fc k FW2) !! k = Some T2) by (rewrite E3; apply lookup_last).
  pose proof (resume_subforms k f _ force _ [] [] _ Hk2 eq_refl) as E4.
  assert (Efw' : fw' = resume_form fc k (resume_form fc k FW2)) by reflexivity.
  assert (Hb : forallb id [] && forallb id (map (field_verdict force fw) cs) = b)
    by (simpl; by rewrite forallb_id_map).
  rewrite <- Efw', Hb, E3 in E4. simpl in E4. rewrite Hpg, Hpr, Hev in E4.
  split.
  { eapply star_trans; [exact Hst|]. rewrite Efw'.
    eapply star_step; [eapply (fs_resume _ k T1); [exact Hk1|unfold T1; cbn [ft_wait]; by rewrite Hall]|].
    apply star_one. eapply (fs_resume _ k T2); [exact Hk2|done]. }
  rewrite E4. simpl. unfold k. rewrite delete_last, resolve_insert. done.
Qed.

End Lemmas.

(** ** The invariant is preserved *)

Section Invariant.
Context {W : Type} `{FieldValidationLaws W}.
Variable fc : FormConfig.
Implicit Types (fw : FWorld W) (f g : Form).

Lemma call_fields_shape force fw cs fw' hs :
  fields_ok fw -> call_fields force fw cs = Some (fw', hs) -> fields_ok fw' /\ same_but_fields fw fw'.
Proof.
  revert fw hs. induction cs as [|c cs IH]; intros fw hs Hok E; simpl in E.
  - injection E as <- <-. split; [done|]. by repeat split.
  - unfold call_field in E. destruct (fw_fields fw !! c) as [w|] eqn:Hw; [|done].
    destruct (call_fields force (set_field fw c (fv_validate force w)) cs) as [[fw2 hs2]|] eqn:E2;
      [|done].
    injection E as <- <-.
    assert (Hok1 : fields_ok (set_field fw c (fv_validate force w))).
    { intros c' w' Hc'. simpl in Hc'. destruct (decide (c = c')) as [<-|Hne].
      - rewrite lookup_insert_eq in Hc'. injection Hc' as <-. apply fv_ok_validate, (Hok c w Hw).
      - rewrite lookup_insert_ne in Hc' by done. apply (Hok c' w' Hc'). }
    destruct (IH _ _ Hok1 E2) as [Hok2 Hs2].
    split; [done|]. destruct Hs2 as (?&?&?&?&?). by repeat split.
Qed.

(** A [validate] call on a form allocates one promise, keeps every
    other, and adds at most one executor, which waits for it. *)
Lemma form_validate_shape force f fw :
  let fw' := form_validate fc force f fw in
  fields_ok fw -> fields_ok fw' /\ fw_page fw' = fw_page fw /\ fw_events fw' = fw_events fw /\
  fw_fresh fw' = S (fw_fresh fw) /\
  fw_promises fw' = <[fw_fresh fw := Validation.Pending]> (fw_promises fw) /\
  exists ts, fw_tasks fw' = fw_tasks fw ++ ts /\ Forall (fun t => ft_promise t = fw_fresh fw) ts /\
    length ts <= 1.
Proof.
  intros fw' Hok. subst fw'. unfold form_validate.
  destruct (call_fields _ _ _) as [[fw2 hs]|] eqn:E.
  - assert (Hok1 : fields_ok (mkFWorld (fw_page fw) (fw_fields fw) (fw_tasks fw)
      (<[fw_fresh fw := Validation.Pending]> (fw_promises fw)) (fw_events fw) (S (fw_fresh fw))))
      by exact Hok.
    destruct (call_fields_shape _ _ _ _ _ Hok1 E) as [Hok2 (Ep & Et & Epr & Ee & Ef)].
    simpl in *. repeat split; try done. rewrite Et.
    eexists. split; [reflexivity|]. split; [by repeat constructor|simpl; lia].
  - simpl. repeat split; try done. exists []. rewrite app_nil_r.
    split; [done|]. split; [constructor|simpl; lia].
Qed.

Lemma inv_add_pending fw ts :
  fw_inv fw -> Forall (fun t => ft_promise t = fw_fresh fw) ts -> length ts <= 1 ->
  fw_inv (mkFWorld (fw_page fw) (fw_fields fw) (fw_tasks fw ++ ts)
            (<[fw_fresh fw := Validation.Pending]> (fw_promises fw)) (fw_events fw) (S (fw_fresh fw))).
Proof.
  intros [Hok Hp Ht Hnd] Hts Hlen. constructor; simpl; [done| | |].
  - intros p [x Hx]. destruct (decide (p = fw_fresh fw)) as [->|Hne]; [lia|].
    rewrite lookup_insert_ne in Hx by done. specialize (Hp p ltac:(by eexists)). lia.
  - apply Forall_app_2.
    + eapply Forall_impl; [exact Ht|]. intros t Htp. rewrite lookup_insert_ne; [done|].
      specialize (Hp (ft_promise t) (mk_is_Some _ _ Htp)). lia.
    + eapply Forall_impl; [exact Hts|]. intros t ->. apply lookup_insert_eq.
  - rewrite map_app. apply NoDup_app. split; [done|]. split.
    + intros x Hx Hx'. apply list_elem_of_In, in_map_iff in Hx' as (t & <- & Ht').
      rewrite Forall_forall in Hts. rewrite (Hts t (proj2 (list_elem_of_In _ _) Ht')) in Hx.
      apply list_elem_of_In, in_map_iff in Hx as (t' & Et' & Ht'').
      rewrite Forall_forall in Ht. specialize (Ht t' (proj2 (list_elem_of_In _ _) Ht'')).
      specialize (Hp (ft_promise t') (mk_is_Some _ _ Ht)). lia.
    + destruct ts as [|t [|]]; simpl in *; [constructor|apply NoDup_singleton|lia].
Qed.

Lemma form_validate_inv force f fw : fw_inv fw -> fw_inv (form_validate fc force f fw).
Proof.
  intros Hinv.
  destruct (form_validate_shape force f fw (inv_fields _ Hinv))
    as (Hok & Ep & Ee & Ef & Epr & ts & Et & Hts & Hlen).
  pose proof (inv_add_pending fw ts Hinv Hts Hlen) as [_ Hp Ht Hnd].
  constructor; [done| | |]; rewrite ?Ef, ?Epr, ?Et; done.
Qed.

Lemma form_validate_all_shape force fw gs fw' hs :
  fw_inv fw -> form_validate_all fc force fw gs = (fw', hs) ->
  fw_inv fw' /\ fw_page fw' = fw_page fw /\ fw_events fw' = fw_events fw /\ fw_fresh fw <= fw_fresh fw' /\
  (forall p, p < fw_fresh fw -> fw_promises fw' !! p = fw_promises fw !! p) /\
  exists ts, fw_tasks fw' = fw_tasks fw ++ ts /\ Forall (fun t => fw_fresh fw <= ft_promise t) ts.
Proof.
  revert fw fw' hs. induction gs as [|g gs IH]; intros fw fw' hs Hinv E; simpl in E.
  - injection E as <- <-. do 3 (split; [done|]). split; [lia|]. split; [done|].
    exists []. split; [by rewrite app_nil_r|constructor].
  - destruct (form_validate_all fc force (form_validate fc force g fw) gs) as [fw2 hs2] eqn:E2.
    injection E as <- <-.
    pose proof (form_validate_inv force g fw Hinv) as Hinv1.
    destruct (form_validate_shape force g fw (inv_fields _ Hinv))
      as (_ & Ep1 & Ee1 & Ef1 & Epr1 & ts1 & Et1 & Hts1 & _).
    destruct (IH _ _ _ Hinv1 E2) as (Hinv2 & Ep2 & Ee2 & Ef2 & Hpr2 & ts2 & Et2 & Hts2).
    split; [done|]. rewrite Ep2, Ep1, Ee2, Ee1. split; [done|]. split; [done|]. split; [lia|]. split.
    + intros p Hp. rewrite Hpr2 by lia. rewrite Epr1. apply lookup_insert_ne. lia.
    + exists (ts1 ++ ts2). rewrite Et2, Et1, app_assoc. split; [done|].
      apply Forall_app_2.
      * eapply Forall_impl; [exact Hts1|]. intros t Ht. simpl in Ht. lia.
      * eapply Forall_impl; [exact Hts2|]. intros t Ht. simpl in Ht. lia.
Qed.

Lemma inv_delete fw k t :
  fw_inv fw -> fw_tasks fw !! k = Some t ->
  fw_inv (with_ftasks fw (delete k (fw_tasks fw))) /\ ft_promise t ∉ map ft_promise (delete k (fw_tasks fw)).
Proof.
  intros [Hok Hp Ht Hnd] Hk. destruct (NoDup_map_delete ft_promise _ k t Hnd Hk) as [Hn Hnd'].
  split; [|done]. constructor; simpl; try done. by apply Forall_delete.
Qed.

Lemma resume_form_inv k fw : fw_inv fw -> fw_inv (resume_form fc k fw).
Proof.
  intros Hinv. unfold resume_form.
  destruct (fw_tasks fw !! k) as [t|] eqn:Hk; [|done].
  destruct (inv_delete fw k t Hinv Hk) as [Hinv0 Hn].
  assert (Hpt : fw_promises fw !! ft_promise t = Some Validation.Pending)
    by exact (Forall_lookup_1 _ _ _ _ (inv_tasks _ Hinv) Hk).
  assert (Hlt : ft_promise t < fw_fresh fw) by exact (inv_promises _ Hinv _ (mk_is_Some _ _ Hpt)).
  destruct (await_all fw (ft_wait t)) as [|bs|]; [done| |done].
  destruct (ft_phase t) as [|r].
  - destruct (form_validate_all fc (ft_force t) (with_ftasks fw (delete k (fw_tasks fw)))
                (getSubForm (fw_page fw) (ft_form t))) as [fw1 hs] eqn:E.
    destruct (form_validate_all_shape _ _ _ _ _ Hinv0 E)
      as ([Hok1 Hp1 Ht1 Hnd1] & _ & _ & _ & Hpr1 & ts & Et1 & Hts).
    simpl in Hpr1, Et1, Hts. constructor; simpl; try done.
    + apply Forall_app_2; [done|]. constructor; [|constructor]. simpl. rewrite Hpr1 by done. done.
    + rewrite map_app. apply NoDup_app. split; [done|]. split; [|apply NoDup_singleton].
      intros x Hx ->%list_elem_of_singleton. simpl in Hx. rewrite Et1, map_app in Hx.
      apply elem_of_app in Hx as [Hx|Hx]; [done|].
      apply list_elem_of_In, in_map_iff in Hx as (t' & Et' & Ht').
      rewrite Forall_forall in Hts. specialize (Hts t' (proj2 (list_elem_of_In _ _) Ht')). lia.
  - destruct Hinv0 as [Hok0 Hp0 Ht0 Hnd0]. simpl in *. constructor; simpl; try done.
    + intros p Hp'. apply Validation.settle_is_Some in Hp'. by apply Hp0.
    + apply Forall_forall. intros t' Ht'. unfold Validation.resolve.
      rewrite Validation.settle_other.
      * exact (proj1 (Forall_forall _ _) Ht0 t' Ht').
      * intros E. apply Hn. rewrite E. apply list_elem_of_In, in_map_iff.
        exists t'. split; [done|]. by apply list_elem_of_In.
Qed.

Lemma field_step_inv fw c w w' :
  fw_inv fw -> fw_fields fw !! c = Some w -> fv_step w w' -> fw_inv (set_field fw c w').
Proof.
  intros [Hok Hp Ht Hnd] Hw Hs. constructor; simpl; try done.
  intros c' w1 Hc'. simpl in Hc'. destruct (decide (c = c')) as [<-|Hne].
  - rewrite lookup_insert_eq in Hc'. injection Hc' as <-. exact (fv_ok_step w w' (Hok c w Hw) Hs).
  - rewrite lookup_insert_ne in Hc' by done. exact (Hok c' w1 Hc').
Qed.

Lemma fstep_inv fw fw' : fw_inv fw -> fstep fc fw fw' -> fw_inv fw'.
Proof.
  intros Hinv Hs. destruct Hs.
  - by apply form_validate_inv.
  - by apply resume_form_inv.
  - by eapply field_step_inv.
Qed.


Lemma fstep_orphan fw fw' p : fw_inv fw -> fstep fc fw fw' -> orphan fw p -> orphan fw' p.
Proof.
  intros Hinv Hs [Hpp Hpn].
  assert (Hlt : p < fw_fresh fw) by exact (inv_promises _ Hinv _ (mk_is_Some _ _ Hpp)).
  destruct Hs as [force f fw|k t fw Hk _|c w w' fw Hw _].
  - destruct (form_validate_shape force f fw (inv_fields _ Hinv))
      as (_ & _ & _ & _ & Epr & ts & Et & Hts & _).
    split; [rewrite Epr, lookup_insert_ne by lia; done|].
    rewrite Et, map_app, elem_of_app. intros [|Hin]; [done|].
    apply list_elem_of_In, in_map_iff in Hin as (t & Et' & Ht).
    rewrite Forall_forall in Hts. specialize (Hts t (proj2 (list_elem_of_In _ _) Ht)). lia.
  - assert (Hne : ft_promise t <> p).
    { intros <-. apply Hpn, list_elem_of_In, in_map_iff. exists t. split; [done|].
      apply list_elem_of_In. by eapply list_elem_of_lookup_2. }
    assert (Hdel : p ∉ map ft_promise (delete k (fw_tasks fw)))
      by (intros Hin; by apply Hpn, (elem_of_map_delete _ _ k)).
    destruct (inv_delete fw k t Hinv Hk) as [Hinv0 _].
    unfold resume_form. rewrite Hk.
    destruct (await_all fw (ft_wait t)) as [|bs|]; [done| |done].
    destruct (ft_phase t) as [|r].
    + destruct (form_validate_all fc (ft_force t) (with_ftasks fw (delete k (fw_tasks fw)))
                  (getSubForm (fw_page fw) (ft_form t))) as [fw1 hs] eqn:E.
      destruct (form_validate_all_shape _ _ _ _ _ Hinv0 E)
        as (_ & _ & _ & _ & Hpr1 & ts & Et1 & Hts). simpl in *.
      split; [by rewrite Hpr1|]. simpl. rewrite Et1, !map_app, !elem_of_app.
      intros [[|Hin]|Hin]; [done| |by apply list_elem_of_singleton in Hin].
      apply list_elem_of_In, in_map_iff in Hin as (t' & Et' & Ht').
      rewrite Forall_forall in Hts. specialize (Hts t' (proj2 (list_elem_of_In _ _) Ht')). lia.
    + split; [|done]. simpl. unfold Validation.resolve. by rewrite Validation.settle_other.
  - done.
Qed.

Lemma orphan_star fw fw' p : fw_inv fw -> star (fstep fc) fw fw' -> orphan fw p -> orphan fw' p.
Proof.
  intros Hinv Hs Ho.
  assert (Hstep : forall fw1 fw2, fw_inv fw1 /\ orphan fw1 p -> fstep fc fw1 fw2 ->
                   fw_inv fw2 /\ orphan fw2 p).
  { intros fw1 fw2 [Hi Ho1] Hs1. split; [by eapply fstep_inv|by eapply fstep_orphan]. }
  exact (proj2 (star_invariant _ _ Hstep fw fw' Hs (conj Hinv Ho))).
Qed.

(** C20 (error).  When a promise an executor of [Form.validate] awaits
    rejects (a field's [validate] threw), the [await] throws inside the
    [async] executor, [resolve] is never called, and the form's
    promise stays pending in every later state of the page: the
    exception reaches neither the caller nor any handler. *)
Theorem rejected_validate_hangs k t fw fw' :
  fw_inv fw -> fw_tasks fw !! k = Some t -> await_all fw (ft_wait t) = AllRejected ->
  star (fstep fc) (resume_form fc k fw) fw' ->
  fw_promises fw' !! ft_promise t = Some Validation.Pending.
Proof.
  intros Hinv Hk Hrej Hs.
  assert (E : resume_form fc k fw = with_ftasks fw (delete k (fw_tasks fw)))
    by (unfold resume_form; by rewrite Hk, Hrej).
  rewrite E in Hs. destruct (inv_delete fw k t Hinv Hk) as [Hinv0 Hn].
  apply (orphan_star _ _ _ Hinv0 Hs). split; [|done].
  exact (Forall_lookup_1 _ _ _ _ (inv_tasks _ Hinv) Hk).
Qed.
End Invariant.

(** ** [Validation] is a field *)

Lemma validation_field_laws cfg : @FieldValidationLaws Validation.World (validation_field cfg).
Proof.
  split; simpl.
  - apply Validation.validate_wf.
  - apply Validation.step_wf.
  - intros w _. exact (Validation.drain_star cfg (S _) w).
  - apply Validation.step_call_result.
  - intros. by apply Validation.validate_call_result.
  - intros force w Hw (tg & e & Etg & Eel & Hnt). rewrite Validation.validators_validate.
    by apply (Validation.call_returns_verdict cfg force w tg e).
Qed.


(** ** Schedules are runs *)

Lemma apply_choice_step cfg fc ch fw fw' :
  apply_choice cfg fc ch fw = Some fw' -> @fstep _ (validation_field cfg) fc fw fw'.
Proof.
  destruct ch as [force f|k|c|c k]; simpl; intros E.
  - injection E as <-. apply fs_validate.
  - destruct (fw_tasks fw !! k) as [t|] eqn:Ek; [|done].
    destruct (await_all fw (ft_wait t)) eqn:Ea; try done; injection E as <-;
      eapply fs_resume; eauto; by rewrite Ea.
  - destruct (fw_fields fw !! c) as [w|] eqn:Ec; [|done].
    destruct (Validation.timers w) as [|tm ts] eqn:Et; [done|]. injection E as <-.
    eapply (fs_field (H := validation_field cfg)); [exact Ec|]. simpl.
    apply Validation.step_fire. rewrite Et. by left.
  - destruct (fw_fields fw !! c) as [w|] eqn:Ec; [|done].
    destruct (Validation.tasks w !! k) as [tk|] eqn:Et; [|done]. injection E as <-.
    eapply (fs_field (H := validation_field cfg)); [exact Ec|]. simpl.
    by eapply Validation.step_resume.
Qed.

Lemma run_choices_star cfg fc chs fw fw' :
  run_choices cfg fc chs fw = Some fw' -> star (@fstep _ (validation_field cfg) fc) fw fw'.
Proof.
  revert fw. induction chs as [|ch chs IH]; intros fw E; simpl in E.
  - injection E as <-. constructor.
  - destruct (apply_choice cfg fc ch fw) as [fw1|] eqn:E1; [|done].
    eapply star_step; [by apply (apply_choice_step cfg fc ch)|]. by apply IH.
Qed.

(** C19 (safety; the code violates it).  A form nesting a form that
    nests a third reports invalid although every field is valid: on
    [ex_fworld], where the validator of each of the three fields passes
    on its value, the schedule the browser follows after
    [ex_A.validate()] resolves [ex_A]'s promise with [false] and
    dispatches a ["formValidation"] event with [valid] false.
    [getSubForm] returns [ex_C] to [ex_A] as well as to [ex_B]; [ex_B]'s
    second phase validates [ex_C] again, and that call on ["c"] rejects
    the one [ex_A] is waiting for, which then returns [false]. *)
Theorem nested_forms_report_invalid :
  Forall (fun c => @field_verdict _ (validation_field default_stForm) false ex_fworld c = true)
    [20; 21; 22] /\
  exists fw', star (@fstep _ (validation_field default_stForm) defaultFormConfig) ex_fworld fw' /\
    fw_promises fw' !! 0 = Some (Validation.Fulfilled false) /\
    (self ex_A, false) ∈ map fst (fw_events fw').
Proof.
  split; [repeat constructor; vm_compute; reflexivity|].
  set (r := run_choices default_stForm defaultFormConfig ex_schedule ex_fworld).
  assert (E : r = Some (default ex_fworld r)) by (vm_compute; reflexivity).
  exists (default ex_fworld r). split; [by apply (run_choices_star _ _ ex_schedule)|].
  split; [vm_compute; reflexivity|]. apply (bool_decide_unpack _). vm_compute. reflexivity.
Qed.


(** A component that has never been called is well formed. *)
Lemma blank_wf w :
  Validation.timers w = [] -> Validation.state (Validation.comp w) = None -> Validation.events w = [] ->
  Validation.tasks w = [] -> Validation.promises w = ∅ -> Validation.threw w = [] -> Validation.wf w.
Proof.
  intros Ht Hs He Htk Hp Hth. split; [by left|].
  constructor; rewrite ?Hs, ?He, ?Htk, ?Hp, ?Hth; try by constructor.
  intros p [x Hx]. by rewrite lookup_empty in Hx.
Qed.

Lemma ex_field_wf c tg : Validation.wf (ex_field c tg).
Proof. by apply blank_wf. Qed.

Lemma ex_fworld_fields_ok c w : fw_fields ex_fworld !! c = Some w -> Validation.wf w.
Proof.
  intros Hc. apply elem_of_list_to_map_2 in Hc.
  repeat (apply elem_of_cons in Hc as [Hc|Hc]; [injection Hc as -> ->; apply ex_field_wf|]).
  by apply not_elem_of_nil in Hc.
Qed.

Lemma ex_fworld_unbound_inv : @fw_inv _ (validation_field default_stForm) ex_fworld_unbound.
Proof.
  constructor; [| |constructor|constructor].
  - intros c w Hc. unfold ex_fworld_unbound in Hc. simpl in Hc. destruct (decide (c = 20)) as [->|Hne].
    + rewrite lookup_insert_eq in Hc. injection Hc as <-.
      apply Validation.validate_wf, blank_wf; done.
    + rewrite lookup_insert_ne in Hc by done. exact (ex_fworld_fields_ok c w Hc).
  - intros p [x Hx]. unfold ex_fworld_unbound in Hx. simpl in Hx. by rewrite lookup_empty in Hx.
Qed.

Lemma rejected_validate_hangs_witness :
  fw_promises (@resume_form _ (validation_field default_stForm) defaultFormConfig 0
    (@form_validate _ (validation_field default_stForm) defaultFormConfig false ex_A ex_fworld_unbound))
  !! 0 = Some Validation.Pending.
Proof.
  set (fw := @form_validate _ (validation_field default_stForm) defaultFormConfig false ex_A ex_fworld_unbound).
  assert (Hk : fw_tasks fw !! 0 = Some (mkFTask ex_A 0 false PElements [HField 20 1]))
    by (vm_compute; reflexivity).
  apply (@rejected_validate_hangs _ _ (validation_field_laws default_stForm) defaultFormConfig 0
           (mkFTask ex_A 0 false PElements [HField 20 1]) fw).
  - apply (@form_validate_inv _ _ (validation_field_laws default_stForm)), ex_fworld_unbound_inv.
  - exact Hk.
  - vm_compute. reflexivity.
  - constructor.
Defined.

Lemma leaf_form_validate_witness :
  fw_promises (@leaf_run _ (validation_field default_stForm) defaultFormConfig false ex_C ex_fworld) =
  <[0 := Validation.Fulfilled true]> ∅.
Proof.
  assert (Els : getElements defaultFormConfig (fw_page ex_fworld) ex_C = [22]) by (vm_compute; reflexivity).
  assert (Hnd : NoDup (getElements defaultFormConfig (fw_page ex_fworld) ex_C))
    by (apply (bool_decide_unpack _); vm_compute; reflexivity).
  assert (Hready : Forall (fun c => exists w, fw_fields ex_fworld !! c = Some w /\
                      @fv_ready _ (validation_field default_stForm) w)
                     (getElements defaultFormConfig (fw_page ex_fworld) ex_C)).
  { rewrite Els. constructor; [|constructor]. exists (ex_field 22 121). split; [vm_compute; reflexivity|].
    exists 121, (ex_el TInput "text" "c" "vc" false (Some 120) (Some 120)).
    split; [reflexivity|]. split; [vm_compute; reflexivity|].
    constructor; [intros v; discriminate|constructor]. }
  assert (Hsub : getSubForm (fw_page ex_fworld) ex_C = []) by (vm_compute; reflexivity).
  destruct (@leaf_form_validate _ _ (validation_field_laws default_stForm) defaultFormConfig false
              ex_C ex_fworld ex_fworld_fields_ok Hnd Hready Hsub) as (_ & Hp & _ & _).
  rewrite Hp. vm_compute. reflexivity.
Defined.

End FormValidation.
