(* ===== verification/InputValidation.v ===== *)
(** The [InputValidation] component
    (component/validation/input-validation.tsx): the validator list it
    assembles from its declarative attributes for the [Validation] it
    renders, and its binding to the [<input>] it wraps.  The validator
    builders of the external library [st-validate] are the class
    [StValidate]. *)
From S2P Require Import Prelude JsValue Dom Config Validation Form.

Module InputValidation.
Import Form.

(** ** The validators of [st-validate] *)

(** A bound of [max] and [min]: a number or a [Date]. *)
Inductive Limit :=
| LNum (q : JSNum)
| LDate (time : Z).

(** The builders the component imports from [st-validate]; a pattern is
    given by its source text. *)
Class StValidate := {
  sv_required : Validation.Validator;
  sv_maxLength : Z -> Validation.Validator;
  sv_minLength : Z -> Validation.Validator;
  sv_max : Limit -> Validation.Validator;
  sv_min : Limit -> Validation.Validator;
  sv_pattern : string -> Validation.Validator;
}.

(** What the spec says of [required]: a presence check, so the empty
    string fails it. *)
Class StValidateLaws `{StValidate} := {
  sv_required_empty : Validation.vrun sv_required (FString "") = Validation.VReturn false;
}.

(** ** The component *)

(** The attributes (lines 25-59); an attribute that is not given is
    [undefined] ([None]).  [disabled] is read as [this.disabled] (line
    113) but is declared neither here nor in [IAttrValidation]. *)
Record InputValidation := mkInputValidation {
  formIgnore : bool;
  readonly : option bool;
  maxLength : option Z;
  minLength : option Z;
  pattern : option string;
  required : option bool;
  max : option Limit;
  min : option Limit;
  eventListeners : option (list string);
  debounceTimeInMs : option JSNum;
  validators : list Validation.Validator;
  disabled : option bool;
}.

Section Component.
Context `{StValidate}.
Implicit Types (iv : InputValidation).

(** [if (typeof this.x !== TYPE_UNDEFINED) internalValidators.push(...)]
    for one attribute. *)
Definition push_if {A} (x : option A) (mk : A -> Validation.Validator) : list Validation.Validator :=
  match x with
  | Some a => [mk a]
  | None => []
  end.

(** [render()], lines 72-91: [required], [maxLength], [minLength], [max],
    [min], [pattern], in this order. *)
Definition internalValidators iv : list Validation.Validator :=
  push_if (required iv) (fun _ => sv_required) ++
  push_if (maxLength iv) sv_maxLength ++
  push_if (minLength iv) sv_minLength ++
  push_if (max iv) sv_max ++
  push_if (min iv) sv_min ++
  push_if (pattern iv) sv_pattern.

(** The [Validation] that [render()] creates (lines 94-97), with the
    identity [self] and the host element [el]:
    [mergeArrays(internalValidators, this.validators)] puts the custom
    validators after the built-in ones. *)
Definition render iv (self el : nat) : Validation.Validation :=
  Validation.mkValidation self el (eventListeners iv) (debounceTimeInMs iv)
    (internalValidators iv ++ validators iv) None None None None.

(** The message of the [Error] [onAfterRender] throws. *)
Definition missing_input_error : string := "<InputValidation> missing HTML <input> as child element".

(** [onAfterRender()], lines 100-116: the first [<input>] under the
    [Validation]'s element [vel] becomes [inputRef]; without one the
    method throws.  Then [input[FORM_IGNORE] = true] when [formIgnore],
    and the [readOnly] and [disabled] attributes when [this.readonly] and
    [this.disabled] are truthy. *)
Definition onAfterRender iv (d : Dom) (vel : nat) : (nat * Dom) + string :=
  match querySelector d vel TInput with
  | None => inr missing_input_error
  | Some i =>
      let d1 := if formIgnore iv then set_prop d i Form.FORM_IGNORE_PROPERTY_NAME (XBool true) else d in
      let d2 := if truthy (readonly iv) then setReadOnly d1 i else d1 in
      inl (i, if truthy (disabled iv) then setDisabled d2 i else d2)
  end.

(** [validate(force)], lines 118-120: the call is delegated to the
    rendered [Validation]. *)
Definition validate (cfg : I_FormConfig) (force : bool) (w : Validation.World) : Validation.World :=
  Validation.validate cfg force w.
End Component.

(** ** Examples

    Builders in the style of [st-validate]: [required] is
    [Validation.ex_required], the others accept every value.  The
    [InputValidation] [ex_iv] is declared [required={false}] and
    [readonly]; [ex_iv_ignored] is declared [formIgnore].  Both are
    rendered around the inputs of form [100] of [Form.ex_page]. *)
Definition ex_accept (nm : string) : Validation.Validator :=
  Validation.mkValidator [("VALIDATOR_NAME", nm)] (fun _ => Validation.VReturn true).

#[local] Instance ex_stvalidate : StValidate := {|
  sv_required := Validation.ex_required;
  sv_maxLength := fun _ => ex_accept "maxLength";
  sv_minLength := fun _ => ex_accept "minLength";
  sv_max := fun _ => ex_accept "max";
  sv_min := fun _ => ex_accept "min";
  sv_pattern := fun _ => ex_accept "pattern";
|}.

Definition ex_iv : InputValidation :=
  mkInputValidation false (Some true) (Some 10%Z) None None (Some false) None None None None [] None.

Definition ex_iv_ignored : InputValidation :=
  mkInputValidation true None None None None None None None None None [] None.

#[local] Instance ex_stvalidate_laws : StValidateLaws.
Proof. constructor. reflexivity. Qed.

(** The document of [Form.ex_page] once [ex_iv] and [ex_iv_ignored]
    have bound, around the inputs of form [100]: both bind input [101]. *)
Definition ex_bound_dom (iv : InputValidation) : Dom :=
  match onAfterRender iv (dom ex_page) 100 with
  | inl (_, d') => d'
  | inr _ => dom ex_page
  end.

(** ** Theorems *)

(** What binding does to the document. *)
Lemma onAfterRender_facts iv d vel i d' :
  onAfterRender iv d vel = inl (i, d') ->
  querySelector d vel TInput = Some i /\
  (forall j k, k <> Form.FORM_IGNORE_PROPERTY_NAME -> get_prop d' j k = get_prop d j k) /\
  (formIgnore iv = true -> get_prop d' i Form.FORM_IGNORE_PROPERTY_NAME = Some (XBool true)) /\
  (forall g, form_elements d' g = form_elements d g) /\
  (truthy (disabled iv) = false -> forall j, el_disabled <$> get_el d' j = el_disabled <$> get_el d j).
Proof.
  unfold onAfterRender. destruct (querySelector d vel TInput) as [i0|]; [|discriminate].
  intros E. injection E as <- <-. split; [done|].
  destruct (formIgnore iv), (truthy (readonly iv)), (truthy (disabled iv));
    repeat split; intros; autorewrite with stform; rewrite ?get_prop_set_prop;
    repeat case_decide; simplify_eq; done.
Qed.

Section Theorems.
Context `{StValidateLaws}.
Implicit Types (iv : InputValidation).

(** C21 (functional; a gap in the spec).  The test is
    [typeof this.required !== 'undefined'], so [required={false}] adds
    the [required] validator as [required={true}] does: the rendered
    [Validation] rejects an empty value whatever the other validators
    say. *)
Theorem required_false_requires iv self el :
  required iv = Some false ->
  Validation.ref_valid (Validation.validators (render iv self el)) (FString "") = false.
Proof.
  intros Hr. unfold render, internalValidators. cbn [Validation.validators]. rewrite Hr.
  cbn [push_if app]. rewrite Validation.ref_valid_cons. unfold Validation.passes.
  by rewrite sv_required_empty.
Qed.

(** C22 (functional; the code differs from its intent).  Binding changes
    no form's [getElements] unless the component is [disabled]: a field
    declared [readonly] gets the [readOnly] attribute but stays among
    the fields its form validates, and a [formIgnore] field stays too. *)
Theorem onAfterRender_keeps_validated fc iv d vel i d' cs par f :
  onAfterRender iv d vel = inl (i, d') -> truthy (disabled iv) = false ->
  fc_validationPropertyName fc <> FORM_IGNORE_PROPERTY_NAME ->
  getElements fc (mkPage d' cs par) f = getElements fc (mkPage d cs par) f.
Proof.
  intros E Hd Hk. destruct (onAfterRender_facts iv d vel i d' E) as (_ & Hp & _ & Hf & Hdis).
  apply getElements_ext; [done| | |by apply Hdis].
  - intros j. by apply Hp.
  - intros j. apply Hp. discriminate.
Qed.

(** C23 (functional).  A [formIgnore] field is skipped by the loop of
    [getState] over [formRef.elements]: it contributes nothing to any
    form's state (and by C22 it is still validated). *)
Theorem formIgnore_skipped iv d vel i d' pg f acc :
  onAfterRender iv d vel = inl (i, d') -> formIgnore iv = true -> dom pg = d' ->
  scan_element pg f acc i = acc.
Proof.
  intros E Hi Hd. destruct (onAfterRender_facts iv d vel i d' E) as (_ & _ & Hig & _).
  destruct acc as [st radios]. unfold scan_element. rewrite Hd.
  destruct (get_el d' i); [|done]. rewrite (Hig Hi). by rewrite orb_true_r.
Qed.
End Theorems.

(** ** Witnesses *)

Lemma required_false_requires_witness :
  required ex_iv = Some false /\
  Validation.ref_valid (Validation.validators (render ex_iv 30 100)) (FString "") = false.
Proof. split; [reflexivity|]. apply (required_false_requires ex_iv 30 100). reflexivity. Defined.

Lemma onAfterRender_keeps_validated_witness :
  el_readOnly <$> get_el (ex_bound_dom ex_iv) 101 = Some true /\
  getElements defaultFormConfig (mkPage (ex_bound_dom ex_iv) (comps ex_page) (parent ex_page)) ex_A =
  getElements defaultFormConfig (mkPage (dom ex_page) (comps ex_page) (parent ex_page)) ex_A.
Proof.
  split; [vm_compute; reflexivity|].
  apply (onAfterRender_keeps_validated defaultFormConfig ex_iv (dom ex_page) 100 101 (ex_bound_dom ex_iv));
    [vm_compute; reflexivity|reflexivity|vm_compute; discriminate].
Defined.

Lemma formIgnore_skipped_witness :
  scan_element (mkPage (ex_bound_dom ex_iv_ignored) (comps ex_page) (parent ex_page)) ex_A ([], []) 101 =
  ([], []).
Proof.
  apply (formIgnore_skipped ex_iv_ignored (dom ex_page) 100 101 (ex_bound_dom ex_iv_ignored));
    [vm_compute; reflexivity|reflexivity|reflexivity].
Defined.

End InputValidation.
