(* ===== verification/Wiring.v ===== *)
(** How [Validation] and [Form] meet through the configuration.
    [Validation.onAfterRender] (validation.ts, lines 79-94) stores the
    component on its input under [stForm.validationPropertyName];
    [Form.getElements] (form.tsx, lines 96-110) collects the inputs that
    carry one under [getFormConfig().validationPropertyName].  When the
    two configuration objects agree on the name (nothing preset), a bound
    field is among its form's fields; when they differ (a preset page
    object in the load order of form.tsx), a bound field is invisible to
    its form. *)
From S2P Require Import Prelude JsValue Dom Config Validation Form.

Module Wiring.
Import Form.

(** ** Example

    A page that set [globalThis.$stForm] to an object naming the
    property [myValidation], and a [Validation] with identity [30] whose
    host is the form element [200] of [Form.ex_page]: its input is [201]. *)
Definition ex_preset : CfgObj := mkCfgObj false None None (Some "myValidation") None None.

Definition ex_wiring_world : Validation.World :=
  Validation.mkWorld (Validation.mkValidation 30 200 None None [] None None None None) (dom ex_page)
    [] ∅ [] [] [] [] [] 0.

(** ** Lemmas *)

(** [onAfterRender] changes the document at most by one property of the
    target, under the configured name. *)
Lemma onAfterRender_dom cfg w :
  Validation.dom (Validation.onAfterRender cfg w) = Validation.dom w \/
  exists tg x, Validation.dom (Validation.onAfterRender cfg w) =
               set_prop (Validation.dom w) tg (validationPropertyName cfg) x.
Proof. unfold Validation.onAfterRender. repeat case_match; cbn; eauto. Qed.

(** Binding under a name that is neither the one [Form] reads nor
    ["readonly"] changes no form's fields. *)
Lemma onAfterRender_getElements_other_key cfg fc w cs par f :
  validationPropertyName cfg <> fc_validationPropertyName fc -> validationPropertyName cfg <> "readonly" ->
  getElements fc (mkPage (Validation.dom (Validation.onAfterRender cfg w)) cs par) f =
  getElements fc (mkPage (Validation.dom w) cs par) f.
Proof.
  intros Hk Hr. destruct (onAfterRender_dom cfg w) as [->|(tg & x & ->)]; [done|].
  apply getElements_ext; intros; rewrite ?form_elements_set_prop, ?get_el_set_prop; [done| | |done].
  all: rewrite get_prop_set_prop; case_decide; simplify_eq; done.
Qed.

(** Where [onAfterRender] leaves a target, that target carries the
    component under the configured name. *)
Lemma onAfterRender_target_prop cfg w tg :
  Validation.target (Validation.comp (Validation.onAfterRender cfg w)) = Some tg ->
  Validation.dom (Validation.onAfterRender cfg w) =
    set_prop (Validation.dom w) tg (validationPropertyName cfg) (XValidation (Validation.self (Validation.comp w))).
Proof. intros Ht. unfold Validation.onAfterRender in *. repeat case_match; cbn in *; congruence. Qed.

(** With nothing preset, in either load order, the component and the
    form read the configuration of the environment. *)
Lemma imports_views env gl imp :
  globals_wf gl -> g_key gl = None ->
  imp = import_st_form_then_config \/ imp = import_config_then_st_form ->
  default default_stForm (to_I_FormConfig <$> stForm (imp env gl)) = stForm_of_env env /\
  default defaultFormConfig (to_FormConfig <$> getFormConfig (imp env gl)) = formConfig_of_env env.
Proof.
  intros Hwf Hk [->| ->].
  - destruct (import_st_form_then_config_fresh env gl Hwf Hk) as (_ & -> & ->). cbn.
    by rewrite stForm_obj_view, defaultFormConfig_obj_view.
  - destruct (import_config_then_st_form_shared env gl) as (_ & -> & ->). cbn.
    by rewrite stForm_obj_view, stForm_obj_FormConfig_view.
Qed.

(** ** Theorems *)

(** C31 (safety; the code differs from the spec).  In the load order of
    form.tsx, with a page object naming its own property [p], a field
    whose [Validation] binds is not among the fields of any form: the
    property [Validation] sets is not the one [Form] reads, so binding
    leaves [getElements] as it was, and the field is never validated by
    its form. *)
Theorem preset_name_hides_validations env gl l o p w cs par f :
  globals_wf gl -> g_key gl = Some l -> g_heap gl !! l = Some o ->
  o_validationPropertyName o = Some p -> p <> "" -> p <> propertyNameFromEnv env -> p <> "readonly" ->
  let gl' := import_st_form_then_config env gl in
  let cfg := default default_stForm (to_I_FormConfig <$> stForm gl') in
  let fc := default defaultFormConfig (to_FormConfig <$> getFormConfig gl') in
  getElements fc (mkPage (Validation.dom (Validation.onAfterRender cfg w)) cs par) f =
  getElements fc (mkPage (Validation.dom w) cs par) f.
Proof.
  intros Hwf Hk Ho Hp Hne Henv Hr gl' cfg fc.
  destruct (import_st_form_then_config_preset env gl l o Hwf Hk Ho) as (_ & Hs & Hg).
  assert (Hc : validationPropertyName cfg = p).
  { unfold cfg, gl'. rewrite Hs. cbn. rewrite Hp. cbn.
    unfold truthy, truthy_string. by destruct (String.eqb_spec p ""). }
  assert (Hf : fc_validationPropertyName fc = propertyNameFromEnv env).
  { unfold fc, gl'. by rewrite Hg. }
  apply onAfterRender_getElements_other_key; congruence.
Qed.

(** C32 (functional).  The wiring the spec describes: with nothing
    preset under ["$stForm"], in either load order, and a property name
    other than ["readonly"], a [Validation] that binds a target inside
    form [f], enabled and without a [readonly] expando, is among the
    fields [Form.getElements] returns for [f]. *)
Theorem bound_field_visible env gl imp w f tg e cs par :
  globals_wf gl -> g_key gl = None ->
  imp = import_st_form_then_config \/ imp = import_config_then_st_form ->
  propertyNameFromEnv env <> "readonly" ->
  let cfg := default default_stForm (to_I_FormConfig <$> stForm (imp env gl)) in
  let fc := default defaultFormConfig (to_FormConfig <$> getFormConfig (imp env gl)) in
  Validation.target (Validation.comp (Validation.onAfterRender cfg w)) = Some tg ->
  tg ∈ form_elements (Validation.dom w) (formRef f) -> get_el (Validation.dom w) tg = Some e ->
  el_disabled e = false -> truthy (get_prop (Validation.dom w) tg "readonly") = false ->
  Validation.self (Validation.comp w) ∈
    getElements fc (mkPage (Validation.dom (Validation.onAfterRender cfg w)) cs par) f.
Proof.
  intros Hwf Hk Himp Hro cfg fc Ht Hin He Hd Hr.
  destruct (imports_views env gl imp Hwf Hk Himp) as [Hc Hf]. fold cfg in Hc. fold fc in Hf.
  rewrite (onAfterRender_target_prop cfg w tg Ht). unfold getElements. cbn [dom].
  rewrite form_elements_set_prop. apply list_elem_of_omap. exists tg. split; [done|].
  apply element_validation_spec. exists e. cbn [dom].
  rewrite !get_prop_set_prop, get_el_set_prop, Hc, Hf. cbn.
  rewrite decide_True by done. rewrite decide_False by congruence. done.
Qed.

(** ** Witnesses *)

Lemma preset_name_hides_validations_witness :
  let gl' := import_st_form_then_config [] (preset_globals ex_preset) in
  let cfg := default default_stForm (to_I_FormConfig <$> stForm gl') in
  let fc := default defaultFormConfig (to_FormConfig <$> getFormConfig gl') in
  get_prop (Validation.dom (Validation.onAfterRender cfg ex_wiring_world)) 201 "myValidation" =
    Some (XValidation 30) /\
  getElements fc (mkPage (Validation.dom (Validation.onAfterRender cfg ex_wiring_world)) (comps ex_page)
    (parent ex_page)) ex_S = [].
Proof.
  intros gl' cfg fc. split; [vm_compute; reflexivity|].
  etransitivity.
  - apply (preset_name_hides_validations [] (preset_globals ex_preset) 0 ex_preset "myValidation"
             ex_wiring_world (comps ex_page) (parent ex_page) ex_S);
      [apply preset_globals_wf|reflexivity|reflexivity|reflexivity|discriminate|
       vm_compute; discriminate|discriminate].
  - vm_compute. reflexivity.
Defined.

Lemma bound_field_visible_witness :
  let gl' := import_st_form_then_config [] empty_globals in
  let cfg := default default_stForm (to_I_FormConfig <$> stForm gl') in
  let fc := default defaultFormConfig (to_FormConfig <$> getFormConfig gl') in
  30 ∈ getElements fc (mkPage (Validation.dom (Validation.onAfterRender cfg ex_wiring_world)) (comps ex_page)
    (parent ex_page)) ex_S.
Proof.
  apply (bound_field_visible [] empty_globals import_st_form_then_config ex_wiring_world ex_S 201
           (ex_el TInput "radio" "agree" "yes" false (Some 200) (Some 200)) (comps ex_page) (parent ex_page));
    [apply empty_globals_wf|reflexivity|left; reflexivity|vm_compute; discriminate|vm_compute; reflexivity|
     vm_compute; repeat constructor|vm_compute; reflexivity|reflexivity|vm_compute; reflexivity].
Defined.

End Wiring.
