(* ===== verification/FormLifecycle.v ===== *)
(** The lifecycle of the [Form] component (component/form/form.tsx)
    outside [validate]: [onAfterRender] (lines 58-61) registers the
    component on its [<form>] ([addFormToForm]) and installs a submit
    listener ([overrideSubmit], lines 67-73); [reset] (lines 175-177)
    calls the native [formRef.reset()].  The theorems: submitting a
    rendered form is always prevented, [reset] restores exactly the
    form's own controls, and the state of every form that does not reach
    the reset form is unchanged, nested sub-forms included. *)
From S2P Require Import Prelude JsValue Dom Form.

Module FormLifecycle.
Import Form.

(** ** The component's lifecycle state

    The page, and the [<form>] elements that carry a submit listener of
    [overrideSubmit], once per call: each call adds a new arrow
    function, so [addEventListener] never merges two of them. *)
Record Lifecycle := mkLifecycle {
  lc_page : Page;
  lc_submit : list nat;
}.

(** [overrideSubmit()]: [formRef.addEventListener('submit', evt =>
    evt.preventDefault())]. *)
Definition overrideSubmit (lc : Lifecycle) (f : Form) : Lifecycle :=
  mkLifecycle (lc_page lc) (lc_submit lc ++ [formRef f]).

(** [onAfterRender()]: [addFormToForm()], then [overrideSubmit()]. *)
Definition onAfterRender (lc : Lifecycle) (f : Form) : Lifecycle :=
  overrideSubmit (mkLifecycle (addFormToForm (lc_page lc) f) (lc_submit lc)) f.

(** [reset()]: [this.formRef.reset()]. *)
Definition reset (lc : Lifecycle) (f : Form) : Lifecycle :=
  let pg := lc_page lc in
  mkLifecycle (mkPage (form_reset (dom pg) (formRef f)) (comps pg) (parent pg)) (lc_submit lc).

(** What submitting the [<form>] element [i] does: its submit listeners
    run, and the browser submits the form (navigates) unless one of them
    called [preventDefault()].  The listener does nothing else: in
    particular no validation is started. *)
Inductive SubmitOutcome :=
| SubmitPrevented
| SubmitNavigates (form : nat).

Definition submit (lc : Lifecycle) (i : nat) : SubmitOutcome :=
  if decide (i ∈ lc_submit lc) then SubmitPrevented else SubmitNavigates i.

(** The lifecycle steps of the forms of a page: a [Form] is rendered, or
    a form is reset. *)
Inductive lstep : Lifecycle -> Lifecycle -> Prop :=
| ls_render lc f : lstep lc (onAfterRender lc f)
| ls_reset lc f : lstep lc (reset lc f).

(** Every [<form>] element registered as a [Form] carries a submit
    listener. *)
Definition submit_guarded (lc : Lifecycle) : Prop :=
  forall i c, get_prop (dom (lc_page lc)) i FORM_PROPERTY_NAME = Some (XForm c) -> i ∈ lc_submit lc.

(** Whether [getState] with this fuel visits a form whose [<form>]
    element is [r]: the form itself, or one it nests, at any depth the
    fuel allows. *)
Fixpoint reaches (pg : Page) (fuel : nat) (r : nat) (g : Form) : bool :=
  match fuel with
  | 0 => false
  | S n => Nat.eqb (formRef g) r || existsb (reaches pg n r) (getSubForm pg g)
  end.

(** ** Examples

    [ex_edited]: the page [Form.ex_page] after the user typed ["edited"]
    into the field ["a"] of [ex_A] (element 101) and into the field
    ["b"] of its sub-form [ex_B] (element 111).  [ex_lc0]: the same
    forms before any [Form] has rendered: no [FROM] property and no
    submit listener. *)
Definition ex_typed (v : string) (e : Element) : Element :=
  mkElement (el_tag e) (el_type e) (el_name e) v (el_checked e) (el_disabled e) (el_readOnly e)
    (el_valueAsNumber e) (el_valueAsDate e) (el_validity e) (el_form e) (el_parent e) (el_default e).

Definition ex_edited : Lifecycle :=
  mkLifecycle (mkPage (update_el (update_el (dom ex_page) 101 (ex_typed "edited")) 111 (ex_typed "edited"))
                 (comps ex_page) (parent ex_page)) [].

Definition ex_lc0 : Lifecycle :=
  mkLifecycle (mkPage (mkDom (dom_els (dom ex_page)) (dom_order (dom ex_page)) ∅) (comps ex_page) (parent ex_page)) [].

(** ** Queries on pages of the same shape *)

Lemma lookup_key_elem {A} (l : list (string * A)) k v :
  NoDup (map fst l) -> (k, v) ∈ l -> lookup_key k l = Some v.
Proof.
  induction l as [|[k' v'] l IH]; intros Hnd Hin; [set_solver|]. cbn.
  inversion Hnd as [|? ? Hk Hnd']; subst. apply elem_of_cons in Hin as [[= -> ->]|Hin].
  - by rewrite String.eqb_refl.
  - destruct (String.eqb_spec k k') as [->|]; [|by apply IH].
    exfalso. apply Hk. exact (list_elem_of_fmap_2 fst _ _ Hin).
Qed.

Section Local.
Context (d d' : Dom) (cs : gmap nat Component) (par : gmap nat nat).
Hypothesis Hs : same_shape d d'.

Lemma getSubForm_shape f : getSubForm (mkPage d' cs par) f = getSubForm (mkPage d cs par) f.
Proof.
  unfold getSubForm. cbn [dom]. rewrite (querySelectorAll_shape d d' Hs). f_equal. apply map_ext. intros i.
  unfold sub_form_of, chain. cbn [dom comps]. rewrite (get_prop_shape d d' Hs).
  done.
Qed.

Section Agree.
(** The elements of form [f] hold the same in both documents. *)
Variable f : Form.
Hypothesis Hf : forall i, i ∈ form_elements d (formRef f) -> get_el d' i = get_el d i.

Lemma scan_element_agree acc i :
  i ∈ form_elements d (formRef f) ->
  scan_element (mkPage d' cs par) f acc i = scan_element (mkPage d cs par) f acc i.
Proof.
  intros Hi. destruct acc as [st radios]. unfold scan_element. cbn [dom].
  rewrite (Hf i Hi). destruct (get_el d i) as [e|]; [|done].
  rewrite !(get_prop_shape d d' Hs), (namedItem_shape d d' Hs). done.
Qed.

Lemma fold_scan_agree l acc :
  (forall i, i ∈ l -> i ∈ form_elements d (formRef f)) ->
  fold_left (scan_element (mkPage d' cs par) f) l acc = fold_left (scan_element (mkPage d cs par) f) l acc.
Proof.
  revert acc. induction l as [|i l IH]; intros acc Hl; [done|]. cbn.
  rewrite scan_element_agree by (apply Hl; set_solver). apply IH. set_solver.
Qed.

Lemma radio_list_value_agree ids :
  (forall i, i ∈ ids -> i ∈ form_elements d (formRef f)) -> radio_list_value d' ids = radio_list_value d ids.
Proof.
  intros Hids. unfold radio_list_value.
  assert (E : List.find (is_checked_radio d') ids = List.find (is_checked_radio d) ids).
  { induction ids as [|i ids IH]; [done|]. cbn. unfold is_checked_radio at 1 3.
    rewrite (Hf i) by (apply Hids; set_solver). rewrite IH by set_solver. done. }
  rewrite E. destruct (List.find (is_checked_radio d) ids) as [i|] eqn:Ef; [|done].
  apply List.find_some in Ef as [Hi _]. by rewrite (Hf i) by (apply Hids, list_elem_of_In, Hi).
Qed.

Lemma named_value_agree k :
  named_value (mkPage d' cs par) (namedItem d (formRef f) k) = named_value (mkPage d cs par) (namedItem d (formRef f) k).
Proof.
  unfold namedItem. remember (List.filter (has_name d k) (form_elements d (formRef f))) as l0 eqn:E0.
  assert (Hsub : forall i, i ∈ l0 -> i ∈ form_elements d (formRef f)).
  { intros i Hi%list_elem_of_In. subst l0. apply list_elem_of_In. by apply List.filter_In in Hi as [? _]. }
  destruct l0 as [|i [|j l]]; cbn [named_value dom]; [done| |].
  - rewrite (Hf i) by (apply Hsub; set_solver). done.
  - by rewrite radio_list_value_agree.
Qed.

Lemma flat_state_agree : flat_state (mkPage d' cs par) f = flat_state (mkPage d cs par) f.
Proof.
  unfold flat_state. cbn [dom]. rewrite (form_elements_shape d d' Hs), fold_scan_agree by done.
  pose proof (scan_radios_ok (mkPage d cs par) f (form_elements d (formRef f)) ([], []))
    as [Hnd Hr]; [split; [constructor|done]|].
  destruct (fold_left _ _ _) as [st radios]. cbn in Hr.
  assert (Hn : forall x, x ∈ radios -> named_value (mkPage d' cs par) x.2 = named_value (mkPage d cs par) x.2).
  { intros [n ni] Hx. cbn. rewrite (Hr n ni (lookup_key_elem _ _ _ Hnd Hx)). apply named_value_agree. }
  clear Hr Hnd. revert st. induction radios as [|[n ni] radios IH]; intros st; [done|]. cbn.
  assert (Hni := Hn (n, ni) ltac:(set_solver)). cbn in Hni. rewrite Hni.
  apply IH. intros x Hx. apply Hn. set_solver.
Qed.
End Agree.

(** [getState] of a form that does not reach the form element [r] reads
    no element owned by [r]. *)
Lemma getState_local r n g :
  (forall i, form_of d i <> Some r -> get_el d' i = get_el d i) ->
  reaches (mkPage d cs par) n r g = false ->
  getState (mkPage d' cs par) n g = getState (mkPage d cs par) n g.
Proof.
  intros Hout. revert g. induction n as [|n IH]; intros g Hr; [done|].
  cbn [reaches] in Hr. apply orb_false_iff in Hr as [Hg Hsub].
  cbn [getState]. rewrite getSubForm_shape, flat_state_agree.
  - apply fold_add_sub_ext. intros h Hh. apply IH.
    destruct (reaches _ n r h) eqn:E; [|done]. rewrite <- Hsub. symmetry.
    apply existsb_exists. exists h. split; [by apply list_elem_of_In|done].
  - intros i Hi. apply Hout. rewrite (form_elements_owner _ _ _ Hi). intros [= E].
    subst r. by rewrite Nat.eqb_refl in Hg.
Qed.
End Local.

(** ** Lemmas on the lifecycle *)

Lemma lstep_guarded lc lc' : submit_guarded lc -> lstep lc lc' -> submit_guarded lc'.
Proof.
  intros Hg Hs i c. destruct Hs as [lc f|lc f];
    cbn [onAfterRender overrideSubmit reset addFormToForm lc_page lc_submit dom].
  - rewrite get_prop_set_prop. case_decide as E.
    + injection E as <-. intros _. set_solver.
    + intros Hp. specialize (Hg i c Hp). set_solver.
  - rewrite get_prop_form_reset. apply Hg.
Qed.

Lemma get_el_form_reset d r i :
  get_el (form_reset d r) i = if decide (i ∈ form_elements d r) then reset_el <$> get_el d i else get_el d i.
Proof. by rewrite form_reset_unfold, get_el_reset_all. Qed.

Lemma ex_lc0_guarded : submit_guarded ex_lc0.
Proof. intros i c. cbn. unfold get_prop. cbn. by rewrite lookup_empty. Qed.

(** ** Theorems *)

(** C33 (invariant).  Once every registered form carries a submit
    listener, it stays so whatever forms render or reset: submitting a
    [<form>] that carries a [Form] never navigates.  The listener only
    calls [preventDefault()]: a submit validates nothing. *)
Theorem rendered_forms_never_submit lc lc' i c :
  submit_guarded lc -> star lstep lc lc' ->
  get_prop (dom (lc_page lc')) i FORM_PROPERTY_NAME = Some (XForm c) -> submit lc' i = SubmitPrevented.
Proof.
  intros Hg Hst Hp. pose proof (star_invariant lstep submit_guarded (fun s s' H Hs => lstep_guarded s s' H Hs) lc lc' Hst Hg) as Hg'.
  unfold submit. rewrite decide_True; [done|]. by apply (Hg' i c).
Qed.

(** C34 (functional; a gap in the spec).  [reset()] gives each control
    of [formRef.elements] back its default value and checkedness, keeps
    its custom validity message (a field marked invalid stays invalid,
    and no [change] event lets its [Validation] run again), and changes
    no other element and no expando property. *)
Theorem reset_restores lc f i e :
  let d := dom (lc_page lc) in
  let d' := dom (lc_page (reset lc f)) in
  get_el d i = Some e ->
  (i ∈ form_elements d (formRef f) -> resettable (el_tag e) = true ->
     exists e', get_el d' i = Some e' /\ el_value e' = c_value (el_default e) /\
       el_checked e' = c_checked (el_default e) /\ el_validity e' = el_validity e) /\
  (i ∉ form_elements d (formRef f) -> get_el d' i = Some e) /\
  (forall j k, get_prop d' j k = get_prop d j k).
Proof.
  intros d d' He. unfold d', reset. cbn [lc_page dom]. fold d.
  split_and!; [intros Hi Hr|intros Hi|intros j k; apply get_prop_form_reset];
    rewrite get_el_form_reset, He; [rewrite decide_True by done|by rewrite decide_False].
  eexists. split; [done|]. unfold reset_el. rewrite Hr. done.
Qed.

(** C35 (functional; a gap in the spec).  [reset()] reaches only the
    form's own controls: the state [getState] builds for any form that
    does not nest the reset form is unchanged, in particular that of
    each nested sub-form, whose controls have the sub-form as owner.
    [validate] and [getState] recurse into sub-forms; [reset] does not. *)
Theorem reset_keeps_other_states lc f fuel g :
  reaches (lc_page lc) fuel (formRef f) g = false ->
  getState (lc_page (reset lc f)) fuel g = getState (lc_page lc) fuel g.
Proof.
  destruct lc as [[d cs par] subs]. cbn [reset lc_page dom comps parent]. apply getState_local.
  - apply form_reset_shape.
  - intros i Hi. rewrite get_el_form_reset, decide_False; [done|].
    intros Hin. by apply Hi, form_elements_owner.
Qed.

(** ** Witnesses *)

Lemma rendered_forms_never_submit_witness :
  submit (reset (onAfterRender ex_lc0 ex_A) ex_A) 100 = SubmitPrevented.
Proof.
  apply (rendered_forms_never_submit ex_lc0 (reset (onAfterRender ex_lc0 ex_A) ex_A) 100 10).
  - apply ex_lc0_guarded.
  - eapply star_step; [apply ls_render|]. eapply star_step; [apply ls_reset|]. apply star_refl.
  - vm_compute. reflexivity.
Defined.

Lemma reset_restores_witness :
  el_value <$> get_el (dom (lc_page (reset ex_edited ex_A))) 101 = Some "va" /\
  get_el (dom (lc_page (reset ex_edited ex_A))) 111 = get_el (dom (lc_page ex_edited)) 111.
Proof.
  destruct (reset_restores ex_edited ex_A 101 (ex_typed "edited" (ex_el TInput "text" "a" "va" false (Some 100) (Some 100))))
    as [H1 _]; [vm_compute; reflexivity|].
  destruct H1 as (e' & -> & Hv & _); [vm_compute; repeat constructor|reflexivity|].
  split; [cbn; by rewrite Hv|].
  destruct (reset_restores ex_edited ex_A 111 (ex_typed "edited" (ex_el TInput "text" "b" "vb" false (Some 110) (Some 110))))
    as (_ & H2 & _); [vm_compute; reflexivity|].
  rewrite H2; [vm_compute; reflexivity|]. vm_compute. set_solver.
Defined.

Lemma reset_keeps_other_states_witness :
  getState (lc_page (reset ex_edited ex_A)) 4 ex_B = getState (lc_page ex_edited) 4 ex_B /\
  lookup_key "a" (default [] (getState (lc_page (reset ex_edited ex_A)) 4 ex_A)) = Some (SVal (FString "va")) /\
  lookup_key "child" (default [] (getState (lc_page (reset ex_edited ex_A)) 4 ex_A)) =
    lookup_key "child" (default [] (getState (lc_page ex_edited) 4 ex_A)).
Proof.
  split; [apply (reset_keeps_other_states ex_edited ex_A 4 ex_B); vm_compute; reflexivity|].
  split; vm_compute; reflexivity.
Defined.

End FormLifecycle.
